(** * three-sprite-texture-atlas-manager: the knapsack allocator and its manager

    A shallow embedding of [dist/three-sprite-texture-atlas-manager.es6.js]:
    [KnapsackRectangle], [KnapsackNode], [Knapsack] and [TextureManager].

    Conventions of the embedding.
    - A JavaScript number is an integer or [NaN] (type [num]); fractions and
      infinities are left out.  The texture size is one of the powers of two
      the constructor accepts, so the divisions of [uvCoordinates] are exact in
      binary floating point and are written over [Q].
    - The tree of nodes of a knapsack is an inductive tree.  A reference to a
      node object is its position: the index of its knapsack in
      [TextureManager.knapsacks] and the path of child selections from the
      root node.
    - The outside world (the UUID generator of three.js, the canvas context,
      texture disposal, the promises handed out) is the record [World]; every
      method takes the world and returns the new one.
    - The recursion of [KnapsackNode.allocate] is bounded by the depth [stack]
      of the call stack; exhausting it is the engine's [RangeError]. *)

From Stdlib Require Import ZArith QArith List Bool Lia String Lqa Qround.
Import ListNotations.
Open Scope Z_scope.

(** ** JavaScript numbers *)

Module Num.

Inductive num : Type :=
| Int (z : Z)
| NaN.

(** [a > b] *)
Definition gt (a b : num) : bool :=
  match a, b with
  | Int x, Int y => y <? x
  | _, _ => false
  end.

(** [a === b] *)
Definition strict_eq (a b : num) : bool :=
  match a, b with
  | Int x, Int y => x =? y
  | _, _ => false
  end.

(** [a + b] *)
Definition add (a b : num) : num :=
  match a, b with
  | Int x, Int y => Int (x + y)
  | _, _ => NaN
  end.

(** [a - b] *)
Definition sub (a b : num) : num :=
  match a, b with
  | Int x, Int y => Int (x - y)
  | _, _ => NaN
  end.

(** [Math.floor( ( typeof a === `number` && isFinite( a ) ) ? a : 0 )] *)
Definition floor_finite (a : num) : Z :=
  match a with
  | Int x => x
  | NaN => 0
  end.

End Num.
Import Num.

(** ** The outside world *)

(** The identifiers of [THREE.Math.generateUUID]: the n-th call gives [n]. *)
Definition UUID := nat.

(** A derived [THREE.Texture]: the fields the node writes. *)
Record Texture : Type := mkTexture {
  offset_x : Q;
  offset_y : Q;
  repeat_x : Q;
  repeat_y : Q
}.

(** Calls made on the collaborators, in the order they happen. *)
Inductive Call : Type :=
| ClearRect (x y w h : Z)
| StrokeRect (lineWidth : Q) (strokeStyle : string) (x y w h : Q)
| Dispose (t : Texture)
| ConsoleLog (textureSize : Z) (count : nat).

(** One step down the tree: to [leftChild] or to [rightChild]. *)
Inductive Dir : Type := L | R.

(** A reference to a node object. *)
Record NodeRef : Type := mkRef {
  knapsack_index : nat;
  path : list Dir
}.

(** The errors thrown, by their message. *)
Inductive Error : Type :=
| WidthTooLarge (width : num)    (* `Width of ${ width } is too large for these textures` *)
| HeightTooLarge (height : num)  (* `Height of ${ height } is too large for these textures` *)
| QueueNotSetUp                  (* `You're trying to resolve a queue which hasn't been set up. ...` *)
| StillHasChildren               (* `Can not release tree node, still has children` *)
| StackExhausted.                (* RangeError of the engine *)

(** How a call ends: it returns a value or it throws. *)
Inductive Completion (A : Type) : Type :=
| Normal (a : A)
| Abrupt (e : Error).
Arguments Normal {A} a.
Arguments Abrupt {A} e.

(** How a promise was settled. *)
Inductive Settlement : Type :=
| Resolved (node : option NodeRef)
| Rejected (error : Error).

(** The promises created, numbered in the order of their creation. *)
Definition PromiseId := nat.

Record World : Type := mkWorld {
  next_uuid : UUID;                             (* THREE.Math.generateUUID *)
  calls : list Call;                            (* canvas context and texture calls *)
  next_promise : PromiseId;                     (* new Promise( ... ) *)
  settlements : list (PromiseId * Settlement)   (* resolve( ) and reject( ), oldest first *)
}.

(** The world before anything happened. *)
Definition World0 : World := mkWorld 0%nat [] 0%nat [].

Definition log (c : Call) (w : World) : World :=
  mkWorld (next_uuid w) (calls w ++ [c]) (next_promise w) (settlements w).

Definition generateUUID (w : World) : UUID * World :=
  (next_uuid w, mkWorld (S (next_uuid w)) (calls w) (next_promise w) (settlements w)).

(** ** KnapsackRectangle *)

Module KnapsackRectangle.

(** The centre getters, used by [clipContext] only, are left out. *)
Record t : Type := mk {
  left : Z;
  top : Z;
  right : Z;
  bottom : Z
}.

Definition new (left top right bottom : num) : t :=
  mk (floor_finite left) (floor_finite top) (floor_finite right) (floor_finite bottom).

Definition width (r : t) : Z := right r - left r.

Definition height (r : t) : Z := bottom r - top r.

End KnapsackRectangle.

(** ** KnapsackNode *)

Module KnapsackNode.

Import KnapsackRectangle.

(** A node object.  [leftChild] and [rightChild] are assigned together, once,
    when the node is split, so a node is a [Leaf] (both [null]) or a
    [Branch]; both carry [rectangle], [imageID] and [_texture]. *)
Inductive t : Type :=
| Leaf (rectangle : KnapsackRectangle.t) (imageID : option UUID)
       (_texture : option Texture)
| Branch (rectangle : KnapsackRectangle.t) (imageID : option UUID)
         (_texture : option Texture) (leftChild rightChild : t).

Definition rectangle (n : t) : KnapsackRectangle.t :=
  match n with Leaf r _ _ | Branch r _ _ _ _ => r end.

Definition imageID (n : t) : option UUID :=
  match n with Leaf _ i _ | Branch _ i _ _ _ => i end.

Definition _texture (n : t) : option Texture :=
  match n with Leaf _ _ x | Branch _ _ x _ _ => x end.

Definition set_rectangle (r : KnapsackRectangle.t) (n : t) : t :=
  match n with
  | Leaf _ i x => Leaf r i x
  | Branch _ i x a b => Branch r i x a b
  end.

Definition set_imageID (i : option UUID) (n : t) : t :=
  match n with
  | Leaf r _ x => Leaf r i x
  | Branch r _ x a b => Branch r i x a b
  end.

Definition set_texture (x : option Texture) (n : t) : t :=
  match n with
  | Leaf r i _ => Leaf r i x
  | Branch r i _ a b => Branch r i x a b
  end.

(** [new KnapsackNode( knapsack )], with [textureSize] the knapsack's. *)
Definition new (textureSize : Z) : t :=
  Leaf (KnapsackRectangle.new (Int 0) (Int 0) (Int textureSize) (Int textureSize))
       None None.

Definition width (n : t) : Z := KnapsackRectangle.width (rectangle n).

Definition height (n : t) : Z := KnapsackRectangle.height (rectangle n).

Definition hasChildren (n : t) : bool :=
  match n with Leaf _ _ _ => false | Branch _ _ _ _ _ => true end.

Definition isOccupied (n : t) : bool :=
  match imageID n with Some _ => true | None => false end.

Definition uvCoordinates (textureSize : Z) (n : t) : list Q :=
  let size := inject_Z textureSize in
  [ (inject_Z (left (rectangle n)) / size)%Q;
    (1 - inject_Z (bottom (rectangle n)) / size)%Q;
    (inject_Z (right (rectangle n)) / size)%Q;
    (1 - inject_Z (top (rectangle n)) / size)%Q ].

(** The getter [texture]: the texture and the node, which now caches it. *)
Definition texture (textureSize : Z) (n : t) : Texture * t :=
  match _texture n with
  | Some x => (x, n)
  | None =>
      let uvs := uvCoordinates textureSize n in
      let x := mkTexture (nth 0 uvs 0%Q) (nth 1 uvs 0%Q)
                         (nth 2 uvs 0%Q - nth 0 uvs 0%Q)%Q
                         (nth 3 uvs 0%Q - nth 1 uvs 0%Q)%Q in
      (x, set_texture (Some x) n)
  end.

Definition clear (n : t) (w : World) : World :=
  log (ClearRect (left (rectangle n)) (top (rectangle n))
                 (width n - 1) (height n - 1)) w.

Definition release (n : t) (w : World) : Completion t * World :=
  if hasChildren n then (Abrupt StillHasChildren, w)
  else
    let w1 := match _texture n with
              | Some x => log (Dispose x) w
              | None => w
              end in
    let n1 := set_texture None n in
    let w2 := clear n1 w1 in
    (Normal (set_imageID None n1), w2).

Definition claim (debug : bool) (n : t) (w : World) : t * World :=
  let (id, w1) := generateUUID w in
  let n1 := set_imageID (Some id) n in
  if debug then
    (n1, log (StrokeRect 2 "rgba( 0, 0, 255, 1 )"
                (inject_Z (left (rectangle n1)) + (1 # 2))%Q
                (inject_Z (top (rectangle n1)) + (1 # 2))%Q
                (inject_Z (width n1 - 1)) (inject_Z (height n1 - 1))) w1)
  else (n1, w1).

(** The node object at a position below [n]. *)
Fixpoint node_at (p : list Dir) (n : t) : option t :=
  match p, n with
  | [], _ => Some n
  | L :: q, Branch _ _ _ a _ => node_at q a
  | R :: q, Branch _ _ _ _ b => node_at q b
  | _ :: _, Leaf _ _ _ => None
  end.

(** A method call on the node object at a position below [n]. *)
Fixpoint claim_at (debug : bool) (p : list Dir) (n : t) (w : World) : t * World :=
  match p, n with
  | [], _ => claim debug n w
  | L :: q, Branch r i x a b =>
      let (a', w') := claim_at debug q a w in (Branch r i x a' b, w')
  | R :: q, Branch r i x a b =>
      let (b', w') := claim_at debug q b w in (Branch r i x a b', w')
  | _ :: _, Leaf _ _ _ => (n, w)
  end.

Fixpoint release_at (p : list Dir) (n : t) (w : World) : Completion t * World :=
  match p, n with
  | [], _ => release n w
  | L :: q, Branch r i x a b =>
      match release_at q a w with
      | (Normal a', w') => (Normal (Branch r i x a' b), w')
      | (Abrupt e, w') => (Abrupt e, w')
      end
  | R :: q, Branch r i x a b =>
      match release_at q b w with
      | (Normal b', w') => (Normal (Branch r i x a b'), w')
      | (Abrupt e, w') => (Abrupt e, w')
      end
  | _ :: _, Leaf _ _ _ => (Normal n, w)
  end.

(** What [allocate] hands back: a node, [null], or the stack ran out. *)
Inductive Allocation (ref : Type) : Type :=
| Found (r : ref)
| NotFound
| Exhausted.
Arguments Found {ref} r.
Arguments NotFound {ref}.
Arguments Exhausted {ref}.

Definition below {A B : Type} (f : A -> B) (a : Allocation A) : Allocation B :=
  match a with
  | Found p => Found (f p)
  | NotFound => NotFound
  | Exhausted => Exhausted
  end.

(** The two rectangles of a split. *)
Definition split (r : KnapsackRectangle.t) (width height : num)
  : KnapsackRectangle.t * KnapsackRectangle.t :=
  let remainingWidth := sub (Int (KnapsackRectangle.width r)) width in
  let remainingHeight := sub (Int (KnapsackRectangle.height r)) height in
  if gt remainingWidth remainingHeight then
    (KnapsackRectangle.new (Int (left r)) (Int (top r))
                           (add (Int (left r)) width) (Int (bottom r)),
     KnapsackRectangle.new (add (Int (left r)) width) (Int (top r))
                           (Int (right r)) (Int (bottom r)))
  else
    (KnapsackRectangle.new (Int (left r)) (Int (top r))
                           (Int (right r)) (add (Int (top r)) height),
     KnapsackRectangle.new (Int (left r)) (add (Int (top r)) height)
                           (Int (right r)) (Int (bottom r))).

(** The outlines painted after a split when [debug] is set. *)
Definition paint_split (a b : t) (w : World) : World :=
  let stroke style n :=
    StrokeRect 4 style (inject_Z (left (rectangle n))) (inject_Z (top (rectangle n)))
               (inject_Z (width n)) (inject_Z (height n)) in
  log (stroke "rgba(0,255,0,1)"%string b) (log (stroke "rgba(255,0,0,1)"%string a) w).

Fixpoint allocate (stack : nat) (debug : bool) (textureSize : Z)
         (width height : num) (this : t) (w : World)
  : t * World * Allocation (list Dir) :=
  match stack with
  | O => (this, w, Exhausted)
  | S stack' =>
      match this with
      | Branch r i x a b =>
          match allocate stack' debug textureSize width height a w with
          | (a', w', Found p) =>
              let (a'', w'') := claim_at debug p a' w' in
              (Branch r i x a'' b, w'', Found (L :: p))
          | (a', w', NotFound) =>
              match allocate stack' debug textureSize width height b w' with
              | (b', w'', res) => (Branch r i x a' b', w'', below (cons R) res)
              end
          | (a', w', Exhausted) => (Branch r i x a' b, w', Exhausted)
          end
      | Leaf r i x =>
          if isOccupied this then (this, w, NotFound)
          else if gt width (Int (KnapsackNode.width this))
                  || gt height (Int (KnapsackNode.height this))
          then (this, w, NotFound)
          else if strict_eq width (Int (KnapsackNode.width this))
                  && strict_eq height (Int (KnapsackNode.height this))
          then let (this', w') := claim debug this w in (this', w', Found [])
          else
            let (rl, rr) := split r width height in
            let leftChild := set_rectangle rl (new textureSize) in
            let rightChild := set_rectangle rr (new textureSize) in
            let w1 := if debug then paint_split leftChild rightChild w else w in
            match allocate stack' debug textureSize width height leftChild w1 with
            | (a', w', res) => (Branch r i x a' rightChild, w', below (cons L) res)
            end
      end
  end.

End KnapsackNode.

Import KnapsackNode(Allocation, Found, NotFound, Exhausted).

(** ** Knapsack *)

Module Knapsack.

(** The canvas and the root texture, built on first use, are the
    collaborators' and are left out, as is [textureLoaded]. *)
Record t : Type := mk {
  textureSize : Z;
  rootNode : KnapsackNode.t
}.

Definition new (size : Z) : t := mk size (KnapsackNode.new size).

Definition allocateNode (stack : nat) (debug : bool) (width height : num)
           (k : t) (w : World) : t * World * Allocation (list Dir) :=
  match KnapsackNode.allocate stack debug (textureSize k) width height (rootNode k) w with
  | (root, w', res) => (mk (textureSize k) root, w', res)
  end.

End Knapsack.

(** ** Promises *)

Definition new_promise (w : World) : PromiseId * World :=
  (next_promise w,
   mkWorld (next_uuid w) (calls w) (S (next_promise w)) (settlements w)).

Definition settled (p : PromiseId) (w : World) : option Settlement :=
  match find (fun e => Nat.eqb (fst e) p) (settlements w) with
  | Some e => Some (snd e)
  | None => None
  end.

(** [resolve( )] or [reject( )] of promise [p]; a settled promise stays as it is. *)
Definition settle (p : PromiseId) (s : Settlement) (w : World) : World :=
  match settled p w with
  | Some _ => w
  | None => mkWorld (next_uuid w) (calls w) (next_promise w) (settlements w ++ [(p, s)])
  end.

(** ** TextureManager *)

Module TextureManager.

Record QueueEntry : Type := mkEntry {
  promise : PromiseId;   (* with its [resolve] and [reject] *)
  width : num;
  height : num
}.

Record t : Type := mk {
  size : Z;
  knapsacks : list Knapsack.t;
  debug : bool;
  _queue : option (list QueueEntry)   (* [None]: not an array yet *)
}.

Definition set_knapsacks (ks : list Knapsack.t) (tm : t) : t :=
  mk (size tm) ks (debug tm) (_queue tm).

Definition set_queue (q : option (list QueueEntry)) (tm : t) : t :=
  mk (size tm) (knapsacks tm) (debug tm) q.

Definition set_debug (d : bool) (tm : t) : t :=
  mk (size tm) (knapsacks tm) d (_queue tm).

Definition sizes : list Z := [128; 256; 512; 1024; 2048; 4096; 8192; 16384].

(** [new TextureManager( size )]; [None] is an argument that is not a number. *)
Definition new (size : option num) : t :=
  mk (match size with
      | Some (Int z) => if existsb (Z.eqb z) sizes then z else 1024
      | _ => 1024
      end) [] false None.

Definition textureSize (tm : t) : Z := size tm.

Definition _addKnapsack (size : Z) (tm : t) (w : World) : Knapsack.t * t * World :=
  let knapsack := Knapsack.new size in
  let tm1 := set_knapsacks (knapsacks tm ++ [knapsack]) tm in
  let w1 := if debug tm
            then log (ConsoleLog (textureSize tm1) (List.length (knapsacks tm1))) w
            else w in
  (knapsack, tm1, w1).

Definition _validateSize (width height : num) (tm : t) : Completion unit :=
  if gt width (Int (textureSize tm)) then Abrupt (WidthTooLarge width)
  else if gt height (Int (textureSize tm)) then Abrupt (HeightTooLarge height)
  else Normal tt.

(** The [forEach] of [_allocate] over the knapsacks from index [i] on, while
    [node] is still [null]. *)
Fixpoint scan (stack : nat) (debug : bool) (width height : num) (i : nat)
         (ks : list Knapsack.t) (w : World)
  : list Knapsack.t * World * Allocation NodeRef :=
  match ks with
  | [] => ([], w, NotFound)
  | k :: rest =>
      match Knapsack.allocateNode stack debug width height k w with
      | (k', w', Found p) => (k' :: rest, w', Found (mkRef i p))
      | (k', w', NotFound) =>
          match scan stack debug width height (S i) rest w' with
          | (rest', w'', res) => (k' :: rest', w'', res)
          end
      | (k', w', Exhausted) => (k' :: rest, w', Exhausted)
      end
  end.

Definition _allocate (stack : nat) (width height : num) (tm : t) (w : World)
  : Completion (option NodeRef) * t * World :=
  match scan stack (debug tm) width height 0 (knapsacks tm) w with
  | (ks, w1, Found r) => (Normal (Some r), set_knapsacks ks tm, w1)
  | (ks, w1, Exhausted) => (Abrupt StackExhausted, set_knapsacks ks tm, w1)
  | (ks, w1, NotFound) =>
      match _addKnapsack (textureSize tm) (set_knapsacks ks tm) w1 with
      | (knapsack, tm1, w2) =>
          (* [knapsack] is the object just pushed, the last of [knapsacks] *)
          match Knapsack.allocateNode stack (debug tm) width height knapsack w2 with
          | (knapsack', w3, res) =>
              let tm2 := set_knapsacks (ks ++ [knapsack']) tm1 in
              match res with
              | Found p => (Normal (Some (mkRef (List.length ks) p)), tm2, w3)
              | NotFound => (Normal None, tm2, w3)
              | Exhausted => (Abrupt StackExhausted, tm2, w3)
              end
          end
      end
  end.

Definition allocate (stack : nat) (width height : num) (tm : t) (w : World)
  : Completion (option NodeRef) * t * World :=
  match _validateSize width height tm with
  | Abrupt e => (Abrupt e, tm, w)
  | Normal _ => _allocate stack width height tm w
  end.

Definition allocateNode (stack : nat) (width height : num) (tm : t) (w : World)
  : Completion PromiseId * t * World :=
  let (p, w0) := new_promise w in
  match _validateSize width height tm with
  | Abrupt error => (Normal p, tm, settle p (Rejected error) w0)
  | Normal _ =>
      match _allocate stack width height tm w0 with
      | (Normal node, tm', w') => (Normal p, tm', settle p (Resolved node) w')
      | (Abrupt error, tm', w') => (Normal p, tm', settle p (Rejected error) w')
      end
  end.

Definition allocateASync (width height : num) (tm : t) (w : World)
  : Completion PromiseId * t * World :=
  let tm1 := match _queue tm with
             | Some _ => tm
             | None => set_queue (Some []) tm
             end in
  let (p, w0) := new_promise w in
  match _validateSize width height tm1 with
  | Normal _ =>
      let queueEntry := mkEntry p width height in
      (Normal p,
       set_queue (Some (match _queue tm1 with Some q => q | None => [] end
                        ++ [queueEntry])) tm1,
       w0)
  | Abrupt error => (Normal p, tm1, settle p (Rejected error) w0)
  end.

(** The [forEach] of [solveASync] over the queue. *)
Fixpoint drain (stack : nat) (queue : list QueueEntry) (promises : list PromiseId)
         (tm : t) (w : World) : Completion (list PromiseId) * t * World :=
  match queue with
  | [] => (Normal promises, tm, w)
  | entry :: rest =>
      match _allocate stack (width entry) (height entry) tm w with
      | (Normal node, tm', w') =>
          drain stack rest (promises ++ [promise entry]) tm'
                (settle (promise entry) (Resolved node) w')
      | (Abrupt e, tm', w') => (Abrupt e, tm', w')
      end
  end.

(** [solveASync]: the value returned is [Promise.all( promises )], given by
    the promises it waits for. *)
Definition solveASync (stack : nat) (tm : t) (w : World)
  : Completion (list PromiseId) * t * World :=
  match _queue tm with
  | None => (Abrupt QueueNotSetUp, tm, w)
  | Some queue =>
      match drain stack queue [] tm w with
      | (Normal promises, tm', w') => (Normal promises, set_queue (Some []) tm', w')
      | (Abrupt e, tm', w') => (Abrupt e, tm', w')
      end
  end.

Fixpoint set_nth {A : Type} (i : nat) (a : A) (l : list A) : list A :=
  match l, i with
  | [], _ => []
  | _ :: r, O => a :: r
  | x :: r, S j => x :: set_nth j a r
  end.

(** [release( node )]; [None] is a falsy argument.  A reference handed out
    by this manager always finds its node. *)
Definition release (node : option NodeRef) (tm : t) (w : World)
  : Completion unit * t * World :=
  match node with
  | None => (Normal tt, tm, w)
  | Some ref =>
      match nth_error (knapsacks tm) (knapsack_index ref) with
      | None => (Normal tt, tm, w)
      | Some k =>
          match KnapsackNode.release_at (path ref) (Knapsack.rootNode k) w with
          | (Normal root, w') =>
              (Normal tt,
               set_knapsacks (set_nth (knapsack_index ref)
                                      (Knapsack.mk (Knapsack.textureSize k) root)
                                      (knapsacks tm)) tm,
               w')
          | (Abrupt e, w') => (Abrupt e, tm, w')
          end
      end
  end.

(** The node object behind a reference. *)
Definition node (ref : NodeRef) (tm : t) : option KnapsackNode.t :=
  match nth_error (knapsacks tm) (knapsack_index ref) with
  | Some k => KnapsackNode.node_at (path ref) (Knapsack.rootNode k)
  | None => None
  end.

End TextureManager.

(** ** Notions the statements use *)

Module Tree.

Import KnapsackNode.

(** Longest chain of child links below a node. *)
Fixpoint depth (n : t) : nat :=
  match n with
  | Leaf _ _ _ => 0%nat
  | Branch _ _ _ a b => S (Nat.max (depth a) (depth b))
  end.

(** The node at position [p] below [n] replaced by [m]. *)
Fixpoint replace_at (p : list Dir) (m : t) (n : t) : t :=
  match p, n with
  | [], _ => m
  | L :: q, Branch r i x a b => Branch r i x (replace_at q m a) b
  | R :: q, Branch r i x a b => Branch r i x a (replace_at q m b)
  | _ :: _, Leaf _ _ _ => n
  end.

(** How many times the path [p] goes to a left child from a node that is a
    branch in [n]. *)
Fixpoint left_turns (n : t) (p : list Dir) : nat :=
  match n, p with
  | Branch _ _ _ a _, L :: q => S (left_turns a q)
  | Branch _ _ _ _ b, R :: q => left_turns b q
  | _, _ => 0%nat
  end.

(** The pixel [(x, y)] lies in the rectangle. *)
Definition inside (r : KnapsackRectangle.t) (x y : Z) : Prop :=
  KnapsackRectangle.left r <= x < KnapsackRectangle.right r /\
  KnapsackRectangle.top r <= y < KnapsackRectangle.bottom r.

(** [a] and [b] cover [r] exactly and share no pixel. *)
Definition partitions (r a b : KnapsackRectangle.t) : Prop :=
  forall x y,
    (inside r x y <-> inside a x y \/ inside b x y) /\
    ~ (inside a x y /\ inside b x y).

(** Every branch is free and is partitioned by its two children. *)
Fixpoint branches_ok (n : t) : Prop :=
  match n with
  | Leaf _ _ _ => True
  | Branch r i _ a b =>
      i = None /\ partitions r (rectangle a) (rectangle b) /\
      branches_ok a /\ branches_ok b
  end.

(** [n'] is [n] later on: every node of [n] is still there with its
    rectangle, and every branch of [n] still has the same two children. *)
Fixpoint persists (n n' : t) : Prop :=
  match n with
  | Leaf r _ _ => rectangle n' = r
  | Branch r _ _ a b =>
      match n' with
      | Branch r' _ _ a' b' => r' = r /\ persists a a' /\ persists b b'
      | Leaf _ _ _ => False
      end
  end.

(** Number of dimensions in which the rectangle differs from the request. *)
Definition mismatches (width height : Z) (r : KnapsackRectangle.t) : nat :=
  (if width =? KnapsackRectangle.width r then 0%nat else 1%nat) +
  (if height =? KnapsackRectangle.height r then 0%nat else 1%nat).

(** Number of texture disposals among the calls made. *)
Definition disposals (w : World) : nat :=
  List.length (filter (fun c => match c with Dispose _ => true | _ => false end)
                      (calls w)).

(** The knapsack answers [null] to the request. *)
Definition no_room (stack : nat) (debug : bool) (width height : num) (w : World)
           (k : Knapsack.t) : bool :=
  match Knapsack.allocateNode stack debug width height k w with
  | (_, _, NotFound) => true
  | _ => false
  end.

(** The call stack is three frames deeper than every tree of the manager. *)
Definition enough_stack (stack : nat) (tm : TextureManager.t) : Prop :=
  (3 <= stack)%nat /\
  Forall (fun k => (depth (Knapsack.rootNode k) + 3 <= stack)%nat)
         (TextureManager.knapsacks tm).

End Tree.

(** ** Client programs: calls made on one manager, one after the other *)

Module Client.

Import TextureManager.

Inductive Op : Type :=
| Allocate (width height : num)
| AllocateNode (width height : num)
| AllocateASync (width height : num)
| SolveASync
| Release (node : option NodeRef)
| SetDebug (flag : bool).

(** One call; an error thrown is caught by the client. *)
Definition exec (stack : nat) (op : Op) (s : t * World) : t * World :=
  let (tm, w) := s in
  match op with
  | Allocate width height =>
      match allocate stack width height tm w with (_, tm', w') => (tm', w') end
  | AllocateNode width height =>
      match allocateNode stack width height tm w with (_, tm', w') => (tm', w') end
  | AllocateASync width height =>
      match allocateASync width height tm w with (_, tm', w') => (tm', w') end
  | SolveASync =>
      match solveASync stack tm w with (_, tm', w') => (tm', w') end
  | Release node =>
      match release node tm w with (_, tm', w') => (tm', w') end
  | SetDebug flag => (set_debug flag tm, w)
  end.

Definition run (stack : nat) (ops : list Op) (s : t * World) : t * World :=
  fold_left (fun s op => exec stack op s) ops s.

(** The states a client sees: the one it starts in and the one after each call. *)
Fixpoint states (stack : nat) (ops : list Op) (s : t * World) : list (t * World) :=
  match ops with
  | [] => [s]
  | op :: rest => s :: states stack rest (exec stack op s)
  end.

(** The queue holds a request. *)
Definition queued (s : t * World) : bool :=
  match _queue (fst s) with
  | Some (_ :: _) => true
  | _ => false
  end.

(** Some call of the program queued a request. *)
Definition ever_queued (stack : nat) (ops : list Op) (s : t * World) : bool :=
  existsb queued (states stack ops s).

Definition is_allocateASync (op : Op) : bool :=
  match op with AllocateASync _ _ => true | _ => false end.

(** Every size the program asks for is a positive integer. *)
Definition positive (a : num) : Prop :=
  match a with Int z => 0 < z | NaN => False end.

Definition positive_sizes (op : Op) : Prop :=
  match op with
  | Allocate w h | AllocateNode w h | AllocateASync w h => positive w /\ positive h
  | _ => True
  end.

End Client.

Module Scenario.

(** A manager of 1024 pixel textures in which one sprite of 100 by 50 pixels
    has been allocated. *)
Definition fresh : TextureManager.t * World :=
  (TextureManager.new (Some (Int 1024)), World0).

Definition one_sprite : TextureManager.t * World :=
  Client.exec 8 (Client.Allocate (Int 100) (Int 50)) fresh.

Definition one_sprite_root : KnapsackNode.t :=
  match TextureManager.knapsacks (fst one_sprite) with
  | k :: _ => Knapsack.rootNode k
  | [] => KnapsackNode.new 1024
  end.


Definition three_queued : TextureManager.t * World :=
  Client.run 8 [ Client.AllocateASync (Int 50) (Int 50);
                 Client.AllocateASync (Int 10) (Int 10);
                 Client.AllocateASync (Int 100) (Int 100) ] fresh.

End Scenario.

Module Conditions.
(** Every promise settled so far was created before. *)
Definition fresh_promises (w : World) : Prop :=
  forall p s, In (p, s) (settlements w) -> (p < next_promise w)%nat.

(** A size that is zero, negative or not a number. *)
Definition low (a : num) : Prop :=
  match a with Int z => z <= 0 | NaN => True end.
End Conditions.

Module Batch.

Import TextureManager.

(** The world with its promises replaced: the next one to create and the
    record of settlements. *)
Definition with_promises (np : PromiseId) (l : list (PromiseId * Settlement))
           (w : World) : World :=
  mkWorld (next_uuid w) (calls w) np l.

(** The world with the record of settlements replaced. *)
Definition with_settlements (l : list (PromiseId * Settlement)) (w : World) : World :=
  with_promises (next_promise w) l w.

(** The requests allocated one after the other, in the order given: the
    nodes obtained until a call throws, how the last call ended, and the
    manager and the world left behind. *)
Fixpoint allocate_all (stack : nat) (requests : list (num * num)) (tm : t) (w : World)
  : list (option NodeRef) * Completion unit * t * World :=
  match requests with
  | [] => ([], Normal tt, tm, w)
  | (width, height) :: rest =>
      match _allocate stack width height tm w with
      | (Normal node, tm', w') =>
          match allocate_all stack rest tm' w' with
          | (nodes, c, tm'', w'') => (node :: nodes, c, tm'', w'')
          end
      | (Abrupt e, tm', w') => ([], Abrupt e, tm', w')
      end
  end.

Definition request (entry : QueueEntry) : num * num := (width entry, height entry).

(** The promises of the queue are distinct and none is settled. *)
Definition pending (queue : list QueueEntry) (w : World) : Prop :=
  NoDup (map promise queue) /\
  forall entry, In entry queue -> settled (promise entry) w = None.

End Batch.

Module Surfaces.

Import Tree.

(** Every branch of every knapsack is free and partitioned by its children. *)
Definition branches_ok (tm : TextureManager.t) : Prop :=
  Forall (fun k => Tree.branches_ok (Knapsack.rootNode k)) (TextureManager.knapsacks tm).

(** The knapsacks [ks] later on: each is still there, at its index, with its
    tree persisting; knapsacks may have been added behind them. *)
Fixpoint persist (ks ks' : list Knapsack.t) : Prop :=
  match ks, ks' with
  | [], _ => True
  | k :: rest, k' :: rest' =>
      Knapsack.textureSize k' = Knapsack.textureSize k /\
      persists (Knapsack.rootNode k) (Knapsack.rootNode k') /\
      persist rest rest'
  | _ :: _, [] => False
  end.

(** The sizes waiting in the queue are positive integers. *)
Definition queue_positive (tm : TextureManager.t) : Prop :=
  forall queue, TextureManager._queue tm = Some queue ->
    Forall (fun entry => Client.positive (TextureManager.width entry) /\
                         Client.positive (TextureManager.height entry)) queue.

End Surfaces.

Module Programs.

Import Client.

(** Two sprites allocated, the first released, its place taken again. *)
Definition reuse : list Op :=
  [ Allocate (Int 100) (Int 50);
    Allocate (Int 10) (Int 10);
    Release (Some (mkRef 0 [L; L]));
    Allocate (Int 100) (Int 50) ].

(** A release of a branch, which throws, and further allocations, one of
    them deferred. *)
Definition further : list Op :=
  [ Release (Some (mkRef 0 [L]));
    Allocate (Int 1024) (Int 1024);
    AllocateASync (Int 30) (Int 70);
    SolveASync ].

End Programs.

Module Headroom.

Import Tree.



End Headroom.

Module Promises.

Import Conditions Batch.

(** The promises of a state are in order: every promise settled or queued
    was created before, and the queued ones are distinct and wait. *)
Definition in_order (s : TextureManager.t * World) : Prop :=
  fresh_promises (snd s) /\
  forall queue, TextureManager._queue (fst s) = Some queue ->
    pending queue (snd s) /\
    forall entry, In entry queue ->
      (TextureManager.promise entry < next_promise (snd s))%nat.

(** No [solveASync] of the program runs out of stack. *)
Fixpoint no_exhaustion (stack : nat) (ops : list Client.Op)
         (s : TextureManager.t * World) : Prop :=
  match ops with
  | [] => True
  | op :: rest =>
      (op = Client.SolveASync ->
       fst (fst (TextureManager.solveASync stack (fst s) (snd s)))
         <> Abrupt StackExhausted) /\
      no_exhaustion stack rest (Client.exec stack op s)
  end.

End Promises.

Module Sizes.

(** The manager has one of the accepted sizes and each of its knapsacks is a
    square of that size. *)
Definition well_sized (tm : TextureManager.t) : Prop :=
  In (TextureManager.size tm) TextureManager.sizes /\
  Forall (fun k =>
            Knapsack.textureSize k = TextureManager.size tm /\
            KnapsackNode.rectangle (Knapsack.rootNode k)
              = KnapsackRectangle.mk 0 0 (TextureManager.size tm) (TextureManager.size tm))
         (TextureManager.knapsacks tm).

End Sizes.

Module Debug.

(** Two worlds that agree on everything but the calls made on the canvas,
    the textures and the console. *)
Definition same_ids (w1 w2 : World) : Prop :=
  next_uuid w1 = next_uuid w2 /\ next_promise w1 = next_promise w2 /\
  settlements w1 = settlements w2.

(** Two states that differ in the [debug] flag and in those calls at most. *)
Definition same_packing (s1 s2 : TextureManager.t * World) : Prop :=
  TextureManager.size (fst s1) = TextureManager.size (fst s2) /\
  TextureManager.knapsacks (fst s1) = TextureManager.knapsacks (fst s2) /\
  TextureManager._queue (fst s1) = TextureManager._queue (fst s2) /\
  same_ids (snd s1) (snd s2).

Definition is_setDebug (op : Client.Op) : bool :=
  match op with Client.SetDebug _ => true | _ => false end.

End Debug.

Module Deferred.

(** The queue entries of the requests [rs], the first with promise [np]. *)
Fixpoint entries (np : PromiseId) (rs : list (num * num)) : list TextureManager.QueueEntry :=
  match rs with
  | [] => []
  | (width, height) :: rest => TextureManager.mkEntry np width height :: entries (S np) rest
  end.




End Deferred.

Module Bounds.

Import KnapsackNode.

(** The rectangle has its sides in order and lies on a canvas of [size]
    pixels each way. *)
Definition within (size : Z) (r : KnapsackRectangle.t) : Prop :=
  0 <= KnapsackRectangle.left r <= KnapsackRectangle.right r /\
  KnapsackRectangle.right r <= size /\
  0 <= KnapsackRectangle.top r <= KnapsackRectangle.bottom r /\
  KnapsackRectangle.bottom r <= size.

(** The rectangle holds a pixel. *)
Definition nonempty (r : KnapsackRectangle.t) : Prop :=
  KnapsackRectangle.left r < KnapsackRectangle.right r /\
  KnapsackRectangle.top r < KnapsackRectangle.bottom r.

(** Every node of the tree lies on the canvas, and every node in use holds
    a pixel. *)
Fixpoint bounded (size : Z) (n : t) : Prop :=
  match n with
  | Leaf r i _ => within size r /\ (i <> None -> nonempty r)
  | Branch r i _ a b =>
      within size r /\ (i <> None -> nonempty r) /\ bounded size a /\ bounded size b
  end.

Definition all_bounded (tm : TextureManager.t) : Prop :=
  Forall (fun k => bounded (Knapsack.textureSize k) (Knapsack.rootNode k))
         (TextureManager.knapsacks tm).

(** The window of the texture lies in the unit square. *)
Definition in_unit_square (x : Texture) : Prop :=
  (0 <= offset_x x /\ 0 <= repeat_x x /\ offset_x x + repeat_x x <= 1 /\
   0 <= offset_y x /\ 0 <= repeat_y x /\ offset_y x + repeat_y x <= 1)%Q.

End Bounds.

Module Drawing.

Import KnapsackRectangle.


(** The getters [Xcentre] and [Ycentre] of a rectangle. *)
Definition Xcentre (r : KnapsackRectangle.t) : Q :=
  inject_Z (Qfloor (inject_Z (right r - left r) / 2 + inject_Z (left r))) - (1 # 2).

Definition Ycentre (r : KnapsackRectangle.t) : Q :=
  inject_Z (Qfloor (inject_Z (bottom r - top r) / 2 + inject_Z (top r))) - (1 # 2).



End Drawing.

Module Pixels.

(** The pixels of the rectangle [rect( x0, y0, w, h )] of the canvas; a
    negative width or height extends to the left or upwards. *)
Definition covers (x0 y0 w h : Z) (x y : Z) : Prop :=
  Z.min x0 (x0 + w) <= x < Z.max x0 (x0 + w) /\
  Z.min y0 (y0 + h) <= y < Z.max y0 (y0 + h).

(** The call erases the pixel. *)
Definition cleared (c : Call) (x y : Z) : Prop :=
  match c with
  | ClearRect x0 y0 w h => covers x0 y0 w h x y
  | _ => False
  end.


(** The pixel belongs to no leaf of the knapsack of [ref] but the one of
    [ref]. *)
Definition of_no_other_leaf (tm : TextureManager.t) (ref : NodeRef) (x y : Z) : Prop :=
  forall other m,
    knapsack_index other = knapsack_index ref -> path other <> path ref ->
    TextureManager.node other tm = Some m -> KnapsackNode.hasChildren m = false ->
    ~ Tree.inside (KnapsackNode.rectangle m) x y.



End Pixels.

Module Lazy.

(** The canvas elements and the master textures are the collaborators': the
    n-th canvas created is canvas [n], with the size it was given, and the
    n-th texture built is texture [n], over the canvas it was given. *)
Record Canvas : Type := mkCanvas {
  element : nat;
  canvas_width : Z;
  canvas_height : Z
}.

Record RootTexture : Type := mkRootTexture {
  texture_number : nat;
  image : Canvas
}.

(** What has been created so far: [document.createElement( `canvas` )] and
    [new THREE.Texture( ... )]. *)
Record Document : Type := mkDocument {
  elements : nat;
  textures : nat
}.

(** The fields of a [Knapsack] that are built on first use, on their own:
    the tree of the knapsack plays no part in them. *)
Record t : Type := mk {
  textureSize : Z;
  _rootTexture : option RootTexture;
  _canvas : option Canvas
}.

(** The two fields as the constructor leaves them. *)
Definition new (size : Z) : t := mk size None None.

(** The getter [canvas]. *)
Definition canvas (k : t) (d : Document) : Canvas * t * Document :=
  match _canvas k with
  | Some c => (c, k, d)
  | None =>
      let c := mkCanvas (elements d) (textureSize k) (textureSize k) in
      (c, mk (textureSize k) (_rootTexture k) (Some c),
       mkDocument (S (elements d)) (textures d))
  end.

(** The getter [rootTexture]. *)
Definition rootTexture (k : t) (d : Document) : RootTexture * t * Document :=
  match _rootTexture k with
  | Some x => (x, k, d)
  | None =>
      let '(c, k1, d1) := canvas k d in
      let x := mkRootTexture (textures d1) c in
      (x, mk (textureSize k1) (Some x) (_canvas k1),
       mkDocument (elements d1) (S (textures d1)))
  end.

(** Reads of the two getters, one after the other, and what they give. *)
Inductive Read : Type := ReadCanvas | ReadRootTexture.

Inductive Got : Type :=
| GotCanvas (c : Canvas)
| GotRootTexture (x : RootTexture).

Fixpoint reads (rs : list Read) (k : t) (d : Document) : list Got * t * Document :=
  match rs with
  | [] => ([], k, d)
  | ReadCanvas :: rest =>
      let '(c, k1, d1) := canvas k d in
      let '(gs, k2, d2) := reads rest k1 d1 in
      (GotCanvas c :: gs, k2, d2)
  | ReadRootTexture :: rest =>
      let '(x, k1, d1) := rootTexture k d in
      let '(gs, k2, d2) := reads rest k1 d1 in
      (GotRootTexture x :: gs, k2, d2)
  end.

Definition is_ReadRootTexture (r : Read) : bool :=
  match r with ReadRootTexture => true | ReadCanvas => false end.

(** The read gave the canvas [c], or a texture [x]. *)
Definition gave (c : Canvas) (x : RootTexture) (g : Got) : Prop :=
  match g with
  | GotCanvas c' => c' = c
  | GotRootTexture x' => x' = x
  end.

End Lazy.

Module Ids.

Import KnapsackNode.

Definition id_of (i : option UUID) : list UUID :=
  match i with Some u => [u] | None => [] end.

(** The identifiers of the nodes in use of a tree, and of a manager. *)
Fixpoint ids (n : t) : list UUID :=
  match n with
  | Leaf _ i _ => id_of i
  | Branch _ i _ a b => id_of i ++ ids a ++ ids b
  end.

Definition all_ids (tm : TextureManager.t) : list UUID :=
  flat_map (fun k => ids (Knapsack.rootNode k)) (TextureManager.knapsacks tm).

(** No identifier is in use twice, and each one is one that
    [generateUUID] has given. *)
Definition unique (s : TextureManager.t * World) : Prop :=
  NoDup (all_ids (fst s)) /\
  Forall (fun u => (u < next_uuid (snd s))%nat) (all_ids (fst s)).

End Ids.

Module Painting.




End Painting.

Module Centre.

(** The middle of the pixel [x], which covers the coordinates from [x] to
    [x + 1], as [Tree.inside] and [Pixels.covers] have it. *)
Definition middle (x : Z) : Q := inject_Z x + (1 # 2).

(** The pixel the getters point at: the one before the pixel halfway. *)
Definition Xpixel (r : KnapsackRectangle.t) : Z :=
  (KnapsackRectangle.left r + KnapsackRectangle.right r) / 2 - 1.

Definition Ypixel (r : KnapsackRectangle.t) : Z :=
  (KnapsackRectangle.top r + KnapsackRectangle.bottom r) / 2 - 1.

End Centre.

Module Stalled.

(** Three requests queued on a fresh manager of 1024 pixel textures, the
    second with a width that is not a number. *)
Definition requests : list Client.Op :=
  [ Client.AllocateASync (Int 10) (Int 10);
    Client.AllocateASync NaN (Int 5);
    Client.AllocateASync (Int 20) (Int 20) ].

Definition queued : TextureManager.t * World := Client.run 8 requests Scenario.fresh.

Definition entries : list TextureManager.QueueEntry :=
  [ TextureManager.mkEntry 0%nat (Int 10) (Int 10);
    TextureManager.mkEntry 1%nat NaN (Int 5);
    TextureManager.mkEntry 2%nat (Int 20) (Int 20) ].

End Stalled.

(** * Facts about the node tree *)

Section NodeFacts.

Import KnapsackNode Tree.

Lemma claim_node d n w : fst (claim d n w) = set_imageID (Some (next_uuid w)) n.
Proof. unfold claim; simpl; destruct d; reflexivity. Qed.

Lemma claim_next_uuid d n w : next_uuid (snd (claim d n w)) = S (next_uuid w).
Proof. unfold claim; simpl; destruct d; reflexivity. Qed.

Lemma claim_at_replace d p : forall n w m,
  node_at p n = Some m ->
  claim_at d p n w = (replace_at p (fst (claim d m w)) n, snd (claim d m w)).
Proof.
  induction p as [|[|] q IH]; intros n w m H; simpl in *.
  - inversion H; subst. destruct (claim d m w); reflexivity.
  - destruct n; [discriminate|]. rewrite (IH _ _ _ H). reflexivity.
  - destruct n; [discriminate|]. rewrite (IH _ _ _ H). reflexivity.
Qed.

Lemma node_at_replace p : forall n m k,
  node_at p n = Some k -> node_at p (replace_at p m n) = Some m.
Proof.
  induction p as [|[|] q IH]; intros n m k H; simpl in *; auto;
    destruct n; try discriminate; simpl; eauto.
Qed.

(** A node handed back is a leaf of exactly the size asked for, and holds the
    identifier generated last. *)
Lemma allocate_found stack d sz width height : forall this w this' w' p,
  allocate stack d sz width height this w = (this', w', Found p) ->
  exists n,
    node_at p this' = Some n /\ hasChildren n = false /\
    strict_eq width (Int (KnapsackNode.width n)) = true /\
    strict_eq height (Int (KnapsackNode.height n)) = true /\
    imageID n = Some (pred (next_uuid w')).
Proof.
  induction stack as [|stack IH]; intros this w this' w' p H; simpl in H.
  - discriminate.
  - destruct this as [r i x|r i x a b].
    + destruct (isOccupied (Leaf r i x)); [discriminate|].
      destruct (gt width _ || gt height _); [discriminate|].
      destruct (strict_eq width _ && strict_eq height _) eqn:Eex.
      * pose proof (claim_node d (Leaf r i x) w) as Hn.
        pose proof (claim_next_uuid d (Leaf r i x) w) as Hu.
        destruct (claim d (Leaf r i x) w) as [n1 w1]; simpl in Hn, Hu.
        inversion H; subst; clear H.
        apply andb_prop in Eex as [E1 E2].
        eexists; split; [reflexivity|]. simpl. rewrite Hu. auto.
      * destruct (split r width height) as [rl rr].
        match type of H with context [allocate stack d sz width height ?t ?w0] =>
          destruct (allocate stack d sz width height t w0) as [[a' w2] res] eqn:E end.
        destruct res; inversion H; subst; clear H.
        apply IH in E as (n & ? & ?). exists n; auto.
    + destruct (allocate stack d sz width height a w) as [[a' w1] res] eqn:E.
      destruct res as [q| |].
      * apply IH in E as (n & Hat & Hleaf & Hw & Hh & _).
        rewrite (claim_at_replace _ _ _ _ _ Hat) in H.
        inversion H; subst; clear H. simpl.
        rewrite (node_at_replace _ _ _ _ Hat).
        eexists; split; [reflexivity|].
        rewrite claim_node, claim_next_uuid.
        destruct n; simpl in *; try discriminate; auto.
      * destruct (allocate stack d sz width height b w1) as [[b' w2] res] eqn:E2.
        destruct res; inversion H; subst; clear H.
        apply IH in E2 as (n & ? & ?). exists n; auto.
      * discriminate.
Qed.


Lemma strict_eq_Int a b : strict_eq (Int a) (Int b) = true <-> a = b.
Proof. simpl. apply Z.eqb_eq. Qed.

(** The first rectangle of a split still has room for the request. *)
Lemma split_left_room r width height :
  gt width (Int (KnapsackRectangle.width r)) = false ->
  gt height (Int (KnapsackRectangle.height r)) = false ->
  gt width (Int (KnapsackRectangle.width (fst (split r width height)))) = false /\
  gt height (Int (KnapsackRectangle.height (fst (split r width height)))) = false.
Proof.
  unfold split, KnapsackRectangle.width, KnapsackRectangle.height.
  destruct r as [l t rg b]; destruct width as [wd|], height as [ht|]; simpl;
    intros Hw Hh; try (split; [assumption || reflexivity | assumption || reflexivity]).
  - destruct (b - t - ht <? rg - l - wd); simpl; rewrite Z.ltb_ge in *; lia.
  - split; [reflexivity|]. rewrite Z.ltb_ge in *. lia.
Qed.

(** A free leaf with room for the request never answers [null]. *)
Lemma free_leaf_not_null stack d sz width height : forall r x w this' w',
  gt width (Int (KnapsackRectangle.width r)) = false ->
  gt height (Int (KnapsackRectangle.height r)) = false ->
  allocate stack d sz width height (Leaf r None x) w <> (this', w', NotFound).
Proof.
  induction stack as [|stack IH]; intros r x w this' w' Hw Hh H; simpl in H.
  - discriminate.
  - unfold KnapsackNode.width, KnapsackNode.height in H; simpl in H.
    rewrite Hw, Hh in H; simpl in H.
    destruct (strict_eq width _ && strict_eq height _).
    + destruct (claim d (Leaf r None x) w); discriminate.
    + destruct (split_left_room r width height Hw Hh) as [Hw' Hh'].
      destruct (split r width height) as [rl rr]; simpl in Hw', Hh'.
      match type of H with context [allocate stack d sz width height ?t ?w0] =>
        destruct (allocate stack d sz width height t w0) as [[a' w2] res] eqn:E end.
      destruct res; try discriminate.
      exact (IH _ _ _ _ _ Hw' Hh' E).
Qed.

(** An allocation that answers [null] has changed nothing. *)
Lemma allocate_null_same stack d sz width height : forall this w this' w',
  allocate stack d sz width height this w = (this', w', NotFound) ->
  this' = this /\ w' = w.
Proof.
  induction stack as [|stack IH]; intros this w this' w' H; simpl in H.
  - discriminate.
  - destruct this as [r i x|r i x a b].
    + destruct i as [u|]; simpl in H; [inversion H; auto|].
      unfold KnapsackNode.width, KnapsackNode.height in H; simpl in H.
      destruct (gt width _) eqn:Hw; simpl in H; [inversion H; auto|].
      destruct (gt height _) eqn:Hh; simpl in H; [inversion H; auto|].
      destruct (strict_eq width _ && strict_eq height _).
      * destruct (claim d (Leaf r None x) w); discriminate.
      * destruct (split_left_room r width height Hw Hh) as [Hw' Hh'].
        destruct (split r width height) as [rl rr]; simpl in Hw', Hh'.
        match type of H with context [allocate stack d sz width height ?t ?w0] =>
          destruct (allocate stack d sz width height t w0) as [[a' w2] res] eqn:E end.
        destruct res; try discriminate.
        exfalso. exact (free_leaf_not_null _ _ _ _ _ _ _ _ _ _ Hw' Hh' E).
    + destruct (allocate stack d sz width height a w) as [[a' w1] res] eqn:E.
      destruct res as [q| |]; try discriminate.
      * destruct (claim_at d q a' w1); discriminate.
      * destruct (allocate stack d sz width height b w1) as [[b' w2] res] eqn:E2.
        destruct res; try discriminate.
        inversion H; subst; clear H.
        apply IH in E as [-> ->]. apply IH in E2 as [-> ->]. auto.
Qed.

(** A free leaf with room hands back a node, given one frame of stack more
    than there are dimensions to cut. *)
Lemma free_leaf_found stack d sz width height : forall r x w,
  width <= KnapsackRectangle.width r ->
  height <= KnapsackRectangle.height r ->
  (mismatches width height r < stack)%nat ->
  exists this' w' p,
    allocate stack d sz (Int width) (Int height) (Leaf r None x) w = (this', w', Found p).
Proof.
  induction stack as [|stack IH]; intros r x w Hw Hh Hm; [lia|].
  simpl. unfold KnapsackNode.width, KnapsackNode.height; simpl.
  destruct (Z.ltb_spec (KnapsackRectangle.width r) width); [lia|].
  destruct (Z.ltb_spec (KnapsackRectangle.height r) height); [lia|]. simpl.
  unfold mismatches in Hm.
  destruct (Z.eqb_spec width (KnapsackRectangle.width r)) as [Ew|Ew];
    destruct (Z.eqb_spec height (KnapsackRectangle.height r)) as [Eh|Eh]; simpl.
  1: destruct (claim d (Leaf r None x) w); eauto.
  all: unfold split; simpl;
    destruct (Z.ltb_spec (KnapsackRectangle.height r - height)
                         (KnapsackRectangle.width r - width)); try lia;
    match goal with |- context [allocate _ _ _ _ _ (Leaf ?rl None None) ?w0] =>
      destruct (IH rl None w0) as (t1 & w1 & p1 & E) end;
    try (rewrite E; simpl; do 3 eexists; reflexivity);
    unfold mismatches, KnapsackRectangle.new, KnapsackRectangle.width,
      KnapsackRectangle.height in *; simpl in *;
    repeat match goal with |- context [?a =? ?b] => destruct (Z.eqb_spec a b) end;
    simpl in *; try lia.
Qed.

(** With three frames of stack more than the tree is deep, an allocation of
    integer sizes does not exhaust the stack. *)
Lemma allocate_not_exhausted d sz width height : forall this stack w this' w',
  (depth this + 3 <= stack)%nat ->
  allocate stack d sz (Int width) (Int height) this w <> (this', w', Exhausted).
Proof.
  induction this as [r i x|r i x a IHa b IHb]; intros stack w this' w' Hs H.
  - destruct stack as [|stack]; [simpl in Hs; lia|]. simpl in Hs.
    destruct i as [u|]; [simpl in H; discriminate|].
    destruct (Z.ltb_spec (KnapsackRectangle.width r) width) as [Hw|Hw].
    { simpl in H. unfold KnapsackNode.width in H; simpl in H.
      apply Z.ltb_lt in Hw. rewrite Hw in H. discriminate. }
    destruct (Z.ltb_spec (KnapsackRectangle.height r) height) as [Hh|Hh].
    { simpl in H. unfold KnapsackNode.height in H; simpl in H.
      apply Z.ltb_lt in Hh. rewrite Hh, orb_true_r in H. discriminate. }
    destruct (free_leaf_found (S stack) d sz width height r x w Hw Hh) as (t1 & w1 & p1 & E).
    { unfold mismatches. destruct (_ =? _), (_ =? _); simpl; lia. }
    rewrite E in H. discriminate.
  - destruct stack as [|stack]; [simpl in Hs; lia|]. simpl in Hs, H.
    destruct (allocate stack d sz (Int width) (Int height) a w) as [[a' w1] res] eqn:E.
    destruct res as [q| |].
    + destruct (claim_at d q a' w1); discriminate.
    + destruct (allocate stack d sz (Int width) (Int height) b w1) as [[b' w2] res] eqn:E2.
      destruct res; try discriminate. apply IHb in E2; [auto|lia].
    + apply IHa in E; [auto|lia].
Qed.

(** Identifiers generated by one allocation that hands back a node. *)
Lemma allocate_claims stack d sz width height : forall this w this' w' p,
  allocate stack d sz width height this w = (this', w', Found p) ->
  next_uuid w' = (next_uuid w + 1 + left_turns this p)%nat.
Proof.
  induction stack as [|stack IH]; intros this w this' w' p H; simpl in H.
  - discriminate.
  - destruct this as [r i x|r i x a b].
    + destruct (isOccupied (Leaf r i x)); [discriminate|].
      destruct (gt width _ || gt height _); [discriminate|].
      destruct (strict_eq width _ && strict_eq height _).
      * pose proof (claim_next_uuid d (Leaf r i x) w) as Hu.
        destruct (claim d (Leaf r i x) w) as [n1 w1]; simpl in Hu.
        inversion H; subst; clear H. simpl. lia.
      * destruct (split r width height) as [rl rr].
        match type of H with context [allocate stack d sz width height ?t ?w0] =>
          destruct (allocate stack d sz width height t w0) as [[a' w2] res] eqn:E end.
        destruct res; inversion H; subst; clear H.
        apply IH in E. simpl in *. destruct d; simpl in E; lia.
    + destruct (allocate stack d sz width height a w) as [[a' w1] res] eqn:E.
      destruct res as [q| |].
      * pose proof (allocate_found _ _ _ _ _ _ _ _ _ _ E) as (n & Hat & _).
        rewrite (claim_at_replace _ _ _ _ _ Hat) in H.
        inversion H; subst; clear H. simpl.
        rewrite claim_next_uuid. apply IH in E. lia.
      * destruct (allocate stack d sz width height b w1) as [[b' w2] res] eqn:E2.
        destruct res; inversion H; subst; clear H.
        apply allocate_null_same in E as [_ ->].
        apply IH in E2. simpl. lia.
      * discriminate.
Qed.

End NodeFacts.

(** * Facts about the manager *)

Section ManagerFacts.

Import KnapsackNode Tree.

Variables (stack : nat) (d : bool) (width height : num).

Lemma allocateNode_null_same k w k' w' :
  Knapsack.allocateNode stack d width height k w = (k', w', NotFound) ->
  k' = k /\ w' = w.
Proof.
  unfold Knapsack.allocateNode.
  destruct (allocate _ _ _ _ _ _ _) as [[root w1] res] eqn:E.
  intros H; inversion H; subst; clear H.
  apply allocate_null_same in E as [-> ->]. destruct k; auto.
Qed.

(** What the scan of the knapsacks does: it stops at the first knapsack that
    does not answer [null], and the ones before it are left as they were. *)
Lemma scan_spec : forall ks i w,
  match TextureManager.scan stack d width height i ks w with
  | (ks', w', NotFound) => ks' = ks /\ w' = w /\ forallb (no_room stack d width height w) ks = true
  | (ks', w', res) =>
      exists pre k post k' res0,
        ks = pre ++ k :: post /\ ks' = pre ++ k' :: post /\
        forallb (no_room stack d width height w) pre = true /\ no_room stack d width height w k = false /\
        Knapsack.allocateNode stack d width height k w = (k', w', res0) /\
        res = below (mkRef (i + List.length pre)) res0
  end.
Proof.
  induction ks as [|k rest IH]; intros i w; simpl.
  - auto.
  - destruct (Knapsack.allocateNode stack d width height k w) as [[k' w1] res] eqn:E.
    destruct res as [p| |].
    + exists [], k, rest, k', (Found p). simpl. unfold Tree.no_room. rewrite E.
      rewrite Nat.add_0_r. repeat split; auto.
    + apply allocateNode_null_same in E as E'. destruct E' as [-> ->].
      specialize (IH (S i) w).
      destruct (TextureManager.scan stack d width height (S i) rest w) as [[rest' w2] res].
      assert (Hk : no_room stack d width height w k = true) by (unfold Tree.no_room; rewrite E; reflexivity).
      destruct res as [r| |].
      * destruct IH as (pre & k0 & post & k0' & res0 & -> & -> & Hpre & Hk0 & Ha & Hr).
        exists (k :: pre), k0, post, k0', res0. simpl. rewrite Hk, Hpre.
        rewrite Nat.add_succ_r. repeat split; auto.
      * destruct IH as (-> & -> & Hall). rewrite Hk, Hall. auto.
      * destruct IH as (pre & k0 & post & k0' & res0 & -> & -> & Hpre & Hk0 & Ha & Hr).
        exists (k :: pre), k0, post, k0', res0. simpl. rewrite Hk, Hpre.
        rewrite Nat.add_succ_r. repeat split; auto.
    + exists [], k, rest, k', Exhausted. simpl. unfold Tree.no_room. rewrite E.
      repeat split; auto.
Qed.


Lemma claim_at_rectangle p : forall n w,
  rectangle (fst (claim_at d p n w)) = rectangle n.
Proof.
  induction p as [|[|] q IH]; intros n w; simpl.
  - rewrite claim_node. destruct n; reflexivity.
  - destruct n; [reflexivity|]. destruct (claim_at d q n1 w). reflexivity.
  - destruct n; [reflexivity|]. destruct (claim_at d q n2 w). reflexivity.
Qed.

Lemma allocate_rectangle sz this w :
  rectangle (fst (fst (allocate stack d sz width height this w))) = rectangle this.
Proof.
  destruct stack as [|s]; [reflexivity|]. simpl.
  destruct this as [r i x|r i x a b].
  - destruct (isOccupied _); [reflexivity|].
    destruct (_ || _); [reflexivity|].
    destruct (_ && _).
    + pose proof (claim_node d (Leaf r i x) w).
      destruct (claim d (Leaf r i x) w); simpl in *; subst; reflexivity.
    + destruct (split r width height).
      destruct (allocate s _ _ _ _ _ _) as [[? ?] ?]. reflexivity.
  - destruct (allocate s d sz width height a w) as [[a' w1] [q| |]].
    + destruct (claim_at d q a' w1). reflexivity.
    + destruct (allocate s d sz width height b w1) as [[? ?] ?]. reflexivity.
    + reflexivity.
Qed.

End ManagerFacts.

Section AllocateExact.

Import KnapsackNode Tree.

(** C1: with sizes from 1 up to the texture size, [allocate] hands back a
    leaf of exactly the width and height asked for; when every knapsack
    answers [null], one knapsack of the configured size is added and the node
    comes from it, and otherwise no knapsack is added. *)
Theorem allocate_exact_size stack tm wd w h :
  enough_stack stack tm ->
  1 <= w <= TextureManager.textureSize tm ->
  1 <= h <= TextureManager.textureSize tm ->
  exists ref tm' wd' n,
    TextureManager.allocate stack (Int w) (Int h) tm wd = (Normal (Some ref), tm', wd') /\
    TextureManager.node ref tm' = Some n /\
    KnapsackNode.width n = w /\ KnapsackNode.height n = h /\
    hasChildren n = false /\ isOccupied n = true /\
    if forallb (no_room stack (TextureManager.debug tm) (Int w) (Int h) wd)
               (TextureManager.knapsacks tm)
    then exists k,
        TextureManager.knapsacks tm' = TextureManager.knapsacks tm ++ [k] /\
        knapsack_index ref = List.length (TextureManager.knapsacks tm) /\
        Knapsack.textureSize k = TextureManager.textureSize tm /\
        rectangle (Knapsack.rootNode k) =
          KnapsackRectangle.mk 0 0 (TextureManager.textureSize tm)
                               (TextureManager.textureSize tm)
    else List.length (TextureManager.knapsacks tm') =
           List.length (TextureManager.knapsacks tm) /\
         (knapsack_index ref < List.length (TextureManager.knapsacks tm))%nat.
Proof.
  intros [Hs3 Hdepth] Hw Hh.
  unfold TextureManager.allocate, TextureManager._validateSize.
  destruct (Z.ltb_spec (TextureManager.textureSize tm) w) as [|_]; [lia|].
  destruct (Z.ltb_spec (TextureManager.textureSize tm) h) as [|_]; [lia|].
  simpl. rewrite (proj2 (Z.ltb_ge _ _)) by lia. rewrite (proj2 (Z.ltb_ge _ _)) by lia.
  unfold TextureManager._allocate.
  pose proof (scan_spec stack (TextureManager.debug tm) (Int w) (Int h)
                        (TextureManager.knapsacks tm) 0%nat wd) as Hscan.
  destruct (TextureManager.scan _ _ _ _ _ _ _) as [[ks w1] res].
  assert (Hfound : forall k k' w' p,
    Knapsack.allocateNode stack (TextureManager.debug tm) (Int w) (Int h) k wd
      = (k', w', Found p) ->
    exists n, node_at p (Knapsack.rootNode k') = Some n /\
      KnapsackNode.width n = w /\ KnapsackNode.height n = h /\
      hasChildren n = false /\ isOccupied n = true).
  { intros k k' w' p. unfold Knapsack.allocateNode.
    destruct (allocate _ _ _ _ _ _ _) as [[root w2] res2] eqn:E.
    intros H; inversion H; subst; clear H.
    apply allocate_found in E as (n & Hat & Hleaf & Ew & Eh & Hid).
    exists n. simpl. apply strict_eq_Int in Ew, Eh. unfold isOccupied. rewrite Hid. auto. }
  destruct res as [r| |].
  - destruct Hscan as (pre & k & post & k' & res0 & Hks & -> & Hpre & Hk & Ha & Hr).
    destruct res0 as [p| |]; try discriminate. simpl in Hr. inversion Hr; subst r; clear Hr.
    destruct (Hfound _ _ _ _ Ha) as (n & Hat & ?).
    exists (mkRef (List.length pre) p), (TextureManager.set_knapsacks (pre ++ k' :: post) tm), w1, n.
    split; [reflexivity|]. split.
    { unfold TextureManager.node; simpl. rewrite nth_error_app2 by lia.
      rewrite Nat.sub_diag. simpl. exact Hat. }
    repeat (split; [tauto|]).
    rewrite Hks, forallb_app. simpl. rewrite Hk, andb_false_r. simpl.
    rewrite !length_app. simpl. lia.
  - destruct Hscan as (-> & -> & Hall). rewrite Hall.
    unfold TextureManager._addKnapsack; simpl.
    match goal with |- context [Knapsack.allocateNode ?s ?dd ?a ?b ?k ?w0] =>
      destruct (Knapsack.allocateNode s dd a b k w0) as [[k' w3] res3] eqn:E end.
    assert (Hres : exists p, res3 = Found p /\
              exists n, node_at p (Knapsack.rootNode k') = Some n /\
                KnapsackNode.width n = w /\ KnapsackNode.height n = h /\
                hasChildren n = false /\ isOccupied n = true).
    { revert E. unfold Knapsack.allocateNode, Knapsack.new, KnapsackNode.new. simpl.
      match goal with |- context [allocate ?s ?dd ?sz ?a ?b (Leaf ?r None None) ?w0] =>
        destruct (free_leaf_found s dd sz w h r None w0) as (t1 & w4 & p & E);
          [simpl; unfold KnapsackRectangle.width; simpl; lia
          |simpl; unfold KnapsackRectangle.height; simpl; lia
          |unfold mismatches; destruct (_ =? _), (_ =? _); simpl; lia|] end.
      rewrite E. intros H; inversion H; subst; clear H.
      exists p. split; [reflexivity|].
      apply allocate_found in E as (n & Hat & Hleaf & Ew & Eh & Hid).
      exists n. simpl. apply strict_eq_Int in Ew, Eh. unfold isOccupied. rewrite Hid. auto. }
    destruct Hres as (p & -> & n & Hat & Hn).
    exists (mkRef (List.length (TextureManager.knapsacks tm)) p).
    eexists; exists w3, n. split; [reflexivity|]. split.
    { unfold TextureManager.node; simpl. rewrite nth_error_app2 by lia.
      rewrite Nat.sub_diag. simpl. exact Hat. }
    repeat (split; [tauto|]).
    exists k'. simpl. repeat split.
    + revert E. unfold Knapsack.allocateNode. destruct (allocate _ _ _ _ _ _ _) as [[? ?] ?].
      intros H; inversion H; reflexivity.
    + revert E. unfold Knapsack.allocateNode.
      match goal with |- context [allocate ?s ?dd ?sz ?a ?b ?t ?w0] =>
        pose proof (allocate_rectangle s dd a b sz t w0) as Hr;
        destruct (allocate s dd sz a b t w0) as [[? ?] ?] end.
      intros H; inversion H; subst; simpl in *. exact Hr.
  - exfalso.
    destruct Hscan as (pre & k & post & k' & res0 & Hks & -> & Hpre & Hk & Ha & Hr).
    destruct res0; try discriminate.
    rewrite Hks in Hdepth. apply Forall_app in Hdepth as [_ Hd].
    inversion Hd; subst. revert Ha. unfold Knapsack.allocateNode.
    destruct (allocate _ _ _ _ _ _ _) as [[root w2] res2] eqn:E.
    intros H; inversion H; subst; clear H.
    eapply allocate_not_exhausted; eauto.
Qed.

End AllocateExact.

(** * Claiming and splitting *)


Section ClaimAndSplit.

Import KnapsackNode Tree.

(** C2, amended: an allocation that hands back a node generates one
    identifier when the leaf is accepted and one more in every branch that
    was there before the call and got the node from its left child; the leaf
    keeps the identifier generated last. *)
Theorem claims_of_an_allocation stack d sz width height this w this' w' p :
  allocate stack d sz width height this w = (this', w', Found p) ->
  next_uuid w' = (next_uuid w + 1 + left_turns this p)%nat /\
  exists n, node_at p this' = Some n /\ hasChildren n = false /\
            imageID n = Some (pred (next_uuid w')).
Proof.
  intros H. split.
  - exact (allocate_claims _ _ _ _ _ _ _ _ _ _ H).
  - destruct (allocate_found _ _ _ _ _ _ _ _ _ _ H) as (n & ? & ? & _ & _ & ?).
    exists n; auto.
Qed.

Lemma claims_of_an_allocation_witness :
  next_uuid (snd (fst (allocate 8 false 1024 (Int 10) (Int 10)
                                Scenario.one_sprite_root (snd Scenario.one_sprite))))
  = (next_uuid (snd Scenario.one_sprite) + 1
     + left_turns Scenario.one_sprite_root [L; R; L; L])%nat /\
  exists n,
    node_at [L; R; L; L]
      (fst (fst (allocate 8 false 1024 (Int 10) (Int 10)
                          Scenario.one_sprite_root (snd Scenario.one_sprite))))
      = Some n /\
    hasChildren n = false /\
    imageID n = Some (pred (next_uuid (snd (fst
      (allocate 8 false 1024 (Int 10) (Int 10)
                Scenario.one_sprite_root (snd Scenario.one_sprite)))))).
Proof.
  apply (claims_of_an_allocation 8 false 1024 (Int 10) (Int 10)
           Scenario.one_sprite_root (snd Scenario.one_sprite)).
  vm_compute. reflexivity.
Defined.

(** C2 as stated fails: the second allocation on a fresh manager assigns two
    identifiers to the leaf it returns, the second one in the root node. *)
Lemma second_allocation_claims_twice :
  exists tm' w',
    TextureManager.allocate 8 (Int 10) (Int 10)
       (fst Scenario.one_sprite) (snd Scenario.one_sprite)
      = (Normal (Some (mkRef 0 [L; R; L; L])), tm', w') /\
    next_uuid (snd Scenario.one_sprite) = 1%nat /\
    next_uuid w' = 3%nat /\
    (exists n, TextureManager.node (mkRef 0 [L; R; L; L]) tm' = Some n /\
               imageID n = Some 2%nat).
Proof.
  do 2 eexists. split; [vm_compute; reflexivity|].
  split; [reflexivity|]. split; [reflexivity|].
  eexists. split; vm_compute; reflexivity.
Qed.

(** C7: a free leaf with room that is not an exact fit gets two children,
    cut across the width when more width than height is left over and across
    the height otherwise, and the allocation goes on in the first child. *)
Theorem split_of_a_free_leaf (stack : nat) (d : bool) (sz w h : Z)
        (r : KnapsackRectangle.t) (x : option Texture) (wd : World) :
  w <= KnapsackRectangle.width r ->
  h <= KnapsackRectangle.height r ->
  ~ (w = KnapsackRectangle.width r /\ h = KnapsackRectangle.height r) ->
  let wider := KnapsackRectangle.width r - w >? KnapsackRectangle.height r - h in
  let first :=
    if wider
    then KnapsackRectangle.mk (KnapsackRectangle.left r) (KnapsackRectangle.top r)
           (KnapsackRectangle.left r + w) (KnapsackRectangle.bottom r)
    else KnapsackRectangle.mk (KnapsackRectangle.left r) (KnapsackRectangle.top r)
           (KnapsackRectangle.right r) (KnapsackRectangle.top r + h) in
  let second :=
    if wider
    then KnapsackRectangle.mk (KnapsackRectangle.left r + w) (KnapsackRectangle.top r)
           (KnapsackRectangle.right r) (KnapsackRectangle.bottom r)
    else KnapsackRectangle.mk (KnapsackRectangle.left r) (KnapsackRectangle.top r + h)
           (KnapsackRectangle.right r) (KnapsackRectangle.bottom r) in
  let painted :=
    if d then paint_split (Leaf first None None) (Leaf second None None) wd else wd in
  allocate (S stack) d sz (Int w) (Int h) (Leaf r None x) wd =
    match allocate stack d sz (Int w) (Int h) (Leaf first None None) painted with
    | (a, wd', res) => (Branch r None x a (Leaf second None None), wd', below (cons L) res)
    end.
Proof.
  intros Hw Hh Hne. simpl.
  unfold KnapsackNode.width, KnapsackNode.height; simpl.
  rewrite (proj2 (Z.ltb_ge _ _) Hw), (proj2 (Z.ltb_ge _ _) Hh). simpl.
  assert (Hex : (w =? KnapsackRectangle.width r) && (h =? KnapsackRectangle.height r) = false).
  { apply andb_false_iff.
    destruct (Z.eqb_spec w (KnapsackRectangle.width r)); [|auto].
    destruct (Z.eqb_spec h (KnapsackRectangle.height r)); [tauto|auto]. }
  rewrite Hex. unfold split. simpl. rewrite Z.gtb_ltb.
  destruct (_ - _ <? _ - _); reflexivity.
Qed.

Lemma split_of_a_free_leaf_witness :
  allocate 3 false 1024 (Int 100) (Int 50)
           (Leaf (KnapsackRectangle.mk 0 0 1024 1024) None None) World0 =
    match allocate 2 false 1024 (Int 100) (Int 50)
                   (Leaf (KnapsackRectangle.mk 0 0 1024 50) None None) World0 with
    | (a, wd', res) =>
        (Branch (KnapsackRectangle.mk 0 0 1024 1024) None None a
                (Leaf (KnapsackRectangle.mk 0 50 1024 1024) None None),
         wd', below (cons L) res)
    end.
Proof.
  apply (split_of_a_free_leaf 2 false 1024 100 50
           (KnapsackRectangle.mk 0 0 1024 1024) None World0).
  - vm_compute. discriminate.
  - vm_compute. discriminate.
  - vm_compute. intros [H _]. discriminate.
Defined.

End ClaimAndSplit.

(** * Size validation *)


Section SizeValidation.

Import KnapsackNode Tree Conditions.

Lemma settled_fresh w : fresh_promises w -> settled (next_promise w) w = None.
Proof.
  unfold fresh_promises, settled. intros H.
  match goal with |- context [find ?f ?l] =>
    destruct (find f l) as [[p s]|] eqn:E end; [|reflexivity].
  apply find_some in E as [Hin Hp]. simpl in Hp. apply Nat.eqb_eq in Hp. subst.
  apply H in Hin. lia.
Qed.

Lemma find_snoc (p : nat) (s : Settlement) : forall l : list (nat * Settlement),
  find (fun e => Nat.eqb (fst e) p) l = None ->
  find (fun e => Nat.eqb (fst e) p) (l ++ [(p, s)]) = Some (p, s).
Proof.
  induction l as [|a l IH]; simpl.
  - rewrite Nat.eqb_refl. reflexivity.
  - match goal with |- context [if ?c then _ else _] => destruct c end;
      [intros H; discriminate H|auto].
Qed.

Lemma settled_settle p s w : settled p w = None -> settled p (settle p s w) = Some s.
Proof.
  intros H. unfold settle. rewrite H. revert H. unfold settled. simpl.
  match goal with |- context [find ?f (settlements w)] =>
    destruct (find f (settlements w)) eqn:E end; [intros H; discriminate H|]. intros _.
  pose proof (find_snoc p s _ E) as E'. unfold PromiseId in *.
  rewrite E'. reflexivity.
Qed.

(** C3: a width or height above the texture size makes [allocate] throw the
    size error and [allocateNode] reject its promise with it; the manager,
    its knapsacks included, is left as it was. *)
Theorem oversize_request_is_refused stack width height tm wd :
  gt width (Int (TextureManager.textureSize tm)) = true \/
  gt height (Int (TextureManager.textureSize tm)) = true ->
  fresh_promises wd ->
  exists e,
    (e = WidthTooLarge width \/ e = HeightTooLarge height) /\
    TextureManager.allocate stack width height tm wd = (Abrupt e, tm, wd) /\
    exists wd',
      TextureManager.allocateNode stack width height tm wd
        = (Normal (next_promise wd), tm, wd') /\
      settled (next_promise wd) wd' = Some (Rejected e) /\
      next_uuid wd' = next_uuid wd /\ calls wd' = calls wd.
Proof.
  intros Hbig Hfresh.
  assert (He : exists e, (e = WidthTooLarge width \/ e = HeightTooLarge height) /\
                         TextureManager._validateSize width height tm = Abrupt e).
  { unfold TextureManager._validateSize.
    destruct (gt width _) eqn:Ew; [eauto|].
    destruct Hbig as [Hb|Hb]; [discriminate|]. rewrite Hb. eauto. }
  destruct He as (e & He & Hv). exists e. split; [exact He|].
  unfold TextureManager.allocate, TextureManager.allocateNode. rewrite Hv. simpl.
  split; [reflexivity|].
  eexists. split; [reflexivity|].
  split; [|split].
  - apply (settled_settle (next_promise wd)). unfold settled; simpl.
    apply settled_fresh in Hfresh. exact Hfresh.
  - unfold settle. destruct (settled _ _); reflexivity.
  - unfold settle. destruct (settled _ _); reflexivity.
Qed.

Lemma oversize_request_is_refused_witness :
  exists e,
    (e = WidthTooLarge (Int 2000) \/ e = HeightTooLarge (Int 10)) /\
    TextureManager.allocate 8 (Int 2000) (Int 10) (TextureManager.new None) World0
      = (Abrupt e, TextureManager.new None, World0) /\
    exists wd',
      TextureManager.allocateNode 8 (Int 2000) (Int 10) (TextureManager.new None) World0
        = (Normal (next_promise World0), TextureManager.new None, wd') /\
      settled (next_promise World0) wd' = Some (Rejected e) /\
      next_uuid wd' = next_uuid World0 /\ calls wd' = calls World0.
Proof.
  apply (oversize_request_is_refused 8 (Int 2000) (Int 10) (TextureManager.new None) World0).
  - left. reflexivity.
  - intros p s H. simpl in H. contradiction.
Defined.

(** C10: the size check has an upper bound only.  It passes exactly when
    neither size is above the texture size; sizes that are zero, negative
    or not a number are never above it, and the call goes on to allocate, to
    settle the promise with the allocation, or to queue the request. *)
Theorem size_validation_has_no_lower_bound width height tm :
  In (TextureManager.size tm) TextureManager.sizes ->
  (TextureManager._validateSize width height tm = Normal tt <->
     gt width (Int (TextureManager.textureSize tm)) = false /\
     gt height (Int (TextureManager.textureSize tm)) = false) /\
  (forall e, TextureManager._validateSize width height tm = Abrupt e ->
     (e = WidthTooLarge width /\ gt width (Int (TextureManager.textureSize tm)) = true) \/
     (e = HeightTooLarge height /\ gt height (Int (TextureManager.textureSize tm)) = true)) /\
  (low width -> low height ->
   TextureManager._validateSize width height tm = Normal tt /\
   forall stack wd,
     TextureManager.allocate stack width height tm wd
       = TextureManager._allocate stack width height tm wd /\
     TextureManager.allocateNode stack width height tm wd
       = (let (p, w0) := new_promise wd in
          match TextureManager._allocate stack width height tm w0 with
          | (Normal node, tm', w') => (Normal p, tm', settle p (Resolved node) w')
          | (Abrupt error, tm', w') => (Normal p, tm', settle p (Rejected error) w')
          end) /\
     exists tm',
       TextureManager.allocateASync width height tm wd
         = (Normal (next_promise wd), tm', snd (new_promise wd)) /\
       TextureManager._queue tm'
         = Some (match TextureManager._queue tm with Some q => q | None => [] end
                 ++ [TextureManager.mkEntry (next_promise wd) width height])).
Proof.
  intros Hsize.
  assert (Hpos : 0 < TextureManager.textureSize tm).
  { unfold TextureManager.textureSize. revert Hsize. generalize (TextureManager.size tm).
    intros z Hz. simpl in Hz. intuition lia. }
  assert (Hlow : forall a, low a -> gt a (Int (TextureManager.textureSize tm)) = false).
  { intros [z|] Hz; simpl in *; [apply Z.ltb_ge; lia|reflexivity]. }
  split; [|split].
  - unfold TextureManager._validateSize.
    destruct (gt width _); [split; [discriminate|intros [? _]; discriminate]|].
    destruct (gt height _); [split; [discriminate|intros [_ ?]; discriminate]|].
    split; auto.
  - intros e. unfold TextureManager._validateSize.
    destruct (gt width _); [intros H; inversion H; auto|].
    destruct (gt height _); [intros H; inversion H; auto|discriminate].
  - intros Hw Hh. apply Hlow in Hw, Hh.
    assert (Hv : forall tm0, TextureManager.size tm0 = TextureManager.size tm ->
                   TextureManager._validateSize width height tm0 = Normal tt).
    { intros tm0 E. unfold TextureManager._validateSize, TextureManager.textureSize in *.
      rewrite E, Hw, Hh. reflexivity. }
    split; [apply Hv; reflexivity|].
    intros stack wd.
    unfold TextureManager.allocate, TextureManager.allocateNode, TextureManager.allocateASync.
    rewrite !Hv by (destruct (TextureManager._queue tm); reflexivity).
    split; [reflexivity|]. split; [reflexivity|].
    destruct (TextureManager._queue tm) eqn:Eq; simpl;
      (eexists; split; [reflexivity|]); simpl; rewrite ?Eq; reflexivity.
Qed.

Lemma size_validation_has_no_lower_bound_witness :
  TextureManager._validateSize NaN (Int (-3)) (TextureManager.new None) = Normal tt /\
  TextureManager.allocate 8 NaN (Int (-3)) (TextureManager.new None) World0
    = TextureManager._allocate 8 NaN (Int (-3)) (TextureManager.new None) World0.
Proof.
  destruct (size_validation_has_no_lower_bound NaN (Int (-3)) (TextureManager.new None))
    as (_ & _ & H).
  - vm_compute. tauto.
  - destruct H as [Hv Hrest].
    + exact I.
    + vm_compute. discriminate.
    + split; [exact Hv|]. exact (proj1 (Hrest 8%nat World0)).
Defined.

End SizeValidation.

(** * Textures and release *)

Section TextureAndRelease.

Import KnapsackNode Tree Conditions.

(** C8: the UV coordinates of a node and the offset and repeat of the texture
    built from them, with the rectangle (0, 0, 100, 50) on a texture of 1024
    pixels as an instance. *)
Theorem uv_coordinates_of_a_node (sz : Z) (n : KnapsackNode.t) :
  let size := inject_Z sz in
  let left := inject_Z (KnapsackRectangle.left (rectangle n)) in
  let top := inject_Z (KnapsackRectangle.top (rectangle n)) in
  let right := inject_Z (KnapsackRectangle.right (rectangle n)) in
  let bottom := inject_Z (KnapsackRectangle.bottom (rectangle n)) in
  uvCoordinates sz n
    = [ (left / size)%Q; (1 - bottom / size)%Q; (right / size)%Q; (1 - top / size)%Q ] /\
  (_texture n = None ->
     offset_x (fst (texture sz n)) = (left / size)%Q /\
     offset_y (fst (texture sz n)) = (1 - bottom / size)%Q /\
     repeat_x (fst (texture sz n)) = (right / size - left / size)%Q /\
     repeat_y (fst (texture sz n)) = ((1 - top / size) - (1 - bottom / size))%Q /\
     _texture (snd (texture sz n)) = Some (fst (texture sz n))) /\
  (forall i x,
     Forall2 Qeq
       (uvCoordinates 1024 (Leaf (KnapsackRectangle.mk 0 0 100 50) i x))
       [ 0%Q; (1 - 50 / 1024)%Q; (100 / 1024)%Q; 1%Q ]).
Proof.
  simpl. split; [reflexivity|]. split.
  - intros H. unfold texture. rewrite H. simpl.
    repeat split. destruct n; reflexivity.
  - intros i x. unfold uvCoordinates; simpl.
    repeat constructor; vm_compute; reflexivity.
Qed.

Lemma release_at_replace p : forall root n w,
  node_at p root = Some n ->
  release_at p root w =
    match release n w with
    | (Normal n', w') => (Normal (replace_at p n' root), w')
    | (Abrupt e, w') => (Abrupt e, w')
    end.
Proof.
  induction p as [|[|] q IH]; intros root n w H; simpl in *.
  - inversion H; subst. destruct (release n w) as [[?|?] ?]; reflexivity.
  - destruct root; [discriminate|]. rewrite (IH _ _ _ H).
    destruct (release n w) as [[?|?] ?]; reflexivity.
  - destruct root; [discriminate|]. rewrite (IH _ _ _ H).
    destruct (release n w) as [[?|?] ?]; reflexivity.
Qed.

Lemma nth_error_set_nth {A : Type} (a : A) : forall l i x,
  nth_error l i = Some x ->
  nth_error (TextureManager.set_nth i a l) i = Some a.
Proof.
  induction l as [|y l IH]; intros [|i] x H; simpl in *; try discriminate; eauto.
Qed.

Lemma disposals_log c w :
  disposals (log c w) =
  (disposals w + match c with Dispose _ => 1 | _ => 0 end)%nat.
Proof.
  unfold disposals, log; simpl. rewrite filter_app, length_app.
  destruct c; simpl; lia.
Qed.

(** C9: [release] throws exactly on a node with children; on a leaf it
    clears the identifier and the texture and disposes the texture if there
    was one, so that a second release disposes nothing; the manager's
    [release] does nothing for a falsy argument and otherwise is the release
    of the node referred to. *)
Theorem release_of_a_node (n : KnapsackNode.t) (wd : World) :
  (fst (release n wd) = Abrupt StillHasChildren <-> hasChildren n = true) /\
  (forall e, fst (release n wd) = Abrupt e -> hasChildren n = true) /\
  (hasChildren n = false ->
     exists n' wd',
       release n wd = (Normal n', wd') /\
       isOccupied n' = false /\ _texture n' = None /\ hasChildren n' = false /\
       rectangle n' = rectangle n /\
       disposals wd' = (disposals wd + match _texture n with Some _ => 1 | None => 0 end)%nat /\
       exists wd'',
         release n' wd' = (Normal n', wd'') /\ disposals wd'' = disposals wd') /\
  (forall tm, TextureManager.release None tm wd = (Normal tt, tm, wd)) /\
  (forall tm ref,
     TextureManager.node ref tm = Some n ->
     match release n wd with
     | (Normal n', wd') =>
         exists tm',
           TextureManager.release (Some ref) tm wd = (Normal tt, tm', wd') /\
           TextureManager.node ref tm' = Some n'
     | (Abrupt e, wd') =>
         TextureManager.release (Some ref) tm wd = (Abrupt e, tm, wd')
     end).
Proof.
  split; [|split; [|split; [|split]]].
  - unfold release. destruct (hasChildren n); simpl; split; auto; discriminate.
  - intros e. unfold release. destruct (hasChildren n); simpl; auto; discriminate.
  - intros Hleaf. destruct n as [r i x|]; [|discriminate]. unfold release; simpl.
    do 2 eexists. split; [reflexivity|]. simpl.
    repeat (split; [reflexivity|]). split.
    + unfold clear. rewrite disposals_log. destruct x; [rewrite disposals_log|]; lia.
    + eexists. split; [reflexivity|]. unfold clear. rewrite disposals_log. simpl. lia.
  - reflexivity.
  - intros tm ref Hnode. unfold TextureManager.node in Hnode.
    unfold TextureManager.release.
    destruct (nth_error (TextureManager.knapsacks tm) (knapsack_index ref)) as [k|] eqn:Ek;
      [|discriminate].
    rewrite (release_at_replace _ _ _ wd Hnode).
    destruct (release n wd) as [[n'|e] wd']; [|reflexivity].
    eexists. split; [reflexivity|].
    unfold TextureManager.node; simpl.
    rewrite (nth_error_set_nth _ _ _ _ Ek). simpl.
    exact (node_at_replace _ _ _ _ Hnode).
Qed.

End TextureAndRelease.

(** * The queue of deferred requests *)

Section QueueFacts.

Import Tree Conditions Client.

(** [_allocate] changes the knapsacks only, and throws only when the stack
    runs out. *)
Lemma _allocate_frame stack width height tm w :
  let '(c, tm', w') := TextureManager._allocate stack width height tm w in
  TextureManager.size tm' = TextureManager.size tm /\
  TextureManager.debug tm' = TextureManager.debug tm /\
  TextureManager._queue tm' = TextureManager._queue tm /\
  (forall e, c = Abrupt e -> e = StackExhausted).
Proof.
  unfold TextureManager._allocate.
  destruct (TextureManager.scan _ _ _ _ _ _ _) as [[ks w1] [r| |]]; simpl.
  - repeat split; auto. discriminate.
  - destruct (Knapsack.allocateNode _ _ _ _ _ _) as [[k' w3] [p| |]]; simpl;
      repeat split; auto; try discriminate. intros e H; inversion H; reflexivity.
  - repeat split; auto. intros e H; inversion H; reflexivity.
Qed.

Lemma drain_frame stack : forall queue promises tm w,
  let '(c, tm', w') := TextureManager.drain stack queue promises tm w in
  TextureManager.size tm' = TextureManager.size tm /\
  TextureManager.debug tm' = TextureManager.debug tm /\
  TextureManager._queue tm' = TextureManager._queue tm /\
  (forall e, c = Abrupt e -> e = StackExhausted).
Proof.
  induction queue as [|entry rest IH]; intros promises tm w; simpl.
  - repeat split; auto. discriminate.
  - pose proof (_allocate_frame stack (TextureManager.width entry)
                  (TextureManager.height entry) tm w) as Ha.
    destruct (TextureManager._allocate _ _ _ _ _) as [[[node|e] tm1] w1].
    + specialize (IH (promises ++ [TextureManager.promise entry]) tm1
                     (settle (TextureManager.promise entry) (Resolved node) w1)).
      destruct (TextureManager.drain _ _ _ _ _) as [[c tm2] w2].
      destruct Ha as (Hs & Hd & Hq & _). rewrite Hs, Hd, Hq in IH. exact IH.
    + destruct Ha as (? & ? & ? & He). repeat split; auto.
      intros e0 H'; inversion H'; subst. apply He. reflexivity.
Qed.

(** Whether the queue is an array after a call. *)
Lemma exec_queue stack op s :
  TextureManager._queue (fst (exec stack op s)) = None <->
  TextureManager._queue (fst s) = None /\ is_allocateASync op = false.
Proof.
  destruct s as [tm w]. destruct op as [a b|a b|a b| |node|flag]; simpl.
  - unfold TextureManager.allocate.
    destruct (TextureManager._validateSize a b tm); [|simpl; tauto].
    pose proof (_allocate_frame stack a b tm w) as H.
    destruct (TextureManager._allocate _ _ _ _ _) as [[c tm1] w1].
    destruct H as (_ & _ & Hq & _). simpl. rewrite Hq. tauto.
  - unfold TextureManager.allocateNode.
    destruct (TextureManager._validateSize a b tm); [|simpl; tauto].
    pose proof (_allocate_frame stack a b tm (snd (new_promise w))) as H. simpl in *.
    destruct (TextureManager._allocate _ _ _ _ _) as [[[?|?] tm1] w1];
      destruct H as (_ & _ & Hq & _); simpl; rewrite Hq; tauto.
  - unfold TextureManager.allocateASync. simpl.
    destruct (TextureManager._validateSize _ _ _); simpl.
    + split; [intros Hx; discriminate Hx|]. intros [_ H]; discriminate.
    + destruct tm as [sz ks dbg [q|]]; simpl;
        (split; [intros Hx; discriminate Hx|]); intros [_ H]; discriminate.
  - unfold TextureManager.solveASync.
    destruct (TextureManager._queue tm) as [q|] eqn:Eq; [|simpl; tauto].
    pose proof (drain_frame stack q [] tm w) as H.
    destruct (TextureManager.drain _ _ _ _ _) as [[[?|?] tm1] w1]; simpl.
    + split; [intros Hx; discriminate Hx|]. intros [H1 _]; discriminate.
    + destruct H as (_ & _ & Hq & _). rewrite Hq, Eq. tauto.
  - unfold TextureManager.release. destruct node as [ref|]; [|simpl; tauto].
    destruct (nth_error _ _); [|simpl; tauto].
    destruct (KnapsackNode.release_at _ _ _) as [[?|?] ?]; simpl; tauto.
  - tauto.
Qed.

Lemma run_queue stack : forall ops s,
  TextureManager._queue (fst (run stack ops s)) = None <->
  TextureManager._queue (fst s) = None /\ existsb is_allocateASync ops = false.
Proof.
  induction ops as [|op rest IH]; intros s; simpl.
  - tauto.
  - unfold run in *. simpl. rewrite IH, exec_queue, orb_false_iff. tauto.
Qed.

Lemma ever_queued_called stack : forall ops s,
  TextureManager._queue (fst s) = None ->
  ever_queued stack ops s = true ->
  existsb is_allocateASync ops = true.
Proof.
  unfold ever_queued.
  induction ops as [|op rest IH]; intros s Hq; simpl; unfold queued at 1; rewrite Hq; simpl.
  - discriminate.
  - intros H. destruct (is_allocateASync op) eqn:Eop; [reflexivity|]. simpl.
    apply (IH (exec stack op s)); [|exact H].
    apply exec_queue. auto.
Qed.

(** C4, amended: [solveASync] throws, and does nothing else, exactly when
    [allocateASync] was never called on the manager, whether or not a call
    queued its request; it does not throw that error once a request has been
    queued. *)
Theorem solveASync_throws_iff_never_set_up stack size ops w :
  (fst (fst (TextureManager.solveASync stack
               (fst (run stack ops (TextureManager.new size, w)))
               (snd (run stack ops (TextureManager.new size, w)))))
     = Abrupt QueueNotSetUp
   <-> existsb is_allocateASync ops = false) /\
  (existsb is_allocateASync ops = false ->
   TextureManager.solveASync stack
       (fst (run stack ops (TextureManager.new size, w)))
       (snd (run stack ops (TextureManager.new size, w)))
     = (Abrupt QueueNotSetUp,
        fst (run stack ops (TextureManager.new size, w)),
        snd (run stack ops (TextureManager.new size, w)))) /\
  (ever_queued stack ops (TextureManager.new size, w) = true ->
   fst (fst (TextureManager.solveASync stack
               (fst (run stack ops (TextureManager.new size, w)))
               (snd (run stack ops (TextureManager.new size, w)))))
     <> Abrupt QueueNotSetUp).
Proof.
  pose proof (run_queue stack ops (TextureManager.new size, w)) as Hrun.
  simpl in Hrun.
  assert (Hiff :
    fst (fst (TextureManager.solveASync stack
               (fst (run stack ops (TextureManager.new size, w)))
               (snd (run stack ops (TextureManager.new size, w)))))
      = Abrupt QueueNotSetUp
    <-> existsb is_allocateASync ops = false).
  { unfold TextureManager.solveASync.
    destruct (TextureManager._queue (fst (run stack ops (TextureManager.new size, w))))
      as [q|] eqn:Eq.
    - pose proof (drain_frame stack q [] (fst (run stack ops (TextureManager.new size, w)))
                    (snd (run stack ops (TextureManager.new size, w)))) as Hd.
      destruct (TextureManager.drain _ _ _ _ _) as [[[l|e] tm1] w1]; simpl.
      + split; [intros Hx; discriminate Hx|]. intros H.
        assert (Some q = None) by (apply Hrun; tauto). discriminate.
      + destruct Hd as (_ & _ & _ & He). rewrite (He e eq_refl).
        split; [intros Hx; discriminate Hx|]. intros H. assert (Some q = None) by (apply Hrun; tauto).
        discriminate.
    - simpl. split; [intros _|reflexivity]. apply Hrun. reflexivity. }
  split; [exact Hiff|]. split.
  - intros H. unfold TextureManager.solveASync.
    rewrite (proj2 Hrun (conj eq_refl H)). reflexivity.
  - intros He Hthrow. apply Hiff in Hthrow.
    apply ever_queued_called in He; [|reflexivity]. congruence.
Qed.

(** C4 as stated fails: after an [allocateASync] whose size is refused no
    request was ever queued, and [solveASync] returns all the same. *)
Lemma solveASync_after_a_refused_request :
  ever_queued 8 [AllocateASync (Int 2000) (Int 10)] Scenario.fresh = false /\
  TextureManager.solveASync 8
      (fst (run 8 [AllocateASync (Int 2000) (Int 10)] Scenario.fresh))
      (snd (run 8 [AllocateASync (Int 2000) (Int 10)] Scenario.fresh))
    = (Normal [],
       fst (run 8 [AllocateASync (Int 2000) (Int 10)] Scenario.fresh),
       snd (run 8 [AllocateASync (Int 2000) (Int 10)] Scenario.fresh)) /\
  settled 0%nat (snd (run 8 [AllocateASync (Int 2000) (Int 10)] Scenario.fresh))
    = Some (Rejected (WidthTooLarge (Int 2000))).
Proof. vm_compute. auto. Qed.

End QueueFacts.

(** * The batch of deferred requests *)


Section BatchFacts.

Import KnapsackNode Tree Conditions Client Batch.

Variables (np : PromiseId) (l : list (PromiseId * Settlement)).

Lemma claim_frame d n w :
  claim d n (with_promises np l w) =
  (fst (claim d n w), with_promises np l (snd (claim d n w))).
Proof. unfold claim; simpl. destruct d; reflexivity. Qed.

Lemma claim_at_frame d p : forall n w,
  claim_at d p n (with_promises np l w) =
  (fst (claim_at d p n w), with_promises np l (snd (claim_at d p n w))).
Proof.
  induction p as [|[|] q IH]; intros n w; simpl.
  - apply claim_frame.
  - destruct n; [reflexivity|]. rewrite IH. destruct (claim_at d q n1 w); reflexivity.
  - destruct n; [reflexivity|]. rewrite IH. destruct (claim_at d q n2 w); reflexivity.
Qed.

Lemma paint_frame (d : bool) a b w :
  (if d then paint_split a b (with_promises np l w) else with_promises np l w) =
  with_promises np l (if d then paint_split a b w else w).
Proof. destruct d; reflexivity. Qed.

Lemma log_frame (d : bool) c w :
  (if d then log c (with_promises np l w) else with_promises np l w) =
  with_promises np l (if d then log c w else w).
Proof. destruct d; reflexivity. Qed.

Lemma allocate_frame stack d sz width height : forall this w,
  allocate stack d sz width height this (with_promises np l w) =
  match allocate stack d sz width height this w with
  | (this', w', res) => (this', with_promises np l w', res)
  end.
Proof.
  induction stack as [|stack IH]; intros this w; simpl; [reflexivity|].
  destruct this as [r i x|r i x a b].
  - destruct (isOccupied _); [reflexivity|].
    destruct (_ || _); [reflexivity|].
    destruct (_ && _).
    + rewrite claim_frame. destruct (claim d (Leaf r i x) w); reflexivity.
    + destruct (split r width height) as [rl rr].
      rewrite paint_frame, IH. destruct (allocate stack _ _ _ _ _ _) as [[? ?] ?]. reflexivity.
  - rewrite IH. destruct (allocate stack d sz width height a w) as [[a' w1] [q| |]].
    + rewrite claim_at_frame. destruct (claim_at d q a' w1); reflexivity.
    + rewrite IH. destruct (allocate stack d sz width height b w1) as [[? ?] ?]. reflexivity.
    + reflexivity.
Qed.

Lemma scan_frame stack d width height : forall ks i w,
  TextureManager.scan stack d width height i ks (with_promises np l w) =
  match TextureManager.scan stack d width height i ks w with
  | (ks', w', res) => (ks', with_promises np l w', res)
  end.
Proof.
  induction ks as [|k rest IH]; intros i w; simpl; [reflexivity|].
  unfold Knapsack.allocateNode. rewrite allocate_frame.
  destruct (allocate _ _ _ _ _ _ _) as [[root w1] [p| |]]; try reflexivity.
  rewrite IH. destruct (TextureManager.scan _ _ _ _ _ _ _) as [[? ?] ?]. reflexivity.
Qed.

Lemma _allocate_promises_frame stack width height tm w :
  TextureManager._allocate stack width height tm (with_promises np l w) =
  match TextureManager._allocate stack width height tm w with
  | (c, tm', w') => (c, tm', with_promises np l w')
  end.
Proof.
  unfold TextureManager._allocate. rewrite scan_frame.
  destruct (TextureManager.scan _ _ _ _ _ _ _) as [[ks w1] [r| |]]; try reflexivity.
  unfold TextureManager._addKnapsack, Knapsack.allocateNode. simpl.
  rewrite log_frame, allocate_frame.
  destruct (allocate _ _ _ _ _ _ _) as [[root w2] [p| |]]; reflexivity.
Qed.

End BatchFacts.

Section BatchClaim.

Import KnapsackNode Tree Conditions Client Batch.

Lemma with_settlements_same w : with_settlements (settlements w) w = w.
Proof. destruct w; reflexivity. Qed.

(** [_allocate] creates and settles no promise. *)
Lemma _allocate_keeps_promises stack width height tm w c tm' w' :
  TextureManager._allocate stack width height tm w = (c, tm', w') ->
  next_promise w' = next_promise w /\ settlements w' = settlements w.
Proof.
  intros H.
  pose proof (_allocate_promises_frame (next_promise w) (settlements w)
                stack width height tm w) as F.
  change (with_promises (next_promise w) (settlements w) w)
    with (with_settlements (settlements w) w) in F.
  rewrite with_settlements_same, H in F. inversion F as [E]. rewrite E. auto.
Qed.

Lemma _allocate_keeps_settlements stack width height tm w c tm' w' :
  TextureManager._allocate stack width height tm w = (c, tm', w') ->
  settlements w' = settlements w.
Proof. intros H. apply _allocate_keeps_promises in H. tauto. Qed.

Lemma _allocate_settlements l stack width height tm w :
  TextureManager._allocate stack width height tm (with_settlements l w) =
  match TextureManager._allocate stack width height tm w with
  | (c, tm', w') => (c, tm', with_settlements l w')
  end.
Proof.
  unfold with_settlements. rewrite _allocate_promises_frame.
  destruct (TextureManager._allocate _ _ _ _ _) as [[c tm'] w'] eqn:E.
  apply _allocate_keeps_promises in E as [-> _]. reflexivity.
Qed.

Lemma allocate_all_frame l stack : forall requests tm w,
  allocate_all stack requests tm (with_settlements l w) =
  match allocate_all stack requests tm w with
  | (nodes, c, tm', w') => (nodes, c, tm', with_settlements l w')
  end.
Proof.
  induction requests as [|[width height] rest IH]; intros tm w; simpl; [reflexivity|].
  rewrite _allocate_settlements.
  destruct (TextureManager._allocate _ _ _ _ _) as [[[node|e] tm1] w1]; [|reflexivity].
  rewrite IH. destruct (allocate_all stack rest tm1 w1) as [[[? ?] ?] ?]. reflexivity.
Qed.

Lemma find_app_none (p : nat) : forall (a b : list (nat * Settlement)),
  find (fun e => Nat.eqb (fst e) p) a = None ->
  find (fun e => Nat.eqb (fst e) p) (a ++ b) = find (fun e => Nat.eqb (fst e) p) b.
Proof.
  induction a as [|x a IH]; intros b H; simpl in *; [reflexivity|].
  destruct (Nat.eqb (fst x) p); [discriminate|auto].
Qed.

Lemma settled_none_find p w :
  settled p w = None -> find (fun e : nat * Settlement => Nat.eqb (fst e) p) (settlements w) = None.
Proof.
  unfold settled, PromiseId.
  destruct (find _ _); [intros H; discriminate H|reflexivity].
Qed.

Lemma settled_with_settlements p l w :
  settled p (with_settlements l w) =
  match find (fun e : nat * Settlement => Nat.eqb (fst e) p) l with
  | Some e => Some (snd e)
  | None => None
  end.
Proof. reflexivity. Qed.

Lemma settle_pending p s w :
  settled p w = None -> settle p s w = with_settlements (settlements w ++ [(p, s)]) w.
Proof. intros H. unfold settle. rewrite H. reflexivity. Qed.

Lemma find_combine (p : nat) : forall (ps : list nat) (vs : list Settlement) i v,
  NoDup ps -> nth_error ps i = Some p -> nth_error vs i = Some v ->
  find (fun e => Nat.eqb (fst e) p) (combine ps vs) = Some (p, v).
Proof.
  induction ps as [|q ps IH]; intros vs i v Hnd Hp Hv.
  - destruct i; discriminate.
  - destruct vs as [|u vs]; [destruct i; discriminate|].
    inversion Hnd as [|? ? Hnotin Hnd']; subst.
    destruct i as [|i]; simpl in *.
    + inversion Hp; inversion Hv; subst. rewrite Nat.eqb_refl. reflexivity.
    + destruct (Nat.eqb_spec q p) as [->|_].
      * exfalso. apply Hnotin. eapply nth_error_In; eauto.
      * eauto.
Qed.

Lemma pending_tail entry rest w s :
  pending (entry :: rest) w ->
  pending rest (with_settlements
                  (settlements w ++ [(TextureManager.promise entry, s)]) w).
Proof.
  intros [Hnd Hp]. simpl in Hnd. inversion Hnd as [|? ? Hnotin Hnd']; subst.
  split; [exact Hnd'|].
  intros e He. rewrite settled_with_settlements.
  pose proof (settled_none_find _ _ (Hp e (or_intror He))) as Hf.
  unfold PromiseId in *. rewrite (find_app_none _ _ _ Hf). simpl.
  destruct (Nat.eqb_spec (TextureManager.promise entry) (TextureManager.promise e)) as [E|_];
    [|reflexivity].
  exfalso. apply Hnotin. rewrite E. apply in_map. exact He.
Qed.

Lemma pending_same_settlements queue w w' :
  settlements w' = settlements w -> pending queue w -> pending queue w'.
Proof.
  intros E [Hnd Hp]. split; [exact Hnd|].
  intros e He. specialize (Hp e He). unfold settled in *. rewrite E. exact Hp.
Qed.

(** The loop of [solveASync] is the allocation of the requests in order,
    with the promises resolved in that order. *)
Lemma drain_spec stack : forall queue promises tm w,
  pending queue w ->
  TextureManager.drain stack queue promises tm w =
  match allocate_all stack (map request queue) tm w with
  | (nodes, c, tm', w') =>
      match c with
      | Normal _ =>
          (Normal (promises ++ map TextureManager.promise queue), tm',
           with_settlements
             (settlements w ++ combine (map TextureManager.promise queue) (map Resolved nodes)) w')
      | Abrupt e =>
          (Abrupt e, tm',
           with_settlements
             (settlements w ++ combine (map TextureManager.promise queue) (map Resolved nodes)) w')
      end
  end.
Proof.
  induction queue as [|entry rest IH]; intros promises tm w Hpend; simpl.
  - rewrite !app_nil_r, with_settlements_same. reflexivity.
  - destruct (TextureManager._allocate _ _ _ _ _) as [[[node|e] tm1] w1] eqn:E.
    + pose proof (_allocate_keeps_settlements _ _ _ _ _ _ _ _ E) as Hs.
      assert (Hp1 : settled (TextureManager.promise entry) w1 = None).
      { destruct Hpend as [_ Hp]. specialize (Hp entry (or_introl eq_refl)).
        unfold settled in *. rewrite Hs. exact Hp. }
      rewrite (settle_pending _ _ _ Hp1).
      rewrite IH.
      2:{ apply pending_tail. eapply pending_same_settlements; [|exact Hpend]. exact Hs. }
      rewrite allocate_all_frame.
      destruct (allocate_all stack (map request rest) tm1 w1) as [[[nodes c] tm2] w2].
      simpl. rewrite Hs, <- !app_assoc. simpl.
      destruct c; reflexivity.
    + simpl. rewrite app_nil_r.
      rewrite <- (_allocate_keeps_settlements _ _ _ _ _ _ _ _ E), with_settlements_same.
      reflexivity.
Qed.

(** [solveASync] on a queue of pending requests, whichever way the
    allocations end: the requests are allocated in the order they were queued
    and the promise of each is resolved with its node in that order; when no
    allocation throws, the queue is left empty and the promise over exactly
    the queued promises is returned. *)
Lemma solveASync_spec stack tm w queue :
  TextureManager._queue tm = Some queue ->
  pending queue w ->
  match allocate_all stack (map request queue) tm w with
  | (nodes, c, tm', w') =>
      TextureManager.solveASync stack tm w
        = match c with
          | Normal _ =>
              (Normal (map TextureManager.promise queue),
               TextureManager.set_queue (Some []) tm',
               with_settlements
                 (settlements w ++
                  combine (map TextureManager.promise queue) (map Resolved nodes)) w')
          | Abrupt e =>
              (Abrupt e, tm',
               with_settlements
                 (settlements w ++
                  combine (map TextureManager.promise queue) (map Resolved nodes)) w')
          end /\
      (c = Normal tt -> List.length nodes = List.length queue) /\
      (forall i entry node,
         nth_error queue i = Some entry -> nth_error nodes i = Some node ->
         settled (TextureManager.promise entry)
           (with_settlements
              (settlements w ++
               combine (map TextureManager.promise queue) (map Resolved nodes)) w')
         = Some (Resolved node))
  end.
Proof.
  intros Hq Hpend.
  pose proof (drain_spec stack queue [] tm w Hpend) as Hd.
  unfold TextureManager.solveASync. rewrite Hq, Hd.
  destruct (allocate_all stack (map request queue) tm w) as [[[nodes c] tm'] w'] eqn:Ea.
  split; [destruct c; reflexivity|]. split.
  - clear Hd Hq Hpend. revert tm w nodes c tm' w' Ea.
    induction queue as [|entry rest IH]; intros tm w nodes c tm' w' Ea Hc; simpl in Ea.
    + inversion Ea; reflexivity.
    + destruct (TextureManager._allocate _ _ _ _ _) as [[[node|e] tm1] w1].
      * destruct (allocate_all stack (map request rest) tm1 w1) as [[[ns c1] tm2] w2] eqn:E2.
        inversion Ea; subst. simpl. f_equal. eapply IH; eauto.
      * inversion Ea; subst. discriminate.
  - intros i entry node Hi Hn. rewrite settled_with_settlements.
    destruct Hpend as [Hnd Hp].
    pose proof (settled_none_find _ _ (Hp entry (nth_error_In _ _ Hi))) as Hf.
    unfold PromiseId in *. rewrite (find_app_none _ _ _ Hf).
    erewrite find_combine; [reflexivity|exact Hnd| |].
    + rewrite nth_error_map, Hi. reflexivity.
    + rewrite nth_error_map, Hn. reflexivity.
Qed.

End BatchClaim.


(** * Branches are permanent *)


Section TreeInvariant.

Import KnapsackNode Tree.

Lemma persists_refl : forall n, persists n n.
Proof. induction n; simpl; auto. Qed.

Lemma persists_rectangle : forall n n', persists n n' -> rectangle n' = rectangle n.
Proof. intros [r i x|r i x a b] [r' i' x'|r' i' x' a' b']; simpl; tauto. Qed.

Lemma persists_trans : forall n1 n2 n3, persists n1 n2 -> persists n2 n3 -> persists n1 n3.
Proof.
  induction n1 as [r i x|r i x a IHa b IHb]; intros n2 n3 H12 H23.
  - simpl in *. apply persists_rectangle in H23. congruence.
  - destruct n2 as [|r2 i2 x2 a2 b2]; [contradiction|].
    destruct n3 as [|r3 i3 x3 a3 b3]; [contradiction|].
    simpl in *. destruct H12 as (-> & ? & ?), H23 as (-> & ? & ?). eauto.
Qed.

Lemma persists_set_imageID i n : persists n (set_imageID i n).
Proof. destruct n; simpl; auto using persists_refl. Qed.

Lemma claim_at_persists d p : forall n w, persists n (fst (claim_at d p n w)).
Proof.
  induction p as [|[|] q IH]; intros n w; simpl.
  - rewrite claim_node. apply persists_set_imageID.
  - destruct n as [|r i x a b]; [reflexivity|]. specialize (IH a w).
    destruct (claim_at d q a w). simpl in *. auto using persists_refl.
  - destruct n as [|r i x a b]; [reflexivity|]. specialize (IH b w).
    destruct (claim_at d q b w). simpl in *. auto using persists_refl.
Qed.

(** An allocation replaces no node and no child. *)
Lemma allocate_persists stack d sz width height : forall this w,
  persists this (fst (fst (allocate stack d sz width height this w))).
Proof.
  induction stack as [|stack IH]; intros this w; simpl; [apply persists_refl|].
  destruct this as [r i x|r i x a b].
  - destruct (isOccupied _); [reflexivity|].
    destruct (_ || _); [reflexivity|].
    destruct (_ && _).
    + pose proof (claim_node d (Leaf r i x) w) as Hc.
      destruct (claim d (Leaf r i x) w); simpl in *; subst; reflexivity.
    + destruct (split r width height).
      destruct (allocate stack _ _ _ _ _ _) as [[? ?] ?]. reflexivity.
  - pose proof (IH a w) as Ha.
    destruct (allocate stack d sz width height a w) as [[a' w1] [q| |]]; simpl in *.
    + pose proof (claim_at_persists d q a' w1) as Hc.
      destruct (claim_at d q a' w1); simpl in *.
      eauto using persists_trans, persists_refl.
    + pose proof (IH b w1) as Hb.
      destruct (allocate stack d sz width height b w1) as [[? ?] ?]; simpl in *. auto.
    + auto using persists_refl.
Qed.

Lemma replace_at_branches_ok p : forall n m m',
  node_at p n = Some m -> rectangle m' = rectangle m ->
  Tree.branches_ok m' -> Tree.branches_ok n ->
  Tree.branches_ok (replace_at p m' n) /\ rectangle (replace_at p m' n) = rectangle n.
Proof.
  induction p as [|[|] q IH]; intros n m m' Hat Hr Hm Hn; simpl in *.
  - inversion Hat; subst. auto.
  - destruct n as [|r i x a b]; [discriminate|]. simpl in *.
    destruct Hn as (? & ? & ? & ?).
    destruct (IH _ _ _ Hat Hr Hm) as [? E]; [assumption|]. rewrite E. auto.
  - destruct n as [|r i x a b]; [discriminate|]. simpl in *.
    destruct Hn as (? & ? & ? & ?).
    destruct (IH _ _ _ Hat Hr Hm) as [? E]; [assumption|]. rewrite E. auto.
Qed.

(** The two rectangles of a split partition the rectangle cut. *)
Lemma split_partitions r w h :
  0 <= w <= KnapsackRectangle.width r ->
  0 <= h <= KnapsackRectangle.height r ->
  partitions r (fst (split r (Int w) (Int h))) (snd (split r (Int w) (Int h))).
Proof.
  unfold split, KnapsackRectangle.width, KnapsackRectangle.height. simpl.
  intros Hw Hh x y.
  destruct (_ <? _); unfold inside; simpl; lia.
Qed.

(** An allocation of sizes that are not negative keeps every branch free
    and partitioned. *)
Lemma allocate_branches_ok stack d sz w h : 0 <= w -> 0 <= h -> forall this wd,
  Tree.branches_ok this ->
  Tree.branches_ok (fst (fst (allocate stack d sz (Int w) (Int h) this wd))).
Proof.
  intros Hw0 Hh0.
  induction stack as [|stack IH]; intros this wd Hok; simpl; [exact Hok|].
  destruct this as [r i x|r i x a b].
  - destruct i as [u|]; [exact I|]. simpl.
    unfold KnapsackNode.width, KnapsackNode.height; simpl.
    destruct (Z.ltb_spec (KnapsackRectangle.width r) w); [exact I|].
    destruct (Z.ltb_spec (KnapsackRectangle.height r) h); [exact I|]. simpl.
    destruct (_ && _).
    + destruct (claim d (Leaf r None x) wd) as [n1 w1] eqn:Ec.
      pose proof (claim_node d (Leaf r None x) wd) as Hc. rewrite Ec in Hc.
      simpl in *. subst. exact I.
    + pose proof (split_partitions r w h) as Hp.
      destruct (split r (Int w) (Int h)) as [rl rr]. simpl in Hp.
      match goal with |- context [allocate stack d sz ?a ?b ?t ?w0] =>
        pose proof (IH t w0 I) as Hl;
        pose proof (allocate_rectangle stack d a b sz t w0) as Hr;
        destruct (allocate stack d sz a b t w0) as [[a' w1] res] end.
      simpl in *. rewrite Hr.
      split; [reflexivity|]. split; [apply Hp; lia|]. split; [exact Hl|exact I].
  - simpl in Hok. destruct Hok as (Hi & Hp & Ha & Hb).
    pose proof (IH a wd Ha) as Ha'.
    pose proof (allocate_rectangle stack d (Int w) (Int h) sz a wd) as Hra.
    destruct (allocate stack d sz (Int w) (Int h) a wd) as [[a' w1] [q| |]] eqn:Ea;
      simpl in *.
    + apply allocate_found in Ea as (n & Hat & Hleaf & _).
      rewrite (claim_at_replace _ _ _ _ _ Hat). simpl.
      destruct (replace_at_branches_ok q a' n (fst (claim d n w1)) Hat) as [Hok' Hr'];
        try assumption.
      * rewrite claim_node. destruct n; reflexivity.
      * rewrite claim_node. destruct n; [exact I|discriminate].
      * rewrite Hr', Hra. auto.
    + pose proof (IH b w1 Hb) as Hb'.
      pose proof (allocate_rectangle stack d (Int w) (Int h) sz b w1) as Hrb.
      destruct (allocate stack d sz (Int w) (Int h) b w1) as [[b' w2] res]; simpl in *.
      rewrite Hra, Hrb. auto.
    + rewrite Hra. auto.
Qed.

(** A release replaces no node and keeps every branch as it is. *)
Lemma release_at_keeps p : forall n w n' w',
  release_at p n w = (Normal n', w') ->
  persists n n' /\ (Tree.branches_ok n -> Tree.branches_ok n').
Proof.
  induction p as [|[|] q IH]; intros n w n' w' H; simpl in H.
  - unfold release in H. destruct n as [r i x|]; simpl in H; [|discriminate].
    inversion H; subst. simpl. auto.
  - destruct n as [r i x|r i x a b]; [inversion H; subst; simpl; auto|].
    destruct (release_at q a w) as [[a'|e] w1] eqn:E; [|discriminate].
    inversion H; subst. apply IH in E as [Hp Hok]. simpl.
    rewrite (persists_rectangle _ _ Hp). intuition auto using persists_refl.
  - destruct n as [r i x|r i x a b]; [inversion H; subst; simpl; auto|].
    destruct (release_at q b w) as [[b'|e] w1] eqn:E; [|discriminate].
    inversion H; subst. apply IH in E as [Hp Hok]. simpl.
    rewrite (persists_rectangle _ _ Hp). intuition auto using persists_refl.
Qed.

End TreeInvariant.

Section SurfaceInvariant.

Import KnapsackNode Tree Client Surfaces.

Lemma persist_refl : forall ks, persist ks ks.
Proof. induction ks; simpl; auto using persists_refl. Qed.

Lemma persist_trans : forall ks1 ks2 ks3,
  persist ks1 ks2 -> persist ks2 ks3 -> persist ks1 ks3.
Proof.
  induction ks1 as [|k1 r1 IH]; intros [|k2 r2] [|k3 r3]; simpl; try tauto.
  intros (E12 & P12 & H12) (E23 & P23 & H23).
  split; [congruence|]. split; [eauto using persists_trans|eauto].
Qed.

Lemma persist_app : forall ks more, persist ks (ks ++ more).
Proof. induction ks; simpl; auto using persists_refl. Qed.

Variables (stack : nat) (w h : Z).
Hypotheses (Hw : 0 <= w) (Hh : 0 <= h).

Lemma allocateNode_keeps d k wd :
  Tree.branches_ok (Knapsack.rootNode k) ->
  let k' := fst (fst (Knapsack.allocateNode stack d (Int w) (Int h) k wd)) in
  Tree.branches_ok (Knapsack.rootNode k') /\
  Knapsack.textureSize k' = Knapsack.textureSize k /\
  persists (Knapsack.rootNode k) (Knapsack.rootNode k').
Proof.
  intros Hok. unfold Knapsack.allocateNode.
  pose proof (allocate_branches_ok stack d (Knapsack.textureSize k) w h Hw Hh
                (Knapsack.rootNode k) wd Hok) as H1.
  pose proof (allocate_persists stack d (Knapsack.textureSize k) (Int w) (Int h)
                (Knapsack.rootNode k) wd) as H2.
  destruct (allocate _ _ _ _ _ _ _) as [[root w1] res]. simpl in *. auto.
Qed.

Lemma scan_keeps d : forall ks i wd,
  Forall (fun k => Tree.branches_ok (Knapsack.rootNode k)) ks ->
  let ks' := fst (fst (TextureManager.scan stack d (Int w) (Int h) i ks wd)) in
  Forall (fun k => Tree.branches_ok (Knapsack.rootNode k)) ks' /\ persist ks ks'.
Proof.
  induction ks as [|k rest IH]; intros i wd Hok; simpl.
  - auto.
  - inversion Hok as [|? ? Hk Hrest]; subst.
    pose proof (allocateNode_keeps d k wd Hk) as Ha. simpl in Ha.
    destruct (Knapsack.allocateNode stack d (Int w) (Int h) k wd) as [[k' w1] [p| |]];
      simpl in *.
    + destruct Ha as (? & ? & ?). auto using persist_refl.
    + specialize (IH (S i) w1 Hrest).
      destruct (TextureManager.scan _ _ _ _ _ _ _) as [[rest' w2] res]. simpl in *.
      destruct Ha as (? & ? & ?), IH as (? & ?). auto.
    + destruct Ha as (? & ? & ?). auto using persist_refl.
Qed.

Lemma _allocate_keeps tm wd :
  branches_ok tm ->
  let tm' := snd (fst (TextureManager._allocate stack (Int w) (Int h) tm wd)) in
  branches_ok tm' /\
  persist (TextureManager.knapsacks tm) (TextureManager.knapsacks tm').
Proof.
  unfold branches_ok. intros Hok.
  unfold TextureManager._allocate.
  pose proof (scan_keeps (TextureManager.debug tm) (TextureManager.knapsacks tm) 0%nat wd Hok)
    as Hs.
  destruct (TextureManager.scan _ _ _ _ _ _ _) as [[ks w1] [r| |]]; simpl in *;
    try exact Hs.
  destruct Hs as [Hks Hp].
  match goal with |- context [Knapsack.allocateNode ?s ?dd ?a ?b ?k ?w0] =>
    pose proof (allocateNode_keeps dd k w0 I) as Ha;
    destruct (Knapsack.allocateNode s dd a b k w0) as [[k' w3] res] end.
  simpl in Ha. destruct Ha as (Hk' & _ & _).
  assert (Forall (fun k => Tree.branches_ok (Knapsack.rootNode k)) (ks ++ [k']) /\
          persist (TextureManager.knapsacks tm) (ks ++ [k'])).
  { split; [apply Forall_app; auto|].
    eapply persist_trans; [exact Hp|apply persist_app]. }
  destruct res; simpl; assumption.
Qed.

End SurfaceInvariant.

Section ClientInvariant.

Import KnapsackNode Tree Client Surfaces.

Variable stack : nat.

Lemma _allocate_positive width height tm wd :
  positive width -> positive height -> branches_ok tm ->
  let tm' := snd (fst (TextureManager._allocate stack width height tm wd)) in
  branches_ok tm' /\
  persist (TextureManager.knapsacks tm) (TextureManager.knapsacks tm').
Proof.
  destruct width as [w|], height as [h|]; simpl; try contradiction.
  intros Hw Hh. apply _allocate_keeps; lia.
Qed.

Lemma drain_keeps : forall queue promises tm wd,
  Forall (fun entry => positive (TextureManager.width entry) /\
                       positive (TextureManager.height entry)) queue ->
  branches_ok tm ->
  let tm' := snd (fst (TextureManager.drain stack queue promises tm wd)) in
  branches_ok tm' /\
  persist (TextureManager.knapsacks tm) (TextureManager.knapsacks tm').
Proof.
  induction queue as [|entry rest IH]; intros promises tm wd Hq Hok; simpl.
  - auto using persist_refl.
  - inversion Hq as [|? ? [Hw Hh] Hrest]; subst.
    pose proof (_allocate_positive _ _ tm wd Hw Hh Hok) as Ha. simpl in Ha.
    destruct (TextureManager._allocate _ _ _ _ _) as [[[node|e] tm1] w1]; simpl in *.
    + destruct Ha as [Hok1 Hp1].
      specialize (IH (promises ++ [TextureManager.promise entry]) tm1
                     (settle (TextureManager.promise entry) (Resolved node) w1) Hrest Hok1).
      simpl in IH. destruct IH as [Hok2 Hp2].
      split; [exact Hok2|]. eapply persist_trans; eauto.
    + exact Ha.
Qed.

Lemma set_nth_keeps : forall ks i k k',
  nth_error ks i = Some k ->
  Knapsack.textureSize k' = Knapsack.textureSize k ->
  persists (Knapsack.rootNode k) (Knapsack.rootNode k') ->
  persist ks (TextureManager.set_nth i k' ks) /\
  (Tree.branches_ok (Knapsack.rootNode k') ->
   Forall (fun k => Tree.branches_ok (Knapsack.rootNode k)) ks ->
   Forall (fun k => Tree.branches_ok (Knapsack.rootNode k)) (TextureManager.set_nth i k' ks)).
Proof.
  induction ks as [|k0 ks IH]; intros [|i] k k' Hn Hs Hp; simpl in *; try discriminate.
  - inversion Hn; subst. split; [auto using persist_refl|].
    intros Hk H. inversion H; subst. constructor; auto.
  - destruct (IH _ _ _ Hn Hs Hp) as [H1 H2].
    split; [auto using persists_refl|].
    intros Hk H. inversion H; subst. constructor; auto.
Qed.

(** What every call of a client keeps. *)
Lemma exec_keeps op s :
  positive_sizes op ->
  branches_ok (fst s) -> queue_positive (fst s) ->
  branches_ok (fst (exec stack op s)) /\
  queue_positive (fst (exec stack op s)) /\
  persist (TextureManager.knapsacks (fst s))
          (TextureManager.knapsacks (fst (exec stack op s))).
Proof.
  destruct s as [tm wd]. simpl.
  destruct op as [a b|a b|a b| |node|flag]; simpl; intros Hpos Hok Hq.
  - unfold TextureManager.allocate.
    destruct (TextureManager._validateSize a b tm); [|simpl; auto using persist_refl].
    destruct Hpos as [Ha Hb].
    pose proof (_allocate_positive a b tm wd Ha Hb Hok) as H.
    pose proof (_allocate_frame stack a b tm wd) as F.
    destruct (TextureManager._allocate _ _ _ _ _) as [[c tm1] w1]. simpl in *.
    destruct F as (_ & _ & Eq & _). unfold queue_positive. rewrite Eq. tauto.
  - unfold TextureManager.allocateNode.
    destruct (TextureManager._validateSize a b tm); [|simpl; auto using persist_refl].
    destruct Hpos as [Ha Hb].
    pose proof (_allocate_positive a b tm (snd (new_promise wd)) Ha Hb Hok) as H.
    pose proof (_allocate_frame stack a b tm (snd (new_promise wd))) as F.
    simpl in *.
    destruct (TextureManager._allocate _ _ _ _ _) as [[[?|?] tm1] w1]; simpl in *;
      destruct F as (_ & _ & Eq & _); unfold queue_positive; rewrite Eq; tauto.
  - unfold TextureManager.allocateASync.
    destruct tm as [sz ks dbg [q|]]; simpl in *;
      destruct (TextureManager._validateSize _ _ _); simpl;
      (split; [exact Hok|]); (split; [|apply persist_refl]);
      intros queue E; simpl in E; inversion E; subst; clear E;
      try (apply Forall_app; split); try (apply Hq; reflexivity);
      repeat constructor; tauto.
  - unfold TextureManager.solveASync.
    destruct (TextureManager._queue tm) as [q|] eqn:Eq; [|simpl; auto using persist_refl].
    pose proof (drain_keeps q [] tm wd (Hq q Eq) Hok) as H.
    pose proof (drain_frame stack q [] tm wd) as F.
    destruct (TextureManager.drain _ _ _ _ _) as [[[l|e] tm1] w1]; simpl in *.
    + split; [apply H|]. split; [|apply H].
      intros queue E. simpl in E. inversion E. constructor.
    + destruct F as (_ & _ & E & _). unfold queue_positive. rewrite E. tauto.
  - unfold TextureManager.release. destruct node as [ref|]; [|simpl; auto using persist_refl].
    destruct (nth_error _ _) as [k|] eqn:Ek; [|simpl; auto using persist_refl].
    destruct (release_at _ _ _) as [[root|e] w1] eqn:Er; [|simpl; auto using persist_refl].
    apply release_at_keeps in Er as [Hp Hb]. simpl.
    destruct (set_nth_keeps _ _ _ (Knapsack.mk (Knapsack.textureSize k) root) Ek eq_refl Hp)
      as [H1 H2].
    split; [|split; [exact Hq|exact H1]].
    apply H2; [|exact Hok]. simpl. apply Hb.
    unfold branches_ok in Hok. rewrite Forall_forall in Hok.
    apply Hok. eapply nth_error_In; eauto.
  - auto using persist_refl.
Qed.

Lemma run_keeps : forall ops s,
  Forall positive_sizes ops ->
  branches_ok (fst s) -> queue_positive (fst s) ->
  branches_ok (fst (run stack ops s)) /\
  queue_positive (fst (run stack ops s)) /\
  persist (TextureManager.knapsacks (fst s))
          (TextureManager.knapsacks (fst (run stack ops s))).
Proof.
  induction ops as [|op rest IH]; intros s Hpos Hok Hq; simpl.
  - auto using persist_refl.
  - inversion Hpos as [|? ? Hop Hrest]; subst.
    destruct (exec_keeps op s Hop Hok Hq) as (Hok1 & Hq1 & Hp1).
    destruct (IH (exec stack op s) Hrest Hok1 Hq1) as (Hok2 & Hq2 & Hp2).
    unfold run in *. simpl. split; [exact Hok2|]. split; [exact Hq2|].
    eapply persist_trans; eauto.
Qed.

(** C6: whatever a client allocates and releases with positive integer
    sizes on a fresh manager, every branch stays free with its two children
    partitioning its rectangle, and from then on every branch keeps the two
    children it has. *)
Theorem branches_are_permanent (size : option num) (w : World) (ops more : list Op) :
  Forall positive_sizes ops ->
  Forall positive_sizes more ->
  Forall (fun k => Tree.branches_ok (Knapsack.rootNode k))
         (TextureManager.knapsacks (fst (run stack ops (TextureManager.new size, w)))) /\
  persist (TextureManager.knapsacks (fst (run stack ops (TextureManager.new size, w))))
          (TextureManager.knapsacks
             (fst (run stack more (run stack ops (TextureManager.new size, w))))).
Proof.
  intros Hops Hmore.
  destruct (run_keeps ops (TextureManager.new size, w) Hops) as (Hok & Hq & _).
  - constructor.
  - intros queue E. discriminate E.
  - split; [exact Hok|].
    destruct (run_keeps more _ Hmore Hok Hq) as (_ & _ & Hp). exact Hp.
Qed.

End ClientInvariant.

(** * Instances *)


Section Witnesses.

Import KnapsackNode Tree Client Surfaces.

Lemma branches_are_permanent_witness :
  Forall (fun k => Tree.branches_ok (Knapsack.rootNode k))
         (TextureManager.knapsacks
            (fst (run 8 Programs.reuse (TextureManager.new (Some (Int 1024)), World0)))) /\
  persist (TextureManager.knapsacks
             (fst (run 8 Programs.reuse (TextureManager.new (Some (Int 1024)), World0))))
          (TextureManager.knapsacks
             (fst (run 8 Programs.further
                       (run 8 Programs.reuse (TextureManager.new (Some (Int 1024)), World0))))).
Proof.
  apply (branches_are_permanent 8 (Some (Int 1024)) World0 Programs.reuse Programs.further).
  - repeat constructor.
  - repeat constructor.
Defined.

Lemma allocate_exact_size_witness :
  exists ref tm' wd' n,
    TextureManager.allocate 8 (Int 10) (Int 10)
        (fst Scenario.one_sprite) (snd Scenario.one_sprite)
      = (Normal (Some ref), tm', wd') /\
    TextureManager.node ref tm' = Some n /\
    KnapsackNode.width n = 10 /\ KnapsackNode.height n = 10 /\
    hasChildren n = false /\ isOccupied n = true /\
    if forallb (no_room 8 (TextureManager.debug (fst Scenario.one_sprite))
                        (Int 10) (Int 10) (snd Scenario.one_sprite))
               (TextureManager.knapsacks (fst Scenario.one_sprite))
    then exists k,
        TextureManager.knapsacks tm'
          = TextureManager.knapsacks (fst Scenario.one_sprite) ++ [k] /\
        knapsack_index ref = List.length (TextureManager.knapsacks (fst Scenario.one_sprite)) /\
        Knapsack.textureSize k = TextureManager.textureSize (fst Scenario.one_sprite) /\
        rectangle (Knapsack.rootNode k) =
          KnapsackRectangle.mk 0 0 (TextureManager.textureSize (fst Scenario.one_sprite))
                               (TextureManager.textureSize (fst Scenario.one_sprite))
    else List.length (TextureManager.knapsacks tm') =
           List.length (TextureManager.knapsacks (fst Scenario.one_sprite)) /\
         (knapsack_index ref < List.length (TextureManager.knapsacks (fst Scenario.one_sprite)))%nat.
Proof.
  apply (allocate_exact_size 8 (fst Scenario.one_sprite) (snd Scenario.one_sprite) 10 10).
  - split; [lia|]. repeat constructor.
  - vm_compute. split; discriminate.
  - vm_compute. split; discriminate.
Defined.

End Witnesses.

(** * Depth of the trees and the batch *)


Section Depth.

Import KnapsackNode Tree Headroom.










Example three_requests_resolved :
  fst (fst (TextureManager.solveASync 12 (fst Scenario.three_queued)
                                      (snd Scenario.three_queued)))
    = Normal [0%nat; 1%nat; 2%nat] /\
  settlements (snd (TextureManager.solveASync 12 (fst Scenario.three_queued)
                                               (snd Scenario.three_queued)))
    = [ (0%nat, Resolved (Some (mkRef 0 [L; L])));
        (1%nat, Resolved (Some (mkRef 0 [L; R; L; L])));
        (2%nat, Resolved (Some (mkRef 0 [R; L; L]))) ].
Proof. vm_compute. auto. Qed.

End Depth.

(** * Promises stay in order *)


Section PromisesInOrder.

Import KnapsackNode Tree Conditions Client Batch Promises.

Local Ltac id_lia := unfold PromiseId in *; simpl in *; lia.

Lemma in_order_same tm w tm' w' :
  next_promise w' = next_promise w -> settlements w' = settlements w ->
  TextureManager._queue tm' = TextureManager._queue tm ->
  in_order (tm, w) -> in_order (tm', w').
Proof.
  intros En Es Eq [Hf Hq]. unfold in_order, fresh_promises, pending, settled in *.
  simpl in *. rewrite En, Es, Eq. auto.
Qed.

Lemma settled_other p q s w : p <> q -> settled q (settle p s w) = settled q w.
Proof.
  intros Hne. unfold settle. destruct (settled p w); [reflexivity|].
  unfold settled. simpl.
  assert (H : forall (l : list (nat * Settlement)),
    find (fun e => Nat.eqb (fst e) q) (l ++ [(p, s)]) = find (fun e => Nat.eqb (fst e) q) l).
  { induction l as [|a l IH]; simpl.
    - destruct (Nat.eqb_spec p q); [contradiction|reflexivity].
    - destruct (Nat.eqb (fst a) q); auto. }
  unfold PromiseId in *. rewrite H. reflexivity.
Qed.

Lemma fresh_settle p s w :
  (p < next_promise w)%nat -> fresh_promises w -> fresh_promises (settle p s w).
Proof.
  intros Hp Hf q t. unfold settle. destruct (settled p w); [apply Hf|].
  simpl. intros H. apply in_app_or in H as [H|[H|[]]]; [eapply Hf; eauto|].
  inversion H; subst. exact Hp.
Qed.

(** A promise created and settled at once leaves the promises in order. *)
Lemma in_order_settle_new tm w tm1 w1 s :
  in_order (tm, w) ->
  next_promise w1 = S (next_promise w) -> settlements w1 = settlements w ->
  (forall q, TextureManager._queue tm1 = Some q ->
             TextureManager._queue tm = Some q \/ q = []) ->
  in_order (tm1, settle (next_promise w) s w1).
Proof.
  intros [Hf Hq] En Es Hqueue. split; simpl.
  - apply fresh_settle; [id_lia|]. intros p t. rewrite Es, En. intros H.
    apply Hf in H. id_lia.
  - intros q E. assert (Hnp : next_promise (settle (next_promise w) s w1) = S (next_promise w)).
    { unfold settle. destruct (settled _ _); simpl; exact En. }
    destruct (Hqueue q E) as [E'| ->].
    + destruct (Hq q E') as [[Hnd Hp] Hlt]. simpl in *.
      split; [split; [exact Hnd|]|].
      * intros e He. rewrite settled_other by (specialize (Hlt e He); id_lia).
        specialize (Hp e He). unfold settled in *. rewrite Es. exact Hp.
      * intros e He. rewrite Hnp. specialize (Hlt e He). id_lia.
    + split; [split; [constructor|]|]; intros e [].
Qed.

Lemma release_at_keeps_promises p : forall n w c w',
  release_at p n w = (c, w') ->
  next_promise w' = next_promise w /\ settlements w' = settlements w.
Proof.
  induction p as [|[|] q IH]; intros n w c w' H; simpl in H.
  - unfold release in H. destruct (hasChildren n); [inversion H; auto|].
    inversion H; subst. unfold clear. simpl. destruct (_texture n); auto.
  - destruct n as [|r i x a b]; [inversion H; auto|].
    destruct (release_at q a w) as [[?|?] w1] eqn:E; inversion H; subst; eauto.
  - destruct n as [|r i x a b]; [inversion H; auto|].
    destruct (release_at q b w) as [[?|?] w1] eqn:E; inversion H; subst; eauto.
Qed.

Lemma allocate_all_keeps_next_promise stack : forall requests tm w nodes c tm' w',
  allocate_all stack requests tm w = (nodes, c, tm', w') ->
  next_promise w' = next_promise w.
Proof.
  induction requests as [|[width height] rest IH]; intros tm w nodes c tm' w' H; simpl in H.
  - inversion H; reflexivity.
  - destruct (TextureManager._allocate _ _ _ _ _) as [[[node|e] tm1] w1] eqn:E.
    + destruct (allocate_all stack rest tm1 w1) as [[[ns c1] tm2] w2] eqn:E2.
      inversion H; subst. apply IH in E2. apply _allocate_keeps_promises in E. id_lia.
    + inversion H; subst. apply _allocate_keeps_promises in E. tauto.
Qed.

(** Every call keeps the promises in order, a [solveASync] that runs out of
    stack apart. *)
Lemma exec_in_order stack op s :
  in_order s ->
  (op = SolveASync ->
   fst (fst (TextureManager.solveASync stack (fst s) (snd s))) <> Abrupt StackExhausted) ->
  in_order (exec stack op s).
Proof.
  destruct s as [tm w]. intros Hin Hsolve.
  destruct op as [a b|a b|a b| |node|flag]; simpl.
  - unfold TextureManager.allocate.
    destruct (TextureManager._validateSize a b tm); [|exact Hin].
    pose proof (_allocate_frame stack a b tm w) as F.
    destruct (TextureManager._allocate _ _ _ _ _) as [[c tm1] w1] eqn:E.
    apply _allocate_keeps_promises in E as [En Es]. destruct F as (_ & _ & Eq & _).
    eapply in_order_same; eauto.
  - unfold TextureManager.allocateNode. simpl.
    destruct (TextureManager._validateSize a b tm).
    + pose proof (_allocate_frame stack a b tm (snd (new_promise w))) as F. simpl in F.
      destruct (TextureManager._allocate _ _ _ _ _) as [[c tm1] w1] eqn:E.
      apply _allocate_keeps_promises in E as [En Es]. destruct F as (_ & _ & Eq & _).
      destruct c; apply (in_order_settle_new tm w); auto; rewrite Eq; auto.
    + apply (in_order_settle_new tm w); auto.
  - unfold TextureManager.allocateASync. simpl.
    destruct (TextureManager._validateSize a b _) eqn:Ev.
    + destruct Hin as [Hf Hq]. simpl in *. split; simpl.
      * intros p t H. apply Hf in H. id_lia.
      * intros queue E. inversion E; subst; clear E.
        assert (Hold : exists q, (TextureManager._queue tm = Some q \/ q = []) /\
                  match TextureManager._queue
                          match TextureManager._queue tm with
                          | Some _ => tm
                          | None => TextureManager.set_queue (Some []) tm
                          end with Some q0 => q0 | None => [] end = q).
        { destruct tm as [sz ks dbg [q|]]; simpl; eauto. }
        destruct Hold as (q & Hq0 & ->).
        assert (Hq' : pending q w /\
                      forall e, In e q -> (TextureManager.promise e < next_promise w)%nat).
        { destruct Hq0 as [E| ->]; [apply Hq; exact E|].
          split; [split; [constructor|]|]; intros e []. }
        destruct Hq' as [[Hnd Hp] Hlt].
        split; [split|].
        -- rewrite map_app. simpl. apply NoDup_app; [exact Hnd|repeat constructor; intros []|].
           intros p Hp1 [<-|[]]. apply in_map_iff in Hp1 as (e & Ee & He).
           specialize (Hlt e He). id_lia.
        -- intros e He. apply in_app_or in He as [He|[<-|[]]].
           ++ exact (Hp e He).
           ++ simpl. apply (settled_fresh w Hf).
        -- intros e He. apply in_app_or in He as [He|[<-|[]]]; simpl.
           ++ specialize (Hlt e He). id_lia.
           ++ id_lia.
    + apply (in_order_settle_new tm w); auto.
      intros q E. destruct tm as [sz ks dbg [q0|]]; simpl in *; inversion E; auto.
  - unfold TextureManager.solveASync.
    destruct (TextureManager._queue tm) as [q|] eqn:Eq; [|exact Hin].
    destruct Hin as [Hf Hq]. simpl in *. destruct (Hq q Eq) as [Hpend Hlt].
    pose proof (solveASync_spec stack tm w q Eq Hpend) as Hspec.
    specialize (Hsolve eq_refl).
    destruct (allocate_all stack (map request q) tm w) as [[[nodes c] tm'] w'] eqn:Ea.
    destruct Hspec as (Hs & _ & _).
    unfold TextureManager.solveASync in Hs, Hsolve. rewrite Eq in Hs, Hsolve.
    pose proof (drain_frame stack q [] tm w) as F.
    destruct (TextureManager.drain stack q [] tm w) as [[c0 tm0] w0].
    destruct c as [[]|e].
    + destruct c0 as [l0|e0]; inversion Hs; subst; clear Hs.
      split; simpl.
      * intros p t H. simpl in H.
        change (p < next_promise w')%nat.
        rewrite (allocate_all_keeps_next_promise _ _ _ _ _ _ _ _ Ea).
        apply in_app_or in H as [H|H]; [|apply in_combine_l in H].
        -- apply Hf in H. exact H.
        -- apply in_map_iff in H as (e & <- & He). auto.
      * intros queue E. inversion E; subst.
        split; [split; [constructor|]|]; intros e [].
    + destruct c0 as [l0|e0]; inversion Hs; subst; clear Hs.
      destruct F as (_ & _ & _ & He). specialize (He e eq_refl). subst.
      simpl in Hsolve. contradiction.
  - unfold TextureManager.release. destruct node as [ref|]; [|exact Hin].
    destruct (nth_error _ _) as [k|]; [|exact Hin].
    destruct (release_at _ _ _) as [[root|e] w1] eqn:Er;
      apply release_at_keeps_promises in Er as [En Es];
      eapply in_order_same; eauto.
  - exact Hin.
Qed.

(** The promises are in order in every state a program reaches from a fresh
    manager, as long as no [solveASync] runs out of stack. *)
Lemma run_in_order stack : forall ops s,
  in_order s -> no_exhaustion stack ops s -> in_order (run stack ops s).
Proof.
  induction ops as [|op rest IH]; intros s Hin Hne; simpl.
  - exact Hin.
  - destruct Hne as [H1 H2]. apply IH; [apply exec_in_order; assumption|exact H2].
Qed.

Lemma fresh_in_order size : in_order (TextureManager.new size, World0).
Proof.
  split; simpl.
  - intros p s [].
  - intros q E. discriminate E.
Qed.

(** So the promises of a fresh manager stay in order. *)
Lemma reached_in_order stack size ops :
  no_exhaustion stack ops (TextureManager.new size, World0) ->
  fresh_promises (snd (run stack ops (TextureManager.new size, World0))) /\
  forall queue,
    TextureManager._queue (fst (run stack ops (TextureManager.new size, World0))) = Some queue ->
    pending queue (snd (run stack ops (TextureManager.new size, World0))).
Proof.
  intros H. destruct (run_in_order stack ops _ (fresh_in_order size) H) as [Hf Hq].
  split; [exact Hf|]. intros queue E. apply Hq. exact E.
Qed.

End PromisesInOrder.

(** * Occupied leaves *)

Section Occupancy.

Import KnapsackNode Tree.

(** The place an allocation hands back was not there before, or was a free
    leaf. *)
Lemma allocate_target_free stack d sz width height : forall this w this' w' p,
  allocate stack d sz width height this w = (this', w', Found p) ->
  match node_at p this with
  | Some n => hasChildren n = false /\ isOccupied n = false
  | None => True
  end.
Proof.
  induction stack as [|stack IH]; intros this w this' w' p H; simpl in H.
  - discriminate.
  - destruct this as [r i x|r i x a b].
    + destruct (isOccupied (Leaf r i x)) eqn:Eo; [discriminate|].
      destruct (gt width _ || gt height _); [discriminate|].
      destruct (strict_eq width _ && strict_eq height _).
      * destruct (claim d (Leaf r i x) w). inversion H; subst. simpl. auto.
      * destruct (split r width height) as [rl rr].
        match type of H with context [allocate stack d sz width height ?t ?w0] =>
          destruct (allocate stack d sz width height t w0) as [[a' w2] res] end.
        destruct res; inversion H; subst. simpl. exact I.
    + destruct (allocate stack d sz width height a w) as [[a' w1] res] eqn:E.
      destruct res as [q| |].
      * destruct (claim_at d q a' w1). inversion H; subst. simpl. eapply IH; eauto.
      * destruct (allocate stack d sz width height b w1) as [[b' w2] res] eqn:E2.
        destruct res; inversion H; subst. simpl. eapply IH; eauto.
      * discriminate.
Qed.

Lemma node_at_replace_other p : forall q t n m m',
  node_at q t = Some n -> hasChildren n = false ->
  node_at p t = Some m -> hasChildren m = false ->
  p <> q ->
  node_at q (replace_at p m' t) = Some n.
Proof.
  induction p as [|dp p IH]; intros q t n m m' Hq Hn Hp Hm Hne.
  - simpl in Hp. inversion Hp; subst. destruct q as [|dq q]; [congruence|].
    destruct m; [|discriminate]. destruct dq; discriminate.
  - destruct t as [|r i x a b]; [destruct dp; discriminate|].
    destruct q as [|dq q].
    + simpl in Hq. inversion Hq; subst. discriminate.
    + destruct dp, dq; simpl in *; auto;
        eapply IH; eauto; congruence.
Qed.

(** An allocation leaves every occupied leaf as it is. *)
Lemma allocate_keeps_occupied stack d sz width height : forall this w q n,
  node_at q this = Some n -> hasChildren n = false -> isOccupied n = true ->
  node_at q (fst (fst (allocate stack d sz width height this w))) = Some n.
Proof.
  induction stack as [|stack IH]; intros this w q n Hq Hleaf Hocc; simpl; [exact Hq|].
  destruct this as [r i x|r i x a b].
  - destruct q as [|dq q]; [|destruct dq; discriminate].
    simpl in Hq. inversion Hq; subst. rewrite Hocc. exact Hq.
  - destruct q as [|dq q]; [simpl in Hq; inversion Hq; subst; discriminate|].
    pose proof (IH a w) as IHa.
    destruct (allocate stack d sz width height a w) as [[a' w1] res] eqn:E.
    destruct res as [p| |]; simpl in *.
    + pose proof (allocate_found _ _ _ _ _ _ _ _ _ _ E) as (m & Hat & Hm & _).
      pose proof (allocate_target_free _ _ _ _ _ _ _ _ _ _ E) as Hfree.
      rewrite (claim_at_replace _ _ _ _ _ Hat). simpl.
      destruct dq; [|exact Hq].
      eapply node_at_replace_other; eauto.
      intros ->. rewrite Hq in Hfree. destruct Hfree as [_ Hf]. congruence.
    + pose proof (IH b w1) as IHb.
      destruct (allocate stack d sz width height b w1) as [[b' w2] res]; simpl in *.
      destruct dq; auto.
    + destruct dq; auto.
Qed.

(** Whether and where an allocation finds room does not depend on the
    world. *)
Lemma allocate_result_world stack d1 d2 sz width height : forall this w1 w2,
  snd (allocate stack d1 sz width height this w1) =
  snd (allocate stack d2 sz width height this w2).
Proof.
  induction stack as [|stack IH]; intros this w1 w2; simpl; [reflexivity|].
  destruct this as [r i x|r i x a b].
  - destruct (isOccupied _); [reflexivity|].
    destruct (_ || _); [reflexivity|].
    destruct (_ && _).
    + destruct (claim d1 _ w1), (claim d2 _ w2). reflexivity.
    + destruct (split r width height) as [rl rr].
      match goal with |- snd (match allocate _ _ _ _ _ ?t ?u1 with _ => _ end) =
                         snd (match allocate _ _ _ _ _ _ ?u2 with _ => _ end) =>
        pose proof (IH t u1 u2) as E;
        destruct (allocate stack d1 sz width height t u1) as [[? ?] ?];
        destruct (allocate stack d2 sz width height t u2) as [[? ?] ?] end.
      simpl in *. subst. reflexivity.
  - pose proof (IH a w1 w2) as Ea.
    destruct (allocate stack d1 sz width height a w1) as [[a1 u1] res1] eqn:E1.
    destruct (allocate stack d2 sz width height a w2) as [[a2 u2] res2] eqn:E2.
    simpl in Ea. subst res2. destruct res1 as [p| |].
    + destruct (claim_at d1 p a1 u1), (claim_at d2 p a2 u2). reflexivity.
    + pose proof (IH b u1 u2) as Eb.
      destruct (allocate stack d1 sz width height b u1) as [[? ?] ?].
      destruct (allocate stack d2 sz width height b u2) as [[? ?] ?].
      simpl in *. subst. reflexivity.
    + reflexivity.
Qed.

End Occupancy.

(** * What an allocation touches *)

Section AllocateCases.

Import KnapsackNode Tree.

(** The two ways [_allocate] goes: a knapsack that does not answer [null] is
    found, the ones before it and after it left alone; or all answer [null]
    and a new knapsack is appended and asked. *)
Lemma _allocate_cases stack width height tm w :
  match TextureManager._allocate stack width height tm w with
  | (c, tm', w') =>
      (exists pre k post k' res,
          TextureManager.knapsacks tm = pre ++ k :: post /\
          TextureManager.knapsacks tm' = pre ++ k' :: post /\
          forallb (no_room stack (TextureManager.debug tm) width height w) pre = true /\
          Knapsack.allocateNode stack (TextureManager.debug tm) width height k w
            = (k', w', res) /\
          res <> NotFound /\
          c = match res with
              | Found p => Normal (Some (mkRef (List.length pre) p))
              | _ => Abrupt StackExhausted
              end)
      \/
      (exists k' res,
          forallb (no_room stack (TextureManager.debug tm) width height w)
                  (TextureManager.knapsacks tm) = true /\
          TextureManager.knapsacks tm' = TextureManager.knapsacks tm ++ [k'] /\
          Knapsack.allocateNode stack (TextureManager.debug tm) width height
              (Knapsack.new (TextureManager.textureSize tm))
              (if TextureManager.debug tm
               then log (ConsoleLog (TextureManager.textureSize tm)
                                    (S (List.length (TextureManager.knapsacks tm)))) w
               else w)
            = (k', w', res) /\
          c = match res with
              | Found p => Normal (Some (mkRef (List.length (TextureManager.knapsacks tm)) p))
              | NotFound => Normal None
              | Exhausted => Abrupt StackExhausted
              end)
  end.
Proof.
  unfold TextureManager._allocate.
  pose proof (scan_spec stack (TextureManager.debug tm) width height
                (TextureManager.knapsacks tm) 0%nat w) as Hscan.
  destruct (TextureManager.scan _ _ _ _ _ _ _) as [[ks w1] res].
  destruct res as [r| |].
  - left. destruct Hscan as (pre & k & post & k' & res0 & Hks & -> & Hpre & Hk & Ha & Hr).
    exists pre, k, post, k', res0. simpl.
    destruct res0 as [p| |]; try discriminate. simpl in Hr. inversion Hr; subst.
    repeat split; auto. discriminate.
  - destruct Hscan as (-> & -> & Hall).
    unfold TextureManager._addKnapsack. simpl.
    replace (List.length (TextureManager.knapsacks tm ++
                          [Knapsack.new (TextureManager.textureSize tm)]))
      with (S (List.length (TextureManager.knapsacks tm)))
      by (rewrite length_app; simpl; lia).
    match goal with |- context [Knapsack.allocateNode ?s ?dd ?a ?b ?k ?w0] =>
      destruct (Knapsack.allocateNode s dd a b k w0) as [[k' w3] res3] eqn:E end.
    destruct res3; right; eexists k', _;
      (split; [exact Hall|]; split; [reflexivity|]; split; [exact E|reflexivity]).
  - left. destruct Hscan as (pre & k & post & k' & res0 & Hks & -> & Hpre & Hk & Ha & Hr).
    exists pre, k, post, k', res0. simpl.
    destruct res0 as [p| |]; try discriminate.
    repeat split; auto. discriminate.
Qed.


Lemma nth_error_middle {A : Type} (pre post : list A) (k k' : A) i :
  nth_error (pre ++ k' :: post) i =
  if Nat.eqb i (List.length pre) then Some k' else nth_error (pre ++ k :: post) i.
Proof.
  destruct (Nat.eqb_spec i (List.length pre)) as [->|Hne].
  - rewrite nth_error_app2, Nat.sub_diag by lia. reflexivity.
  - destruct (Nat.lt_ge_cases i (List.length pre)).
    + rewrite !nth_error_app1 by lia. reflexivity.
    + rewrite !nth_error_app2 by lia.
      destruct (i - List.length pre)%nat eqn:E; [lia|reflexivity].
Qed.

Lemma allocateNode_found_root stack d width height k w k' w' res :
  Knapsack.allocateNode stack d width height k w = (k', w', res) ->
  allocate stack d (Knapsack.textureSize k) width height (Knapsack.rootNode k) w
    = (Knapsack.rootNode k', w', res) /\
  Knapsack.textureSize k' = Knapsack.textureSize k.
Proof.
  unfold Knapsack.allocateNode.
  destruct (allocate _ _ _ _ _ _ _) as [[root w1] r].
  intros H; inversion H; subst. auto.
Qed.

(** X1: the node [allocate] hands back was free, or not there, before the
    call: a leaf in use is never handed out again. *)
Theorem allocate_never_hands_out_a_leaf_in_use stack width height tm w ref tm' w' :
  TextureManager.allocate stack width height tm w = (Normal (Some ref), tm', w') ->
  match TextureManager.node ref tm with
  | Some n => hasChildren n = false /\ isOccupied n = false
  | None => True
  end.
Proof.
  unfold TextureManager.allocate.
  destruct (TextureManager._validateSize width height tm); [|discriminate].
  pose proof (_allocate_cases stack width height tm w) as Hc.
  destruct (TextureManager._allocate _ _ _ _ _) as [[c tm1] w1].
  intros H; inversion H; subst; clear H.
  destruct Hc as [(pre & k & post & k' & res & Hks & Hks' & Hpre & Ha & Hne & Hc)
                 |(k' & res & Hall & Hks' & Ha & Hc)].
  - destruct res as [p| |]; try discriminate. inversion Hc; subst; clear Hc.
    unfold TextureManager.node. simpl. rewrite Hks.
    rewrite nth_error_app2, Nat.sub_diag by lia. simpl.
    apply allocateNode_found_root in Ha as [Ha _].
    exact (allocate_target_free _ _ _ _ _ _ _ _ _ _ Ha).
  - destruct res as [p| |]; try discriminate. inversion Hc; subst; clear Hc.
    unfold TextureManager.node. simpl.
    rewrite (proj2 (nth_error_None _ _)) by lia. exact I.
Qed.

Lemma allocate_never_hands_out_a_leaf_in_use_witness :
  match TextureManager.node (mkRef 0 [L; R; L; L]) (fst Scenario.one_sprite) with
  | Some n => hasChildren n = false /\ isOccupied n = false
  | None => True
  end.
Proof.
  eapply (allocate_never_hands_out_a_leaf_in_use 8 (Int 10) (Int 10)
            (fst Scenario.one_sprite) (snd Scenario.one_sprite)).
  vm_compute. reflexivity.
Defined.

(** X2: an allocation, however it ends, leaves every leaf in use as it is:
    same place, same rectangle, same identifier, same texture. *)
Theorem allocate_leaves_leaves_in_use_alone stack width height tm w ref n :
  TextureManager.node ref tm = Some n ->
  hasChildren n = false -> isOccupied n = true ->
  TextureManager.node ref
    (snd (fst (TextureManager.allocate stack width height tm w))) = Some n.
Proof.
  intros Hn Hleaf Hocc. unfold TextureManager.allocate.
  destruct (TextureManager._validateSize width height tm); [|exact Hn].
  pose proof (_allocate_cases stack width height tm w) as Hc.
  destruct (TextureManager._allocate _ _ _ _ _) as [[c tm1] w1]. simpl.
  unfold TextureManager.node in *.
  destruct Hc as [(pre & k & post & k' & res & Hks & Hks' & Hpre & Ha & Hne & Hc)
                 |(k' & res & Hall & Hks' & Ha & Hc)].
  - rewrite Hks', (nth_error_middle pre post k k'). rewrite Hks in Hn.
    destruct (Nat.eqb_spec (knapsack_index ref) (List.length pre)) as [E|_]; [|exact Hn].
    rewrite E, nth_error_app2, Nat.sub_diag in Hn by lia. simpl in Hn.
    apply allocateNode_found_root in Ha as [Ha _].
    pose proof (allocate_keeps_occupied stack (TextureManager.debug tm)
                  (Knapsack.textureSize k) width height (Knapsack.rootNode k) w
                  (path ref) n Hn Hleaf Hocc) as H.
    rewrite Ha in H. exact H.
  - rewrite Hks'.
    destruct (nth_error (TextureManager.knapsacks tm) (knapsack_index ref)) as [k|] eqn:Ek;
      [|discriminate].
    rewrite nth_error_app1 by (apply nth_error_Some; congruence).
    rewrite Ek. exact Hn.
Qed.

Lemma allocate_leaves_leaves_in_use_alone_witness :
  TextureManager.node (mkRef 0 [L; L])
    (snd (fst (TextureManager.allocate 8 (Int 10) (Int 10)
                 (fst Scenario.one_sprite) (snd Scenario.one_sprite))))
  = Some (Leaf (KnapsackRectangle.mk 0 0 100 50) (Some 0%nat) None).
Proof.
  apply (allocate_leaves_leaves_in_use_alone 8 (Int 10) (Int 10)
           (fst Scenario.one_sprite) (snd Scenario.one_sprite) (mkRef 0 [L; L])).
  - vm_compute. reflexivity.
  - reflexivity.
  - reflexivity.
Defined.

(** X3: first fit.  The node comes from the first knapsack, in the order of
    creation, that does not answer [null]; only when all answer [null] is a
    knapsack added, one, behind the others, and the node comes from it. *)
Theorem allocate_is_first_fit stack width height tm w ref tm' w' :
  TextureManager.allocate stack width height tm w = (Normal (Some ref), tm', w') ->
  forallb (no_room stack (TextureManager.debug tm) width height w)
          (firstn (knapsack_index ref) (TextureManager.knapsacks tm)) = true /\
  match nth_error (TextureManager.knapsacks tm) (knapsack_index ref) with
  | Some k =>
      no_room stack (TextureManager.debug tm) width height w k = false /\
      List.length (TextureManager.knapsacks tm') = List.length (TextureManager.knapsacks tm)
  | None =>
      knapsack_index ref = List.length (TextureManager.knapsacks tm) /\
      List.length (TextureManager.knapsacks tm')
        = S (List.length (TextureManager.knapsacks tm))
  end.
Proof.
  unfold TextureManager.allocate.
  destruct (TextureManager._validateSize width height tm); [|discriminate].
  pose proof (_allocate_cases stack width height tm w) as Hc.
  destruct (TextureManager._allocate _ _ _ _ _) as [[c tm1] w1].
  intros H; inversion H; subst; clear H.
  destruct Hc as [(pre & k & post & k' & res & Hks & Hks' & Hpre & Ha & Hne & Hc)
                 |(k' & res & Hall & Hks' & Ha & Hc)].
  - destruct res as [p| |]; try discriminate. inversion Hc; subst; clear Hc. simpl.
    rewrite Hks, Hks'. rewrite firstn_app, Nat.sub_diag, firstn_all. simpl.
    rewrite app_nil_r. split; [exact Hpre|].
    rewrite nth_error_app2, Nat.sub_diag by lia. simpl.
    split; [|rewrite !length_app; reflexivity].
    unfold no_room. rewrite Ha. reflexivity.
  - destruct res as [p| |]; try discriminate. inversion Hc; subst; clear Hc. simpl.
    rewrite firstn_all. split; [exact Hall|].
    rewrite (proj2 (nth_error_None _ _)) by lia.
    split; [reflexivity|]. rewrite Hks', length_app. simpl. lia.
Qed.

Lemma allocate_is_first_fit_witness :
  forallb (no_room 8 (TextureManager.debug (fst Scenario.one_sprite))
                   (Int 1024) (Int 1024) (snd Scenario.one_sprite))
          (firstn 1 (TextureManager.knapsacks (fst Scenario.one_sprite))) = true /\
  match nth_error (TextureManager.knapsacks (fst Scenario.one_sprite)) 1 with
  | Some k =>
      no_room 8 (TextureManager.debug (fst Scenario.one_sprite))
              (Int 1024) (Int 1024) (snd Scenario.one_sprite) k = false /\
      List.length (TextureManager.knapsacks
                     (snd (fst (TextureManager.allocate 8 (Int 1024) (Int 1024)
                                  (fst Scenario.one_sprite) (snd Scenario.one_sprite)))))
        = List.length (TextureManager.knapsacks (fst Scenario.one_sprite))
  | None =>
      1%nat = List.length (TextureManager.knapsacks (fst Scenario.one_sprite)) /\
      List.length (TextureManager.knapsacks
                     (snd (fst (TextureManager.allocate 8 (Int 1024) (Int 1024)
                                  (fst Scenario.one_sprite) (snd Scenario.one_sprite)))))
        = S (List.length (TextureManager.knapsacks (fst Scenario.one_sprite)))
  end.
Proof.
  apply (allocate_is_first_fit 8 (Int 1024) (Int 1024)
           (fst Scenario.one_sprite) (snd Scenario.one_sprite) (mkRef 1 [])
           (snd (fst (TextureManager.allocate 8 (Int 1024) (Int 1024)
                        (fst Scenario.one_sprite) (snd Scenario.one_sprite))))
           (snd (TextureManager.allocate 8 (Int 1024) (Int 1024)
                   (fst Scenario.one_sprite) (snd Scenario.one_sprite)))).
  vm_compute. reflexivity.
Defined.

End AllocateCases.

(** * Sizes *)


Section WellSized.

Import KnapsackNode Tree Client Sizes.

Lemma new_well_sized size : well_sized (TextureManager.new size).
Proof.
  assert (H1024 : In 1024 TextureManager.sizes) by (simpl; tauto).
  split; [|constructor]. unfold TextureManager.new.
  cbn [TextureManager.size].
  destruct size as [[z|]|]; try exact H1024.
  destruct (existsb (Z.eqb z) TextureManager.sizes) eqn:E; [|exact H1024].
  apply existsb_exists in E as (y & Hy & Ey). apply Z.eqb_eq in Ey. subst. exact Hy.
Qed.

Lemma _allocate_well_sized stack width height tm w :
  well_sized tm ->
  well_sized (snd (fst (TextureManager._allocate stack width height tm w))).
Proof.
  intros [Hs Hks].
  pose proof (_allocate_cases stack width height tm w) as Hc.
  pose proof (_allocate_frame stack width height tm w) as Hf.
  destruct (TextureManager._allocate _ _ _ _ _) as [[c tm1] w1]. simpl.
  destruct Hf as (Es & _ & _ & _).
  unfold well_sized. rewrite Es. split; [exact Hs|].
  assert (Hnode : forall k k' w0 w' res,
    Knapsack.allocateNode stack (TextureManager.debug tm) width height k w0 = (k', w', res) ->
    Knapsack.textureSize k = TextureManager.size tm /\
    rectangle (Knapsack.rootNode k)
      = KnapsackRectangle.mk 0 0 (TextureManager.size tm) (TextureManager.size tm) ->
    Knapsack.textureSize k' = TextureManager.size tm /\
    rectangle (Knapsack.rootNode k')
      = KnapsackRectangle.mk 0 0 (TextureManager.size tm) (TextureManager.size tm)).
  { intros k k' w0 w' res Ha [E1 E2].
    apply allocateNode_found_root in Ha as [Ha Et].
    pose proof (allocate_rectangle stack (TextureManager.debug tm) width height
                  (Knapsack.textureSize k) (Knapsack.rootNode k) w0) as Hr.
    rewrite Ha in Hr. simpl in Hr. split; congruence. }
  destruct Hc as [(pre & k & post & k' & res & Eks & Eks' & _ & Ha & _ & _)
                 |(k' & res & _ & Eks' & Ha & _)].
  - rewrite Eks'. rewrite Eks in Hks.
    apply Forall_app in Hks as [Hpre Hpost]. inversion Hpost; subst.
    apply Forall_app. split; [exact Hpre|]. constructor; eauto.
  - rewrite Eks'. apply Forall_app. split; [exact Hks|].
    constructor; [|constructor]. eapply Hnode; [exact Ha|]. split; reflexivity.
Qed.

Lemma drain_well_sized stack : forall queue promises tm w,
  well_sized tm ->
  well_sized (snd (fst (TextureManager.drain stack queue promises tm w))).
Proof.
  induction queue as [|entry rest IH]; intros promises tm w H; simpl; [exact H|].
  pose proof (_allocate_well_sized stack (TextureManager.width entry)
                (TextureManager.height entry) tm w H) as Ha.
  destruct (TextureManager._allocate _ _ _ _ _) as [[[node|e] tm1] w1]; simpl in *.
  - apply IH. exact Ha.
  - exact Ha.
Qed.

Lemma exec_well_sized stack op s :
  well_sized (fst s) ->
  well_sized (fst (exec stack op s)) /\
  TextureManager.size (fst (exec stack op s)) = TextureManager.size (fst s).
Proof.
  destruct s as [tm w]. simpl. intros H.
  destruct op as [a b|a b|a b| |node|flag]; simpl.
  - unfold TextureManager.allocate.
    destruct (TextureManager._validateSize a b tm); [|auto].
    pose proof (_allocate_well_sized stack a b tm w H) as Ha.
    pose proof (_allocate_frame stack a b tm w) as Hf.
    destruct (TextureManager._allocate _ _ _ _ _) as [[c tm1] w1]. simpl in *. tauto.
  - unfold TextureManager.allocateNode. simpl.
    destruct (TextureManager._validateSize a b tm); [|auto].
    pose proof (_allocate_well_sized stack a b tm (snd (new_promise w)) H) as Ha.
    pose proof (_allocate_frame stack a b tm (snd (new_promise w))) as Hf.
    simpl in *.
    destruct (TextureManager._allocate _ _ _ _ _) as [[[?|?] tm1] w1]; simpl in *; tauto.
  - unfold TextureManager.allocateASync.
    destruct tm as [sz ks dbg [q|]]; simpl in *;
      destruct (TextureManager._validateSize _ _ _); simpl; auto.
  - unfold TextureManager.solveASync.
    destruct (TextureManager._queue tm) as [q|]; [|auto].
    pose proof (drain_well_sized stack q [] tm w H) as Hd.
    pose proof (drain_frame stack q [] tm w) as Hf.
    destruct (TextureManager.drain _ _ _ _ _) as [[[l|e] tm1] w1]; simpl in *;
      destruct Hf as (Es & _); auto.
  - unfold TextureManager.release. destruct node as [ref|]; [|auto].
    destruct (nth_error _ _) as [k|] eqn:Ek; [|auto].
    destruct (release_at _ _ _) as [[root|e] w1] eqn:Er; [|auto].
    simpl. split; [|reflexivity].
    destruct H as [Hs Hks]. split; [exact Hs|]. simpl.
    apply release_at_keeps in Er as [Hp _]. apply persists_rectangle in Hp.
    assert (Hk : Knapsack.textureSize k = TextureManager.size tm /\
                 rectangle (Knapsack.rootNode k)
                   = KnapsackRectangle.mk 0 0 (TextureManager.size tm) (TextureManager.size tm)).
    { rewrite Forall_forall in Hks. apply Hks. eapply nth_error_In; eauto. }
    clear Ek. revert Hks. generalize (knapsack_index ref) as i.
    induction (TextureManager.knapsacks tm) as [|k0 ks IH]; intros [|i] Hks; simpl;
      try exact Hks; inversion Hks; subst; constructor; auto.
    simpl. split; [tauto|]. rewrite Hp. tauto.
  - auto.
Qed.

Lemma run_well_sized stack : forall ops s,
  well_sized (fst s) ->
  well_sized (fst (run stack ops s)) /\
  TextureManager.size (fst (run stack ops s)) = TextureManager.size (fst s).
Proof.
  induction ops as [|op rest IH]; intros s H; simpl; [auto|].
  destruct (exec_well_sized stack op s H) as [H1 E1].
  destruct (IH (exec stack op s) H1) as [H2 E2].
  unfold run in *. simpl. split; [exact H2|congruence].
Qed.

(** X4: whatever is called on a manager, with whatever sizes, its texture
    size stays the one set by the constructor, one of the eight accepted
    sizes (1024 when the argument is none of them), and every knapsack is a
    square of that size with its root node covering it. *)
Theorem sizes_are_fixed_by_the_constructor stack size ops w :
  well_sized (fst (run stack ops (TextureManager.new size, w))) /\
  TextureManager.size (fst (run stack ops (TextureManager.new size, w)))
    = match size with
      | Some (Int z) => if existsb (Z.eqb z) TextureManager.sizes then z else 1024
      | _ => 1024
      end.
Proof.
  destruct (run_well_sized stack ops (TextureManager.new size, w) (new_well_sized size))
    as [H E].
  split; [exact H|]. rewrite E. reflexivity.
Qed.

End WellSized.

(** * Nodes do not overlap *)

Section Disjoint.

Import KnapsackNode Tree Client Sizes Surfaces.

(** In a tree whose branches are partitioned, a node lies within every node
    above it. *)
Lemma node_inside_root p : forall t n x y,
  Tree.branches_ok t -> node_at p t = Some n ->
  inside (rectangle n) x y -> inside (rectangle t) x y.
Proof.
  induction p as [|dp p IH]; intros t n x y Hok Hat Hin.
  - simpl in Hat. inversion Hat; subst. exact Hin.
  - destruct t as [|r i tx a b]; [destruct dp; discriminate|].
    simpl in Hok. destruct Hok as (_ & Hpart & Ha & Hb).
    destruct (Hpart x y) as [Hcover _]. simpl. apply Hcover.
    destruct dp; simpl in Hat; [left|right]; eapply IH; eauto.
Qed.

(** Two leaves at different places of such a tree share no pixel. *)
Lemma leaves_disjoint p : forall q t n m x y,
  Tree.branches_ok t ->
  node_at p t = Some n -> node_at q t = Some m ->
  hasChildren n = false -> hasChildren m = false -> p <> q ->
  ~ (inside (rectangle n) x y /\ inside (rectangle m) x y).
Proof.
  induction p as [|dp p IH]; intros q t n m x y Hok Hp Hq Hn Hm Hne.
  - simpl in Hp. inversion Hp; subst.
    destruct q as [|dq q]; [congruence|].
    destruct n; [destruct dq; discriminate|discriminate].
  - destruct t as [|r i tx a b]; [destruct dp; discriminate|].
    destruct q as [|dq q]; [simpl in Hq; inversion Hq; subst; discriminate|].
    simpl in Hok. destruct Hok as (_ & Hpart & Ha & Hb).
    destruct (Hpart x y) as [_ Hdisj].
    destruct dp, dq; simpl in Hp, Hq.
    + apply (IH q a n m x y Ha Hp Hq Hn Hm).
      intros E; apply Hne; rewrite E; reflexivity.
    + intros [H1 H2]. apply Hdisj. split; eapply node_inside_root; eauto.
    + intros [H1 H2]. apply Hdisj. split; eapply node_inside_root; eauto.
    + apply (IH q b n m x y Hb Hp Hq Hn Hm).
      intros E; apply Hne; rewrite E; reflexivity.
Qed.

(** X5: however a program allocates and releases with positive integer
    sizes, two leaves at different places of one knapsack share no pixel,
    and every node lies within the square of its knapsack. *)
Theorem nodes_do_not_overlap stack size w ops ref1 ref2 n1 n2 :
  Forall positive_sizes ops ->
  TextureManager.node ref1 (fst (run stack ops (TextureManager.new size, w))) = Some n1 ->
  TextureManager.node ref2 (fst (run stack ops (TextureManager.new size, w))) = Some n2 ->
  (forall x y,
     inside (rectangle n1) x y ->
     0 <= x < TextureManager.size (fst (run stack ops (TextureManager.new size, w))) /\
     0 <= y < TextureManager.size (fst (run stack ops (TextureManager.new size, w)))) /\
  (knapsack_index ref1 = knapsack_index ref2 -> path ref1 <> path ref2 ->
   hasChildren n1 = false -> hasChildren n2 = false ->
   forall x y, ~ (inside (rectangle n1) x y /\ inside (rectangle n2) x y)).
Proof.
  intros Hpos H1 H2.
  destruct (run_keeps stack ops (TextureManager.new size, w) Hpos) as (Hok & _ & _).
  { constructor. }
  { intros queue E. discriminate E. }
  destruct (run_well_sized stack ops (TextureManager.new size, w) (new_well_sized size))
    as [[_ Hsz] _].
  revert H1 H2 Hok Hsz.
  generalize (fst (run stack ops (TextureManager.new size, w))) as tm.
  intros tm H1 H2 Hok Hsz. unfold TextureManager.node in *.
  destruct (nth_error (TextureManager.knapsacks tm) (knapsack_index ref1)) as [k1|] eqn:E1;
    [|discriminate].
  assert (Hk1 : Tree.branches_ok (Knapsack.rootNode k1)).
  { unfold branches_ok in Hok. rewrite Forall_forall in Hok.
    apply Hok. eapply nth_error_In; eauto. }
  split.
  - intros x y Hin.
    pose proof (node_inside_root _ _ _ x y Hk1 H1 Hin) as Hroot.
    rewrite Forall_forall in Hsz. destruct (Hsz k1 (nth_error_In _ _ E1)) as [_ Er].
    rewrite Er in Hroot. exact Hroot.
  - intros Ei Hne Hl1 Hl2 x y. rewrite <- Ei, E1 in H2.
    eapply leaves_disjoint; eauto.
Qed.

Lemma nodes_do_not_overlap_witness :
  (forall x y,
     inside (KnapsackRectangle.mk 0 0 100 50) x y ->
     0 <= x < TextureManager.size
                (fst (run 8 Programs.reuse (TextureManager.new (Some (Int 1024)), World0))) /\
     0 <= y < TextureManager.size
                (fst (run 8 Programs.reuse (TextureManager.new (Some (Int 1024)), World0)))) /\
  (0%nat = 0%nat -> [L; L] <> [L; R; L; L] ->
   false = false -> false = false ->
   forall x y, ~ (inside (KnapsackRectangle.mk 0 0 100 50) x y /\
                  inside (KnapsackRectangle.mk 100 0 110 10) x y)).
Proof.
  apply (nodes_do_not_overlap 8 (Some (Int 1024)) World0 Programs.reuse
           (mkRef 0 [L; L]) (mkRef 0 [L; R; L; L])
           (Leaf (KnapsackRectangle.mk 0 0 100 50) (Some 5%nat) None)
           (Leaf (KnapsackRectangle.mk 100 0 110 10) (Some 2%nat) None)).
  - repeat constructor.
  - vm_compute. reflexivity.
  - vm_compute. reflexivity.
Defined.

End Disjoint.

(** * Release and allocate again *)

Section Reuse.

Import KnapsackNode Tree.

Lemma replace_at_twice p : forall t m1 m2,
  replace_at p m2 (replace_at p m1 t) = replace_at p m2 t.
Proof.
  induction p as [|[|] p IH]; intros t m1 m2; simpl; [reflexivity| |];
    destruct t; simpl; rewrite ?IH; reflexivity.
Qed.

(** Where an allocation found room it finds room again, for the same size,
    once the leaf it handed back is free. *)
Lemma allocate_again stack d sz width height : forall this w this' w' p,
  allocate stack d sz width height this w = (this', w', Found p) ->
  forall n x0 d2 w2,
    node_at p this' = Some n ->
    exists t3 w3,
      allocate stack d2 sz width height
               (replace_at p (Leaf (rectangle n) None x0) this') w2
        = (t3, w3, Found p).
Proof.
  induction stack as [|stack IH]; intros this w this' w' p H n x0 d2 w2 Hn; simpl in H.
  - discriminate.
  - destruct this as [r i x|r i x a b].
    + destruct (isOccupied (Leaf r i x)) eqn:Eo; [discriminate|].
      destruct (gt width _ || gt height _) eqn:Eg; [discriminate|].
      destruct (strict_eq width _ && strict_eq height _) eqn:Ee.
      * pose proof (claim_node d (Leaf r i x) w) as Hc.
        destruct (claim d (Leaf r i x) w) as [n1 w1]. simpl in Hc.
        inversion H; subst; clear H. simpl in Hn. inversion Hn; subst; clear Hn.
        simpl. unfold KnapsackNode.width, KnapsackNode.height in *. simpl in *.
        rewrite Eg, Ee. destruct (claim d2 (Leaf r None x0) w2). eauto.
      * destruct (split r width height) as [rl rr].
        match type of H with context [allocate stack d sz width height ?t ?w0] =>
          destruct (allocate stack d sz width height t w0) as [[a' w3] res] eqn:E end.
        destruct res as [q| |]; inversion H; subst; clear H.
        simpl in Hn. simpl.
        destruct (IH _ _ _ _ _ E n x0 d2 w2 Hn) as (t3 & w4 & E3). rewrite E3.
        destruct (claim_at d2 q t3 w4). eauto.
    + destruct (allocate stack d sz width height a w) as [[a' w1] res] eqn:E.
      destruct res as [q| |].
      * pose proof (allocate_found _ _ _ _ _ _ _ _ _ _ E) as (m & Hat & _).
        rewrite (claim_at_replace _ _ _ _ _ Hat) in H.
        inversion H; subst; clear H. simpl in Hn.
        rewrite (node_at_replace _ _ _ _ Hat) in Hn. inversion Hn; subst; clear Hn.
        simpl. rewrite replace_at_twice.
        assert (Er : rectangle (fst (claim d m w1)) = rectangle m)
          by (rewrite claim_node; destruct m; reflexivity).
        rewrite Er.
        destruct (IH _ _ _ _ _ E m x0 d2 w2 Hat) as (t3 & w4 & E3). rewrite E3.
        destruct (claim_at d2 q t3 w4). eauto.
      * destruct (allocate stack d sz width height b w1) as [[b' w3] res] eqn:E2.
        destruct res as [q| |]; inversion H; subst; clear H.
        simpl in Hn. simpl.
        pose proof (allocate_null_same _ _ _ _ _ _ _ _ _ E) as [Ea Ew1]. subst a' w1.
        pose proof (allocate_result_world stack d2 d sz width height a w2 w) as Ew.
        rewrite E in Ew.
        destruct (allocate stack d2 sz width height a w2) as [[a2 w4] res2] eqn:E4.
        simpl in Ew. subst res2.
        apply allocate_null_same in E4 as [-> ->].
        destruct (IH _ _ _ _ _ E2 n x0 d2 w2 Hn) as (t3 & w5 & E3). rewrite E3. eauto.
      * discriminate.
Qed.


Lemma no_room_world stack d1 d2 width height w1 w2 k :
  no_room stack d1 width height w1 k = no_room stack d2 width height w2 k.
Proof.
  unfold no_room, Knapsack.allocateNode.
  pose proof (allocate_result_world stack d1 d2 (Knapsack.textureSize k) width height
                (Knapsack.rootNode k) w1 w2) as E.
  destruct (allocate stack d1 _ _ _ _ w1) as [[? ?] r1].
  destruct (allocate stack d2 _ _ _ _ w2) as [[? ?] r2].
  simpl in E. subst. reflexivity.
Qed.

Lemma forallb_no_room_world stack d1 d2 width height w1 w2 : forall ks,
  forallb (no_room stack d1 width height w1) ks
  = forallb (no_room stack d2 width height w2) ks.
Proof.
  induction ks as [|k ks IH]; simpl; [reflexivity|].
  rewrite IH, (no_room_world stack d1 d2 width height w1 w2 k). reflexivity.
Qed.

(** The scan stops at a knapsack with room when those before it have none. *)
Lemma scan_finds stack d width height : forall pre i k post w k' w' p,
  forallb (no_room stack d width height w) pre = true ->
  Knapsack.allocateNode stack d width height k w = (k', w', Found p) ->
  TextureManager.scan stack d width height i (pre ++ k :: post) w
    = (pre ++ k' :: post, w', Found (mkRef (i + List.length pre) p)).
Proof.
  induction pre as [|k0 pre IH]; intros i k post w k' w' p Hpre Ha; simpl.
  - rewrite Ha, Nat.add_0_r. reflexivity.
  - simpl in Hpre. apply andb_prop in Hpre as [Hk0 Hpre].
    unfold no_room in Hk0.
    destruct (Knapsack.allocateNode stack d width height k0 w) as [[k0' w0] res] eqn:E0.
    destruct res; try discriminate.
    apply allocateNode_null_same in E0 as [-> ->].
    rewrite (IH (S i) k post w k' w' p Hpre Ha), Nat.add_succ_r. reflexivity.
Qed.

(** Where the node of a successful [_allocate] sits. *)
Lemma _allocate_found_shape stack width height tm w ref tm1 w1 :
  TextureManager._allocate stack width height tm w = (Normal (Some ref), tm1, w1) ->
  exists pre k0 k' post w0,
    TextureManager.knapsacks tm1 = pre ++ k' :: post /\
    ref = mkRef (List.length pre) (path ref) /\
    forallb (no_room stack (TextureManager.debug tm) width height w) pre = true /\
    Knapsack.allocateNode stack (TextureManager.debug tm) width height k0 w0
      = (k', w1, Found (path ref)).
Proof.
  intros H. pose proof (_allocate_cases stack width height tm w) as Hc.
  rewrite H in Hc.
  destruct Hc as [(pre & k & post & k' & res & Hks & Hks' & Hpre & Ha & Hne & Hc)
                 |(k' & res & Hall & Hks' & Ha & Hc)];
    destruct res as [p| |]; try discriminate; inversion Hc; subst; clear Hc; simpl.
  - exists pre, k, k', post, w. auto.
  - eexists (TextureManager.knapsacks tm), _, k', [], _.
    split; [exact Hks'|]. split; [reflexivity|]. split; [exact Hall|exact Ha].
Qed.

Lemma set_nth_middle {A : Type} (a b : A) : forall pre post,
  TextureManager.set_nth (List.length pre) b (pre ++ a :: post) = pre ++ b :: post.
Proof. induction pre as [|x pre IH]; intros post; simpl; [|rewrite IH]; reflexivity. Qed.

(** X6: a node handed back by [allocate] can be released, and the same
    request then gets that very node again: no other node is taken and no
    knapsack is added. *)
Theorem release_then_allocate_reuses_the_node stack width height tm w ref tm1 w1 :
  TextureManager.allocate stack width height tm w = (Normal (Some ref), tm1, w1) ->
  exists tm2 w2,
    TextureManager.release (Some ref) tm1 w1 = (Normal tt, tm2, w2) /\
    exists tm3 w3,
      TextureManager.allocate stack width height tm2 w2 = (Normal (Some ref), tm3, w3) /\
      List.length (TextureManager.knapsacks tm3) = List.length (TextureManager.knapsacks tm1).
Proof.
  unfold TextureManager.allocate at 1.
  destruct (TextureManager._validateSize width height tm) eqn:Ev; [|discriminate].
  intros H.
  pose proof (_allocate_frame stack width height tm w) as Hf. rewrite H in Hf.
  destruct Hf as (Es & Ed & _ & _).
  destruct (_allocate_found_shape _ _ _ _ _ _ _ _ H)
    as (pre & k0 & k' & post & w0 & Hks & Href & Hpre & Ha).
  apply allocateNode_found_root in Ha as [Ha Et].
  pose proof (allocate_found _ _ _ _ _ _ _ _ _ _ Ha) as (n & Hat & Hleaf & _).
  destruct ref as [idx p]. simpl in *. inversion Href; subst idx; clear Href.
  unfold TextureManager.release. simpl. rewrite Hks.
  rewrite nth_error_app2, Nat.sub_diag by lia. simpl.
  rewrite (release_at_replace _ _ _ w1 Hat).
  unfold release. rewrite Hleaf.
  do 2 eexists. split; [reflexivity|].
  rewrite set_nth_middle.
  destruct n as [rn i_n xn|]; [|discriminate]. simpl.
  match goal with |- context [clear ?m ?u] => set (w2 := clear m u) end.
  destruct (allocate_again _ _ _ _ _ _ _ _ _ _ Ha (Leaf rn i_n xn) None
              (TextureManager.debug tm) w2 Hat) as (t3 & w3 & E3).
  simpl in E3.
  unfold TextureManager.allocate.
  assert (Ev2 : forall tmx, TextureManager.size tmx = TextureManager.size tm ->
                  TextureManager._validateSize width height tmx = Normal a).
  { intros tmx E. revert Ev. unfold TextureManager._validateSize, TextureManager.textureSize.
    rewrite E. auto. }
  rewrite Ev2 by (simpl; exact Es).
  unfold TextureManager._allocate. simpl. rewrite Ed.
  erewrite (scan_finds _ _ _ _ pre 0%nat _ post w2
              (Knapsack.mk (Knapsack.textureSize k0) t3) w3 p).
  - do 2 eexists. split; [reflexivity|]. simpl. rewrite !length_app. reflexivity.
  - rewrite <- Hpre. apply forallb_no_room_world.
  - unfold Knapsack.allocateNode. simpl. rewrite Et, E3. reflexivity.
Qed.

Lemma release_then_allocate_reuses_the_node_witness :
  exists tm2 w2,
    TextureManager.release (Some (mkRef 0 [L; R; L; L]))
        (snd (fst (TextureManager.allocate 8 (Int 10) (Int 10)
                     (fst Scenario.one_sprite) (snd Scenario.one_sprite))))
        (snd (TextureManager.allocate 8 (Int 10) (Int 10)
                (fst Scenario.one_sprite) (snd Scenario.one_sprite)))
      = (Normal tt, tm2, w2) /\
    exists tm3 w3,
      TextureManager.allocate 8 (Int 10) (Int 10) tm2 w2
        = (Normal (Some (mkRef 0 [L; R; L; L])), tm3, w3) /\
      List.length (TextureManager.knapsacks tm3)
        = List.length (TextureManager.knapsacks
            (snd (fst (TextureManager.allocate 8 (Int 10) (Int 10)
                         (fst Scenario.one_sprite) (snd Scenario.one_sprite))))).
Proof.
  apply (release_then_allocate_reuses_the_node 8 (Int 10) (Int 10)
           (fst Scenario.one_sprite) (snd Scenario.one_sprite)).
  vm_compute. reflexivity.
Defined.

End Reuse.

(** * The debug flag *)


Section DebugFacts.

Import KnapsackNode Tree Client Debug.

Local Ltac pack := unfold same_packing, same_ids in *; simpl in *; intuition congruence.

Lemma claim_same d1 d2 n w1 w2 :
  same_ids w1 w2 ->
  fst (claim d1 n w1) = fst (claim d2 n w2) /\
  same_ids (snd (claim d1 n w1)) (snd (claim d2 n w2)).
Proof.
  intros (Eu & Ep & Es). rewrite !claim_node, Eu. split; [reflexivity|].
  unfold claim, same_ids; simpl. destruct d1, d2; simpl; auto.
Qed.

Lemma claim_at_same d1 d2 p : forall n w1 w2,
  same_ids w1 w2 ->
  fst (claim_at d1 p n w1) = fst (claim_at d2 p n w2) /\
  same_ids (snd (claim_at d1 p n w1)) (snd (claim_at d2 p n w2)).
Proof.
  induction p as [|[|] q IH]; intros n w1 w2 H; simpl.
  - apply claim_same. exact H.
  - destruct n as [|r i x a b]; [auto|]. specialize (IH a w1 w2 H).
    destruct (claim_at d1 q a w1), (claim_at d2 q a w2). simpl in *.
    destruct IH as [-> ?]. auto.
  - destruct n as [|r i x a b]; [auto|]. specialize (IH b w1 w2 H).
    destruct (claim_at d1 q b w1), (claim_at d2 q b w2). simpl in *.
    destruct IH as [-> ?]. auto.
Qed.

(** With or without [debug], an allocation builds the same tree, hands back
    the same node and generates the same identifiers. *)
Lemma allocate_same stack d1 d2 sz width height : forall this w1 w2,
  same_ids w1 w2 ->
  match allocate stack d1 sz width height this w1,
        allocate stack d2 sz width height this w2 with
  | (t1, u1, r1), (t2, u2, r2) => t1 = t2 /\ r1 = r2 /\ same_ids u1 u2
  end.
Proof.
  induction stack as [|stack IH]; intros this w1 w2 H; simpl; [auto|].
  destruct this as [r i x|r i x a b].
  - destruct (isOccupied _); [auto|].
    destruct (_ || _); [auto|].
    destruct (_ && _).
    + pose proof (claim_same d1 d2 (Leaf r i x) w1 w2 H) as Hc.
      destruct (claim d1 _ w1), (claim d2 _ w2). simpl in *.
      destruct Hc as [-> ?]. auto.
    + destruct (split r width height) as [rl rr].
      match goal with
        |- context [allocate stack d1 sz width height ?t ?u1] =>
        match goal with
          |- context [allocate stack d2 sz width height t ?u2] =>
          assert (Hu : same_ids u1 u2) by (destruct d1, d2; exact H);
          pose proof (IH t u1 u2 Hu) as E;
          destruct (allocate stack d1 sz width height t u1) as [[? ?] ?];
          destruct (allocate stack d2 sz width height t u2) as [[? ?] ?]
        end
      end.
      destruct E as (-> & -> & ?). auto.
  - pose proof (IH a w1 w2 H) as Ea.
    destruct (allocate stack d1 sz width height a w1) as [[a1 u1] res1].
    destruct (allocate stack d2 sz width height a w2) as [[a2 u2] res2].
    destruct Ea as (-> & -> & Hu). destruct res2 as [p| |].
    + pose proof (claim_at_same d1 d2 p a2 u1 u2 Hu) as Hc.
      destruct (claim_at d1 p a2 u1), (claim_at d2 p a2 u2). simpl in *.
      destruct Hc as [-> ?]. auto.
    + pose proof (IH b u1 u2 Hu) as Eb.
      destruct (allocate stack d1 sz width height b u1) as [[? ?] ?].
      destruct (allocate stack d2 sz width height b u2) as [[? ?] ?].
      destruct Eb as (-> & -> & ?). auto.
    + auto.
Qed.

Lemma scan_same stack d1 d2 width height : forall ks i w1 w2,
  same_ids w1 w2 ->
  match TextureManager.scan stack d1 width height i ks w1,
        TextureManager.scan stack d2 width height i ks w2 with
  | (k1, u1, r1), (k2, u2, r2) => k1 = k2 /\ r1 = r2 /\ same_ids u1 u2
  end.
Proof.
  induction ks as [|k rest IH]; intros i w1 w2 H; simpl; [auto|].
  unfold Knapsack.allocateNode.
  pose proof (allocate_same stack d1 d2 (Knapsack.textureSize k) width height
                (Knapsack.rootNode k) w1 w2 H) as Ea.
  destruct (allocate stack d1 _ _ _ _ w1) as [[t1 u1] r1].
  destruct (allocate stack d2 _ _ _ _ w2) as [[t2 u2] r2].
  destruct Ea as (-> & -> & Hu). destruct r2 as [p| |]; auto.
  specialize (IH (S i) u1 u2 Hu).
  destruct (TextureManager.scan stack d1 _ _ _ _ u1) as [[? ?] ?].
  destruct (TextureManager.scan stack d2 _ _ _ _ u2) as [[? ?] ?].
  destruct IH as (-> & -> & ?). auto.
Qed.

Lemma _allocate_same stack width height tm1 w1 tm2 w2 :
  same_packing (tm1, w1) (tm2, w2) ->
  match TextureManager._allocate stack width height tm1 w1,
        TextureManager._allocate stack width height tm2 w2 with
  | (c1, tm1', w1'), (c2, tm2', w2') =>
      c1 = c2 /\ same_packing (tm1', w1') (tm2', w2')
  end.
Proof.
  intros (Es & Ek & Eq & Hw). simpl in *.
  unfold TextureManager._allocate. rewrite Ek.
  pose proof (scan_same stack (TextureManager.debug tm1) (TextureManager.debug tm2)
                width height (TextureManager.knapsacks tm2) 0%nat w1 w2 Hw) as Hs.
  destruct (TextureManager.scan stack (TextureManager.debug tm1) _ _ _ _ w1)
    as [[ks1 u1] r1].
  destruct (TextureManager.scan stack (TextureManager.debug tm2) _ _ _ _ w2)
    as [[ks2 u2] r2].
  destruct Hs as (-> & -> & Hu).
  destruct r2 as [r| |]; try (split; [reflexivity|pack]).
  unfold TextureManager._addKnapsack, Knapsack.allocateNode, TextureManager.textureSize.
  simpl. rewrite Es.
  match goal with
    |- context [allocate stack (TextureManager.debug tm1) _ width height ?t ?v1] =>
    match goal with
      |- context [allocate stack (TextureManager.debug tm2) _ width height t ?v2] =>
      assert (Hv : same_ids v1 v2)
        by (destruct (TextureManager.debug tm1), (TextureManager.debug tm2); exact Hu);
      pose proof (allocate_same stack (TextureManager.debug tm1) (TextureManager.debug tm2)
                    (TextureManager.size tm2) width height t v1 v2 Hv) as Ea;
      destruct (allocate stack (TextureManager.debug tm1) (TextureManager.size tm2)
                         width height t v1) as [[t1 x1] q1];
      destruct (allocate stack (TextureManager.debug tm2) (TextureManager.size tm2)
                         width height t v2) as [[t2 x2] q2]
    end
  end.
  destruct Ea as (-> & -> & Hx).
  destruct q2; (split; [reflexivity|pack]).
Qed.

Lemma settle_same p s w1 w2 : same_ids w1 w2 -> same_ids (settle p s w1) (settle p s w2).
Proof.
  intros (Eu & Ep & Es). unfold settle, settled. rewrite Es.
  destruct (find _ _); repeat split; simpl; congruence.
Qed.

Local Ltac pack_settle :=
  unfold same_packing in *; simpl in *;
  repeat match goal with |- _ /\ _ => split end;
  try apply settle_same;
  unfold same_ids in *; simpl in *; intuition congruence.

Lemma validate_same width height tm1 tm2 :
  TextureManager.size tm1 = TextureManager.size tm2 ->
  TextureManager._validateSize width height tm1
  = TextureManager._validateSize width height tm2.
Proof.
  intros E. unfold TextureManager._validateSize, TextureManager.textureSize.
  rewrite E. reflexivity.
Qed.

Lemma drain_same stack : forall queue promises tm1 w1 tm2 w2,
  same_packing (tm1, w1) (tm2, w2) ->
  match TextureManager.drain stack queue promises tm1 w1,
        TextureManager.drain stack queue promises tm2 w2 with
  | (c1, tm1', w1'), (c2, tm2', w2') =>
      c1 = c2 /\ same_packing (tm1', w1') (tm2', w2')
  end.
Proof.
  induction queue as [|entry rest IH]; intros promises tm1 w1 tm2 w2 H; simpl; [auto|].
  pose proof (_allocate_same stack (TextureManager.width entry)
                (TextureManager.height entry) tm1 w1 tm2 w2 H) as Ha.
  destruct (TextureManager._allocate stack _ _ tm1 w1) as [[c1 tm1'] w1'].
  destruct (TextureManager._allocate stack _ _ tm2 w2) as [[c2 tm2'] w2'].
  destruct Ha as (-> & Hs). destruct c2 as [node|e]; [|auto].
  apply IH. pack_settle.
Qed.

Lemma release_at_same p : forall n w1 w2,
  same_ids w1 w2 ->
  fst (release_at p n w1) = fst (release_at p n w2) /\
  same_ids (snd (release_at p n w1)) (snd (release_at p n w2)).
Proof.
  induction p as [|[|] q IH]; intros n w1 w2 H; simpl.
  - unfold release. destruct (hasChildren n); [auto|]. simpl. split; [reflexivity|].
    unfold clear. destruct (_texture n); exact H.
  - destruct n as [|r i x a b]; [auto|]. specialize (IH a w1 w2 H).
    destruct (release_at q a w1) as [[?|?] ?], (release_at q a w2) as [[?|?] ?];
      simpl in *; destruct IH as [E ?]; inversion E; subst; auto.
  - destruct n as [|r i x a b]; [auto|]. specialize (IH b w1 w2 H).
    destruct (release_at q b w1) as [[?|?] ?], (release_at q b w2) as [[?|?] ?];
      simpl in *; destruct IH as [E ?]; inversion E; subst; auto.
Qed.

(** The same call made on two states with the same packing leaves states
    with the same packing. *)
Lemma exec_same stack op s1 s2 :
  same_packing s1 s2 -> same_packing (exec stack op s1) (exec stack op s2).
Proof.
  destruct s1 as [tm1 w1], s2 as [tm2 w2]. intros H.
  destruct op as [a b|a b|a b| |node|flag]; simpl.
  - unfold TextureManager.allocate.
    rewrite (validate_same a b tm1 tm2) by apply H.
    destruct (TextureManager._validateSize a b tm2); [|exact H].
    pose proof (_allocate_same stack a b tm1 w1 tm2 w2 H) as Ha.
    destruct (TextureManager._allocate stack a b tm1 w1) as [[c1 tm1'] w1'].
    destruct (TextureManager._allocate stack a b tm2 w2) as [[c2 tm2'] w2'].
    apply Ha.
  - unfold TextureManager.allocateNode. simpl.
    rewrite (validate_same a b tm1 tm2) by apply H.
    assert (Ep : next_promise w1 = next_promise w2) by apply H.
    destruct (TextureManager._validateSize a b tm2).
    + pose proof (_allocate_same stack a b tm1 (snd (new_promise w1))
                    tm2 (snd (new_promise w2))) as Ha. simpl in Ha.
      destruct (TextureManager._allocate stack a b tm1 _) as [[c1 tm1'] w1'].
      destruct (TextureManager._allocate stack a b tm2 _) as [[c2 tm2'] w2'].
      destruct Ha as (-> & Hs); [pack|].
      rewrite Ep. destruct c2; pack_settle.
    + rewrite Ep. pack_settle.
  - unfold TextureManager.allocateASync.
    assert (Ep : next_promise w1 = next_promise w2) by apply H.
    destruct tm1 as [sz1 ks1 d1 q1], tm2 as [sz2 ks2 d2 q2].
    assert (Esz : sz1 = sz2) by apply H. assert (Eq : q1 = q2) by apply H. subst.
    unfold TextureManager._validateSize, TextureManager.textureSize. simpl. rewrite Ep.
    destruct q2 as [q|]; simpl;
      destruct (gt a (Int sz2)); simpl; try destruct (gt b (Int sz2)); simpl;
      pack_settle.
  - unfold TextureManager.solveASync.
    assert (Eq : TextureManager._queue tm1 = TextureManager._queue tm2) by apply H.
    rewrite Eq.
    destruct (TextureManager._queue tm2) as [q|]; [|exact H].
    pose proof (drain_same stack q [] tm1 w1 tm2 w2 H) as Hd.
    destruct (TextureManager.drain stack q [] tm1 w1) as [[c1 tm1'] w1'].
    destruct (TextureManager.drain stack q [] tm2 w2) as [[c2 tm2'] w2'].
    destruct Hd as (-> & Hs).
    destruct c2; [|exact Hs]. pack.
  - unfold TextureManager.release. destruct node as [ref|]; [|exact H].
    assert (Ek : TextureManager.knapsacks tm1 = TextureManager.knapsacks tm2) by apply H.
    assert (Hw : same_ids w1 w2) by apply H.
    rewrite Ek.
    destruct (nth_error _ _) as [k|]; [|exact H].
    pose proof (release_at_same (path ref) (Knapsack.rootNode k) w1 w2 Hw) as [E Hr].
    destruct (release_at _ _ w1) as [[?|?] ?], (release_at _ _ w2) as [[?|?] ?];
      simpl in *; inversion E; subst; pack.
  - pack.
Qed.

Lemma run_same stack : forall ops s1 s2,
  same_packing s1 s2 ->
  same_packing (run stack ops s1)
               (run stack (filter (fun op => negb (is_setDebug op)) ops) s2).
Proof.
  induction ops as [|op rest IH]; intros s1 s2 H; simpl; [exact H|].
  unfold run in *. simpl.
  destruct (is_setDebug op) eqn:Eop; simpl.
  - apply IH. destruct op; try discriminate. destruct s1, s2. exact H.
  - apply IH. apply exec_same. exact H.
Qed.

End DebugFacts.

(** * Sizes that are not numbers, refused requests, a second solve *)

Section NotANumber.

Import KnapsackNode Tree Conditions.

(** A request with a size that is not a number is never an exact fit. *)
Lemma allocate_nan_not_found stack d sz width height : forall this w this' w' p,
  width = NaN \/ height = NaN ->
  allocate stack d sz width height this w <> (this', w', Found p).
Proof.
  intros this w this' w' p Hnan H.
  apply allocate_found in H as (n & _ & _ & Ew & Eh & _).
  destruct Hnan; subst; discriminate.
Qed.

(** X8: a width or height that is not a number never gets a node.  When the
    other size is not too large the request passes the size check, and the
    allocation then splits leaf after leaf until the call stack is exhausted,
    however deep the stack is. *)
Theorem allocate_of_nan_exhausts_the_stack stack width height tm w :
  width = NaN \/ height = NaN ->
  gt width (Int (TextureManager.textureSize tm)) = false ->
  gt height (Int (TextureManager.textureSize tm)) = false ->
  fst (fst (TextureManager.allocate stack width height tm w)) = Abrupt StackExhausted.
Proof.
  intros Hnan Hw Hh. unfold TextureManager.allocate, TextureManager._validateSize.
  rewrite Hw, Hh.
  pose proof (_allocate_cases stack width height tm w) as Hc.
  destruct (TextureManager._allocate _ _ _ _ _) as [[c tm1] w1]. simpl.
  destruct Hc as [(pre & k & post & k' & res & _ & _ & _ & Ha & Hne & Hc)
                 |(k' & res & _ & _ & Ha & Hc)];
    apply allocateNode_found_root in Ha as [Ha _].
  - destruct res as [p| |]; [|contradiction|exact Hc].
    exfalso. exact (allocate_nan_not_found _ _ _ _ _ _ _ _ _ _ Hnan Ha).
  - destruct res as [p| |]; [| |exact Hc].
    + exfalso. exact (allocate_nan_not_found _ _ _ _ _ _ _ _ _ _ Hnan Ha).
    + exfalso. simpl in Ha. unfold KnapsackNode.new, KnapsackRectangle.new in Ha.
      simpl in Ha. eapply free_leaf_not_null; [| |exact Ha];
        unfold KnapsackRectangle.width, KnapsackRectangle.height; simpl;
        rewrite Z.sub_0_r; assumption.
Qed.

Lemma allocate_of_nan_exhausts_the_stack_witness :
  fst (fst (TextureManager.allocate 1000 NaN (Int 10)
              (fst Scenario.one_sprite) (snd Scenario.one_sprite)))
  = Abrupt StackExhausted.
Proof.
  apply (allocate_of_nan_exhausts_the_stack 1000 NaN (Int 10)
           (fst Scenario.one_sprite) (snd Scenario.one_sprite)).
  - left. reflexivity.
  - reflexivity.
  - reflexivity.
Defined.

(** X9: [allocateASync] with a width or height above the texture size
    returns a promise already rejected with the size error and queues
    nothing; the queue is an array from then on, and no knapsack is touched. *)
Theorem allocateASync_refuses_oversize width height tm w :
  gt width (Int (TextureManager.textureSize tm)) = true \/
  gt height (Int (TextureManager.textureSize tm)) = true ->
  fresh_promises w ->
  exists e tm' w',
    TextureManager.allocateASync width height tm w = (Normal (next_promise w), tm', w') /\
    (e = WidthTooLarge width \/ e = HeightTooLarge height) /\
    settled (next_promise w) w' = Some (Rejected e) /\
    TextureManager._queue tm'
      = Some (match TextureManager._queue tm with Some q => q | None => [] end) /\
    TextureManager.knapsacks tm' = TextureManager.knapsacks tm /\
    TextureManager.size tm' = TextureManager.size tm.
Proof.
  intros Hbig Hfresh.
  assert (He : forall tm0, TextureManager.size tm0 = TextureManager.size tm ->
     exists e, (e = WidthTooLarge width \/ e = HeightTooLarge height) /\
               TextureManager._validateSize width height tm0 = Abrupt e).
  { intros tm0 E. unfold TextureManager._validateSize, TextureManager.textureSize in *.
    rewrite E. destruct (gt width _) eqn:Ew; [eauto|].
    destruct Hbig as [Hb|Hb]; [discriminate|]. rewrite Hb. eauto. }
  unfold TextureManager.allocateASync. simpl.
  match goal with |- context [TextureManager._validateSize width height ?t] =>
    destruct (He t) as (e & Hsize & Hv);
      [destruct (TextureManager._queue tm); reflexivity|rewrite Hv] end.
  exists e. do 2 eexists. split; [reflexivity|]. split; [exact Hsize|]. split.
  - apply (settled_settle (next_promise w)). unfold settled; simpl.
    apply settled_fresh in Hfresh. exact Hfresh.
  - destruct tm as [sz ks dbg [q|]]; simpl; auto.
Qed.

Lemma allocateASync_refuses_oversize_witness :
  exists e tm' w',
    TextureManager.allocateASync (Int 10) (Int 5000) (TextureManager.new None) World0
      = (Normal (next_promise World0), tm', w') /\
    (e = WidthTooLarge (Int 10) \/ e = HeightTooLarge (Int 5000)) /\
    settled (next_promise World0) w' = Some (Rejected e) /\
    TextureManager._queue tm'
      = Some (match TextureManager._queue (TextureManager.new None) with
              | Some q => q | None => [] end) /\
    TextureManager.knapsacks tm' = TextureManager.knapsacks (TextureManager.new None) /\
    TextureManager.size tm' = TextureManager.size (TextureManager.new None).
Proof.
  apply (allocateASync_refuses_oversize (Int 10) (Int 5000) (TextureManager.new None) World0).
  - right. reflexivity.
  - intros p s H. simpl in H. contradiction.
Defined.

(** X10: once [solveASync] has returned, the queue is empty: calling it
    again returns the promise over no promise and changes nothing. *)
Theorem solveASync_again_does_nothing stack stack' tm w ps tm' w' :
  TextureManager.solveASync stack tm w = (Normal ps, tm', w') ->
  TextureManager._queue tm' = Some [] /\
  TextureManager.solveASync stack' tm' w' = (Normal [], tm', w').
Proof.
  unfold TextureManager.solveASync at 1.
  destruct (TextureManager._queue tm) as [q|]; [|discriminate].
  destruct (TextureManager.drain stack q [] tm w) as [[[l|e] tm1] w1]; [|discriminate].
  intros H; inversion H; subst; clear H.
  split; [reflexivity|]. unfold TextureManager.solveASync. simpl.
  destruct tm1; reflexivity.
Qed.

Lemma solveASync_again_does_nothing_witness :
  TextureManager._queue
    (snd (fst (TextureManager.solveASync 12 (fst Scenario.three_queued)
                 (snd Scenario.three_queued)))) = Some [] /\
  TextureManager.solveASync 3
      (snd (fst (TextureManager.solveASync 12 (fst Scenario.three_queued)
                   (snd Scenario.three_queued))))
      (snd (TextureManager.solveASync 12 (fst Scenario.three_queued)
              (snd Scenario.three_queued)))
    = (Normal [],
       snd (fst (TextureManager.solveASync 12 (fst Scenario.three_queued)
                   (snd Scenario.three_queued))),
       snd (TextureManager.solveASync 12 (fst Scenario.three_queued)
              (snd Scenario.three_queued))).
Proof.
  apply (solveASync_again_does_nothing 12 3 (fst Scenario.three_queued)
           (snd Scenario.three_queued) [0%nat; 1%nat; 2%nat]).
  vm_compute. reflexivity.
Defined.

End NotANumber.

(** * Deferred requests and requests one by one *)


Section DeferredFacts.

Import KnapsackNode Tree Conditions Client Batch Headroom Deferred.















End DeferredFacts.

(** * Nodes lie on the canvas *)


Section BoundsFacts.

Import KnapsackNode Tree Client Sizes Surfaces Bounds.

Lemma bounded_node sz n :
  bounded sz n <->
  within sz (rectangle n) /\ (imageID n <> None -> nonempty (rectangle n)) /\
  match n with
  | Leaf _ _ _ => True
  | Branch _ _ _ a b => bounded sz a /\ bounded sz b
  end.
Proof. destruct n; simpl; tauto. Qed.

Lemma node_at_bounded sz p : forall t n,
  bounded sz t -> node_at p t = Some n -> bounded sz n.
Proof.
  induction p as [|[|] q IH]; intros t n Hb Hat; simpl in Hat.
  - inversion Hat; subst. exact Hb.
  - destruct t as [|r i x a b]; [discriminate|]. simpl in Hb. apply (IH a); tauto.
  - destruct t as [|r i x a b]; [discriminate|]. simpl in Hb. apply (IH b); tauto.
Qed.

Lemma replace_at_bounded sz p : forall t m,
  bounded sz t -> bounded sz m -> bounded sz (replace_at p m t).
Proof.
  induction p as [|[|] q IH]; intros t m Ht Hm; simpl.
  - exact Hm.
  - destruct t as [|r i x a b]; [exact Ht|]. simpl in *.
    destruct Ht as (? & ? & ? & ?). auto.
  - destruct t as [|r i x a b]; [exact Ht|]. simpl in *.
    destruct Ht as (? & ? & ? & ?). auto.
Qed.

Lemma set_imageID_bounded sz i n :
  bounded sz n -> (i <> None -> nonempty (rectangle n)) -> bounded sz (set_imageID i n).
Proof. destruct n; simpl; tauto. Qed.

Lemma set_texture_bounded sz x n : bounded sz n -> bounded sz (set_texture x n).
Proof. destruct n; simpl; tauto. Qed.

(** The two rectangles of a split lie within the rectangle cut. *)
Lemma split_within sz r w h :
  within sz r -> 0 <= w <= KnapsackRectangle.width r ->
  0 <= h <= KnapsackRectangle.height r ->
  within sz (fst (split r (Int w) (Int h))) /\ within sz (snd (split r (Int w) (Int h))).
Proof.
  unfold split, KnapsackRectangle.width, KnapsackRectangle.height, within. simpl.
  intros Hr Hw Hh. destruct (_ <? _); simpl; lia.
Qed.

(** An allocation of positive sizes keeps the nodes on the canvas, and
    claims no empty node. *)
Lemma allocate_bounded stack d sz w h : 0 < w -> 0 < h -> forall this wd,
  bounded sz this ->
  bounded sz (fst (fst (allocate stack d sz (Int w) (Int h) this wd))).
Proof.
  intros Hw0 Hh0.
  induction stack as [|stack IH]; intros this wd Hb; simpl; [exact Hb|].
  destruct this as [r i x|r i x a b].
  - destruct i as [u|]; [exact Hb|]. simpl.
    unfold KnapsackNode.width, KnapsackNode.height; simpl.
    destruct (Z.ltb_spec (KnapsackRectangle.width r) w); [exact Hb|].
    destruct (Z.ltb_spec (KnapsackRectangle.height r) h); [exact Hb|]. simpl.
    destruct ((w =? KnapsackRectangle.width r) && (h =? KnapsackRectangle.height r)) eqn:Ee.
    + apply andb_prop in Ee as [Ew Eh].
      pose proof (claim_node d (Leaf r None x) wd) as Hc.
      destruct (claim d (Leaf r None x) wd) as [n1 w1]. simpl in *. subst n1.
      simpl. split; [tauto|]. intros _.
      apply Z.eqb_eq in Ew, Eh.
      unfold nonempty, KnapsackRectangle.width, KnapsackRectangle.height in *. lia.
    + simpl in Hb. destruct Hb as [Hr0 _].
      pose proof (split_within sz r w h Hr0 ltac:(lia) ltac:(lia)) as Hs.
      destruct (split r (Int w) (Int h)) as [rl rr]. simpl in Hs.
      destruct Hs as [Hl Hr].
      match goal with |- context [allocate stack d sz ?a ?b ?t ?w0] =>
        assert (Ht : bounded sz t) by (simpl; split; [exact Hl|congruence]);
        pose proof (IH t w0 Ht) as Ha;
        destruct (allocate stack d sz a b t w0) as [[a' w1] res] end.
      simpl in *. repeat (split; try tauto; try congruence).
  - simpl in Hb. destruct Hb as (Hr & Hi & Ha & Hb).
    pose proof (IH a wd Ha) as Ha'.
    destruct (allocate stack d sz (Int w) (Int h) a wd) as [[a' w1] [q| |]] eqn:Ea;
      simpl in *.
    + apply allocate_found in Ea as (n & Hat & Hleaf & Ew & Eh & _).
      rewrite (claim_at_replace _ _ _ _ _ Hat). simpl.
      repeat (split; try assumption).
      apply replace_at_bounded; [exact Ha'|].
      rewrite claim_node. apply set_imageID_bounded.
      * eapply node_at_bounded; eauto.
      * intros _. apply strict_eq_Int in Ew, Eh.
        unfold nonempty, KnapsackNode.width, KnapsackNode.height,
          KnapsackRectangle.width, KnapsackRectangle.height in *. lia.
    + pose proof (IH b w1 Hb) as Hb'.
      destruct (allocate stack d sz (Int w) (Int h) b w1) as [[b' w2] res]; simpl in *.
      tauto.
    + tauto.
Qed.

(** A release keeps the nodes on the canvas. *)
Lemma release_at_bounded sz p : forall n w n' w',
  release_at p n w = (Normal n', w') -> bounded sz n -> bounded sz n'.
Proof.
  induction p as [|[|] q IH]; intros n w n' w' H Hb; simpl in H.
  - unfold release in H. destruct (hasChildren n); [discriminate|].
    inversion H; subst. apply set_imageID_bounded; [|congruence].
    apply set_texture_bounded. exact Hb.
  - destruct n as [r i x|r i x a b]; [inversion H; subst; exact Hb|].
    destruct (release_at q a w) as [[a'|e] w1] eqn:E; [|discriminate].
    inversion H; subst. simpl in *. destruct Hb as (? & ? & ? & ?). eauto 6.
  - destruct n as [r i x|r i x a b]; [inversion H; subst; exact Hb|].
    destruct (release_at q b w) as [[b'|e] w1] eqn:E; [|discriminate].
    inversion H; subst. simpl in *. destruct Hb as (? & ? & ? & ?). eauto 6.
Qed.

Lemma sizes_positive sz : In sz TextureManager.sizes -> 0 < sz.
Proof. unfold TextureManager.sizes. simpl. intuition lia. Qed.

Lemma new_bounded sz : 0 <= sz -> bounded sz (KnapsackNode.new sz).
Proof. intros H. unfold KnapsackNode.new, within. simpl. unfold within. simpl. split; [lia|congruence]. Qed.

Lemma allocateNode_bounded stack d w h k wd k' wd' res :
  0 < w -> 0 < h ->
  Knapsack.allocateNode stack d (Int w) (Int h) k wd = (k', wd', res) ->
  bounded (Knapsack.textureSize k) (Knapsack.rootNode k) ->
  bounded (Knapsack.textureSize k') (Knapsack.rootNode k').
Proof.
  intros Hw Hh E Hb. apply allocateNode_found_root in E as [E Es].
  pose proof (allocate_bounded stack d (Knapsack.textureSize k) w h Hw Hh
                (Knapsack.rootNode k) wd Hb) as H.
  rewrite E in H. rewrite Es. exact H.
Qed.

Lemma _allocate_bounded stack width height tm wd :
  positive width -> positive height -> 0 <= TextureManager.size tm ->
  all_bounded tm ->
  all_bounded (snd (fst (TextureManager._allocate stack width height tm wd))).
Proof.
  destruct width as [w|], height as [h|]; simpl; try contradiction.
  intros Hw Hh Hsz Hb. unfold all_bounded in *.
  pose proof (_allocate_cases stack (Int w) (Int h) tm wd) as Hc.
  destruct (TextureManager._allocate stack (Int w) (Int h) tm wd) as [[c tm'] w'].
  simpl.
  destruct Hc as [(pre & k & post & k' & res & Eks & Eks' & _ & Ea & _)
                 |(k' & res & _ & Eks' & Ea & _)]; rewrite Eks'.
  - rewrite Eks in Hb. apply Forall_app in Hb as [Hpre Hrest].
    inversion Hrest as [|? ? Hk Hpost]; subst.
    apply Forall_app. split; [exact Hpre|]. constructor; [|exact Hpost].
    eapply (allocateNode_bounded _ _ w h); [exact Hw|exact Hh|exact Ea|exact Hk].
  - apply Forall_app. split; [exact Hb|]. constructor; [|constructor].
    eapply (allocateNode_bounded _ _ w h); [exact Hw|exact Hh|exact Ea|].
    simpl. apply new_bounded. exact Hsz.
Qed.

Lemma drain_bounded stack : forall queue promises tm wd,
  Forall (fun entry => positive (TextureManager.width entry) /\
                       positive (TextureManager.height entry)) queue ->
  0 <= TextureManager.size tm -> all_bounded tm ->
  all_bounded (snd (fst (TextureManager.drain stack queue promises tm wd))).
Proof.
  induction queue as [|entry rest IH]; intros promises tm wd Hq Hsz Hb; simpl.
  - exact Hb.
  - inversion Hq as [|? ? [Hw Hh] Hrest]; subst.
    pose proof (_allocate_bounded stack _ _ tm wd Hw Hh Hsz Hb) as Ha.
    pose proof (_allocate_frame stack (TextureManager.width entry)
                  (TextureManager.height entry) tm wd) as F.
    destruct (TextureManager._allocate _ _ _ _ _) as [[[node|e] tm1] w1]; simpl in *.
    + destruct F as (Es & _). apply IH; [exact Hrest|lia|exact Ha].
    + exact Ha.
Qed.

Lemma set_nth_Forall {A : Type} (P : A -> Prop) : forall l i a,
  P a -> Forall P l -> Forall P (TextureManager.set_nth i a l).
Proof.
  induction l as [|x l IH]; intros [|i] a Ha Hl; simpl; try exact Hl;
    inversion Hl; subst; constructor; auto.
Qed.

(** What every call of a client keeps of the bounds. *)
Lemma exec_bounded stack op s :
  positive_sizes op ->
  0 <= TextureManager.size (fst s) -> queue_positive (fst s) -> all_bounded (fst s) ->
  all_bounded (fst (exec stack op s)).
Proof.
  destruct s as [tm wd]. simpl.
  destruct op as [a b|a b|a b| |node|flag]; simpl; intros Hpos Hsz Hq Hb.
  - unfold TextureManager.allocate.
    destruct (TextureManager._validateSize a b tm); [|exact Hb].
    destruct Hpos as [Ha Hb'].
    pose proof (_allocate_bounded stack a b tm wd Ha Hb' Hsz Hb) as H.
    destruct (TextureManager._allocate _ _ _ _ _) as [[c tm1] w1]. exact H.
  - unfold TextureManager.allocateNode.
    destruct (TextureManager._validateSize a b tm); [|exact Hb].
    destruct Hpos as [Ha Hb'].
    pose proof (_allocate_bounded stack a b tm (snd (new_promise wd)) Ha Hb' Hsz Hb) as H.
    simpl in *.
    destruct (TextureManager._allocate _ _ _ _ _) as [[[?|?] tm1] w1]; exact H.
  - unfold TextureManager.allocateASync.
    destruct tm as [sz ks dbg [q|]]; simpl in *;
      destruct (TextureManager._validateSize _ _ _); exact Hb.
  - unfold TextureManager.solveASync.
    destruct (TextureManager._queue tm) as [q|] eqn:Eq; [|exact Hb].
    pose proof (drain_bounded stack q [] tm wd (Hq q Eq) Hsz Hb) as H.
    destruct (TextureManager.drain _ _ _ _ _) as [[[l|e] tm1] w1]; exact H.
  - unfold TextureManager.release. destruct node as [ref|]; [|exact Hb].
    destruct (nth_error _ _) as [k|] eqn:Ek; [|exact Hb].
    destruct (release_at _ _ _) as [[root|e] w1] eqn:Er; [|exact Hb].
    unfold all_bounded in *. simpl. apply set_nth_Forall; [|exact Hb].
    simpl. eapply release_at_bounded; [exact Er|].
    rewrite Forall_forall in Hb. apply Hb. eapply nth_error_In; eauto.
  - exact Hb.
Qed.

Lemma run_bounded stack : forall ops s,
  Forall positive_sizes ops ->
  well_sized (fst s) -> Surfaces.branches_ok (fst s) -> queue_positive (fst s) ->
  all_bounded (fst s) ->
  all_bounded (fst (run stack ops s)).
Proof.
  induction ops as [|op rest IH]; intros s Hpos Hws Hok Hq Hb; [exact Hb|].
  inversion Hpos as [|? ? Hop Hrest]; subst.
  unfold run in *. simpl.
  destruct (exec_keeps stack op s Hop Hok Hq) as (Hok1 & Hq1 & _).
  destruct (exec_well_sized stack op s Hws) as [Hws1 _].
  apply IH; try assumption.
  apply exec_bounded; try assumption.
  destruct Hws as [Hin _]. apply sizes_positive in Hin. lia.
Qed.

(** The nodes a client can reach lie on the canvas of their knapsack. *)
Lemma reached_bounded stack size w ops :
  Forall positive_sizes ops ->
  all_bounded (fst (run stack ops (TextureManager.new size, w))).
Proof.
  intros Hpos. apply run_bounded; [exact Hpos|apply new_well_sized| | |]; simpl.
  - constructor.
  - intros queue E. discriminate E.
  - constructor.
Qed.

Lemma reached_node_bounded stack size w ops ref n :
  Forall positive_sizes ops ->
  TextureManager.node ref (fst (run stack ops (TextureManager.new size, w))) = Some n ->
  exists k,
    nth_error (TextureManager.knapsacks (fst (run stack ops (TextureManager.new size, w))))
              (knapsack_index ref) = Some k /\
    node_at (path ref) (Knapsack.rootNode k) = Some n /\
    0 < Knapsack.textureSize k /\
    Knapsack.textureSize k
      = TextureManager.size (fst (run stack ops (TextureManager.new size, w))) /\
    Tree.branches_ok (Knapsack.rootNode k) /\
    bounded (Knapsack.textureSize k) n.
Proof.
  intros Hpos Hn.
  pose proof (reached_bounded stack size w ops Hpos) as Hb.
  destruct (run_well_sized stack ops (TextureManager.new size, w) (new_well_sized size))
    as [[Hin Hsz] _].
  destruct (run_keeps stack ops (TextureManager.new size, w) Hpos) as (Hok & _ & _).
  { constructor. }
  { intros queue E. discriminate E. }
  revert Hn Hb Hin Hsz Hok.
  generalize (fst (run stack ops (TextureManager.new size, w))) as tm.
  intros tm Hn Hb Hin Hsz Hok. unfold TextureManager.node in Hn.
  destruct (nth_error (TextureManager.knapsacks tm) (knapsack_index ref)) as [k|] eqn:Ek;
    [|discriminate].
  exists k. split; [reflexivity|]. split; [exact Hn|].
  pose proof (nth_error_In _ _ Ek) as Hk.
  unfold all_bounded, Surfaces.branches_ok in *. rewrite Forall_forall in Hb, Hsz, Hok.
  destruct (Hsz k Hk) as [Es _]. rewrite Es.
  split; [apply sizes_positive; exact Hin|]. split; [reflexivity|].
  split; [apply Hok; exact Hk|].
  rewrite <- Es. eapply node_at_bounded; eauto.
Qed.

Lemma Qdiv_in_unit a b s :
  0 <= a <= b -> b <= s -> 0 < s ->
  (0 <= inject_Z a / inject_Z s /\
   inject_Z a / inject_Z s <= inject_Z b / inject_Z s /\
   inject_Z b / inject_Z s <= 1)%Q.
Proof.
  intros Hab Hbs Hs.
  assert (Hs' : (0 < inject_Z s)%Q).
  { change 0%Q with (inject_Z 0). rewrite <- Zlt_Qlt. exact Hs. }
  split; [|split].
  - apply Qle_shift_div_l; [exact Hs'|]. rewrite Qmult_0_l.
    change 0%Q with (inject_Z 0). rewrite <- Zle_Qle. lia.
  - unfold Qdiv. apply Qmult_le_compat_r.
    + rewrite <- Zle_Qle. lia.
    + apply Qinv_le_0_compat. apply Qlt_le_weak. exact Hs'.
  - apply Qle_shift_div_r; [exact Hs'|]. rewrite Qmult_1_l.
    rewrite <- Zle_Qle. lia.
Qed.

Lemma Qdiv_difference a b s :
  (inject_Z b / inject_Z s - inject_Z a / inject_Z s == inject_Z (b - a) / inject_Z s)%Q.
Proof.
  unfold Z.sub. rewrite inject_Z_plus, inject_Z_opp. unfold Qdiv, Qminus. ring.
Qed.

(** X12: however a program allocates and releases with positive integer
    sizes, the texture the getter builds for a node has its window in the
    unit square, and the window is as wide and as high as the node is, in
    units of the texture size. *)
Theorem texture_window_lies_on_the_atlas stack size w ops ref n :
  Forall positive_sizes ops ->
  TextureManager.node ref (fst (run stack ops (TextureManager.new size, w))) = Some n ->
  in_unit_square
    (fst (texture (TextureManager.size (fst (run stack ops (TextureManager.new size, w))))
                  (set_texture None n))) /\
  (repeat_x
     (fst (texture (TextureManager.size (fst (run stack ops (TextureManager.new size, w))))
                   (set_texture None n)))
   == inject_Z (KnapsackNode.width n)
      / inject_Z (TextureManager.size (fst (run stack ops (TextureManager.new size, w)))))%Q /\
  (repeat_y
     (fst (texture (TextureManager.size (fst (run stack ops (TextureManager.new size, w))))
                   (set_texture None n)))
   == inject_Z (KnapsackNode.height n)
      / inject_Z (TextureManager.size (fst (run stack ops (TextureManager.new size, w)))))%Q.
Proof.
  intros Hpos Hn.
  destruct (reached_node_bounded stack size w ops ref n Hpos Hn)
    as (k & _ & _ & Hsz & Es & _ & Hb).
  rewrite <- Es. clear Es Hn. revert Hsz Hb.
  generalize (Knapsack.textureSize k) as sz. intros sz Hsz Hb.
  apply bounded_node in Hb as [(Hl & Hr & Ht & Hbt) _].
  assert (Et : texture sz (set_texture None n)
               = (mkTexture
                    (inject_Z (KnapsackRectangle.left (rectangle n)) / inject_Z sz)
                    (1 - inject_Z (KnapsackRectangle.bottom (rectangle n)) / inject_Z sz)
                    (inject_Z (KnapsackRectangle.right (rectangle n)) / inject_Z sz
                     - inject_Z (KnapsackRectangle.left (rectangle n)) / inject_Z sz)
                    (1 - inject_Z (KnapsackRectangle.top (rectangle n)) / inject_Z sz
                     - (1 - inject_Z (KnapsackRectangle.bottom (rectangle n)) / inject_Z sz)),
                  set_texture
                    (Some (mkTexture
                    (inject_Z (KnapsackRectangle.left (rectangle n)) / inject_Z sz)
                    (1 - inject_Z (KnapsackRectangle.bottom (rectangle n)) / inject_Z sz)
                    (inject_Z (KnapsackRectangle.right (rectangle n)) / inject_Z sz
                     - inject_Z (KnapsackRectangle.left (rectangle n)) / inject_Z sz)
                    (1 - inject_Z (KnapsackRectangle.top (rectangle n)) / inject_Z sz
                     - (1 - inject_Z (KnapsackRectangle.bottom (rectangle n)) / inject_Z sz))))
                    (set_texture None n))).
  { destruct n; reflexivity. }
  rewrite Et. cbn [fst offset_x offset_y repeat_x repeat_y]. unfold in_unit_square.
  cbn [fst offset_x offset_y repeat_x repeat_y].
  destruct (Qdiv_in_unit _ _ sz Hl Hr Hsz) as (Hx0 & Hx1 & Hx2).
  destruct (Qdiv_in_unit _ _ sz Ht Hbt Hsz) as (Hy0 & Hy1 & Hy2).
  split; [|split].
  - repeat split; lra.
  - apply Qdiv_difference.
  - unfold KnapsackNode.height, KnapsackRectangle.height.
    rewrite <- Qdiv_difference. ring.
Qed.

Lemma texture_window_lies_on_the_atlas_witness :
  in_unit_square
    (fst (texture (TextureManager.size
                     (fst (run 8 Programs.reuse (TextureManager.new (Some (Int 1024)), World0))))
                  (set_texture None (Leaf (KnapsackRectangle.mk 0 0 100 50) (Some 5%nat) None)))) /\
  (repeat_x
     (fst (texture (TextureManager.size
                      (fst (run 8 Programs.reuse (TextureManager.new (Some (Int 1024)), World0))))
                   (set_texture None (Leaf (KnapsackRectangle.mk 0 0 100 50) (Some 5%nat) None))))
   == inject_Z (KnapsackNode.width (Leaf (KnapsackRectangle.mk 0 0 100 50) (Some 5%nat) None))
      / inject_Z (TextureManager.size
                    (fst (run 8 Programs.reuse (TextureManager.new (Some (Int 1024)), World0)))))%Q /\
  (repeat_y
     (fst (texture (TextureManager.size
                      (fst (run 8 Programs.reuse (TextureManager.new (Some (Int 1024)), World0))))
                   (set_texture None (Leaf (KnapsackRectangle.mk 0 0 100 50) (Some 5%nat) None))))
   == inject_Z (KnapsackNode.height (Leaf (KnapsackRectangle.mk 0 0 100 50) (Some 5%nat) None))
      / inject_Z (TextureManager.size
                    (fst (run 8 Programs.reuse (TextureManager.new (Some (Int 1024)), World0)))))%Q.
Proof.
  apply (texture_window_lies_on_the_atlas 8 (Some (Int 1024)) World0 Programs.reuse
           (mkRef 0 [L; L])
           (Leaf (KnapsackRectangle.mk 0 0 100 50) (Some 5%nat) None)).
  - repeat constructor.
  - vm_compute. reflexivity.
Defined.

End BoundsFacts.

(** * Drawing on a node *)


Section DrawingFacts.

Import KnapsackNode Tree Client Sizes Surfaces Bounds Drawing Pixels.

Lemma node_at_branches_ok p : forall t n,
  Tree.branches_ok t -> node_at p t = Some n -> Tree.branches_ok n.
Proof.
  induction p as [|[|] q IH]; intros t n Hok Hat; simpl in Hat.
  - inversion Hat; subst. exact Hok.
  - destruct t as [|r i x a b]; [discriminate|]. simpl in Hok. apply (IH a); tauto.
  - destruct t as [|r i x a b]; [discriminate|]. simpl in Hok. apply (IH b); tauto.
Qed.

(** A node in use of a reached manager is a leaf that holds a pixel, and
    shares no pixel with another leaf of its knapsack. *)
Lemma reached_occupied stack size w ops ref n :
  Forall positive_sizes ops ->
  TextureManager.node ref (fst (run stack ops (TextureManager.new size, w))) = Some n ->
  isOccupied n = true ->
  hasChildren n = false /\ nonempty (rectangle n) /\
  forall x y, inside (rectangle n) x y ->
    of_no_other_leaf (fst (run stack ops (TextureManager.new size, w))) ref x y.
Proof.
  intros Hpos Hn Hocc.
  destruct (reached_node_bounded stack size w ops ref n Hpos Hn)
    as (k & Ek & Hat & _ & _ & Hok & Hb).
  assert (Hid : imageID n <> None).
  { unfold isOccupied in Hocc. destruct (imageID n); [discriminate|discriminate Hocc]. }
  assert (Hleaf : hasChildren n = false).
  { pose proof (node_at_branches_ok _ _ _ Hok Hat) as Hn'.
    destruct n as [|r i x a b]; [reflexivity|]. simpl in Hn', Hid. tauto. }
  split; [exact Hleaf|]. split; [apply bounded_node in Hb; tauto|].
  intros x y Hin other m Ei Hne Hm Hl Hin'.
  unfold TextureManager.node in Hm. rewrite Ei, Ek in Hm.
  apply (leaves_disjoint (path other) (path ref) (Knapsack.rootNode k) m n x y); auto.
Qed.

(** X13: however a program allocates and releases with positive integer
    sizes, the release of a node in use erases pixels of that node only, and
    none of its last column and last row; it erases no pixel of another
    leaf. *)
Theorem release_erases_pixels_of_the_node_only stack size w ops ref n :
  Forall positive_sizes ops ->
  TextureManager.node ref (fst (run stack ops (TextureManager.new size, w))) = Some n ->
  isOccupied n = true ->
  exists tm' w' made,
    TextureManager.release (Some ref) (fst (run stack ops (TextureManager.new size, w)))
                           (snd (run stack ops (TextureManager.new size, w)))
      = (Normal tt, tm', w') /\
    calls w' = calls (snd (run stack ops (TextureManager.new size, w))) ++ made /\
    In (ClearRect (KnapsackRectangle.left (rectangle n)) (KnapsackRectangle.top (rectangle n))
                  (KnapsackNode.width n - 1) (KnapsackNode.height n - 1)) made /\
    forall c x y, In c made -> cleared c x y ->
      inside (rectangle n) x y /\
      x < KnapsackRectangle.right (rectangle n) - 1 /\
      y < KnapsackRectangle.bottom (rectangle n) - 1 /\
      of_no_other_leaf (fst (run stack ops (TextureManager.new size, w))) ref x y.
Proof.
  intros Hpos Hn Hocc.
  destruct (reached_occupied stack size w ops ref n Hpos Hn Hocc) as (Hleaf & Hne & Hother).
  revert Hn Hother.
  generalize (run stack ops (TextureManager.new size, w)). intros [tm wd] Hn Hother.
  simpl in *. unfold TextureManager.node in Hn. unfold TextureManager.release.
  destruct (nth_error (TextureManager.knapsacks tm) (knapsack_index ref)) as [k|];
    [|discriminate].
  rewrite (release_at_replace _ _ _ wd Hn).
  unfold release. rewrite Hleaf. unfold clear, log. simpl.
  do 2 eexists.
  exists (match _texture n with Some x => [Dispose x] | None => [] end ++
          [ClearRect (KnapsackRectangle.left (rectangle n))
                     (KnapsackRectangle.top (rectangle n))
                     (KnapsackNode.width n - 1) (KnapsackNode.height n - 1)]).
  split; [reflexivity|].
  assert (Ew : KnapsackNode.width (set_texture None n) = KnapsackNode.width n)
    by (destruct n; reflexivity).
  assert (Eh : KnapsackNode.height (set_texture None n) = KnapsackNode.height n)
    by (destruct n; reflexivity).
  assert (Er : rectangle (set_texture None n) = rectangle n) by (destruct n; reflexivity).
  rewrite Ew, Eh, Er.
  split; [destruct (_texture n); simpl; rewrite <- ?app_assoc; reflexivity|].
  split; [apply in_or_app; right; left; reflexivity|].
  intros c x y Hc Hcl.
  assert (Hin : inside (rectangle n) x y /\
                x < KnapsackRectangle.right (rectangle n) - 1 /\
                y < KnapsackRectangle.bottom (rectangle n) - 1).
  { apply in_app_or in Hc as [Hc|[Hc|[]]].
    - destruct (_texture n); [destruct Hc as [<-|[]]; contradiction|contradiction].
    - subst c. simpl in Hcl. destruct Hne as [Hx Hy].
      unfold covers, inside, KnapsackNode.width, KnapsackNode.height,
        KnapsackRectangle.width, KnapsackRectangle.height in *. lia. }
  destruct Hin as (Hin & Hx & Hy). auto.
Qed.

Lemma release_erases_pixels_of_the_node_only_witness :
  exists tm' w' made,
    TextureManager.release (Some (mkRef 0 [L; L]))
        (fst (run 8 Programs.reuse (TextureManager.new (Some (Int 1024)), World0)))
        (snd (run 8 Programs.reuse (TextureManager.new (Some (Int 1024)), World0)))
      = (Normal tt, tm', w') /\
    calls w' = calls (snd (run 8 Programs.reuse (TextureManager.new (Some (Int 1024)), World0)))
               ++ made /\
    In (ClearRect
          (KnapsackRectangle.left
             (rectangle (Leaf (KnapsackRectangle.mk 0 0 100 50) (Some 5%nat) None)))
          (KnapsackRectangle.top
             (rectangle (Leaf (KnapsackRectangle.mk 0 0 100 50) (Some 5%nat) None)))
          (KnapsackNode.width (Leaf (KnapsackRectangle.mk 0 0 100 50) (Some 5%nat) None) - 1)
          (KnapsackNode.height (Leaf (KnapsackRectangle.mk 0 0 100 50) (Some 5%nat) None) - 1))
       made /\
    forall c x y, In c made -> cleared c x y ->
      inside (rectangle (Leaf (KnapsackRectangle.mk 0 0 100 50) (Some 5%nat) None)) x y /\
      x < KnapsackRectangle.right
            (rectangle (Leaf (KnapsackRectangle.mk 0 0 100 50) (Some 5%nat) None)) - 1 /\
      y < KnapsackRectangle.bottom
            (rectangle (Leaf (KnapsackRectangle.mk 0 0 100 50) (Some 5%nat) None)) - 1 /\
      of_no_other_leaf
        (fst (run 8 Programs.reuse (TextureManager.new (Some (Int 1024)), World0)))
        (mkRef 0 [L; L]) x y.
Proof.
  apply (release_erases_pixels_of_the_node_only 8 (Some (Int 1024)) World0 Programs.reuse
           (mkRef 0 [L; L]) (Leaf (KnapsackRectangle.mk 0 0 100 50) (Some 5%nat) None)).
  - repeat constructor.
  - vm_compute. reflexivity.
  - reflexivity.
Defined.



Lemma floor_of_the_middle l r :
  Qfloor (inject_Z (r - l) / 2 + inject_Z l) = (l + r) / 2.
Proof.
  assert (E : (inject_Z (r - l) / 2 + inject_Z l == (l + r) # 2)%Q).
  { unfold Qeq, Qdiv, Qplus, Qmult, Qinv, inject_Z. simpl. lia. }
  rewrite (Qfloor_comp _ _ E). reflexivity.
Qed.

End DrawingFacts.

(** * The canvas and the master texture *)


Section LazyFacts.

Import Lazy.

Lemma reads_size rs : forall k d,
  textureSize (snd (fst (reads rs k d))) = textureSize k.
Proof.
  induction rs as [|[|] rest IH]; intros k d; simpl; [reflexivity| |].
  - destruct (canvas k d) as [[c k1] d1] eqn:E.
    specialize (IH k1 d1). destruct (reads rest k1 d1) as [[gs k2] d2]. simpl in *.
    rewrite IH. unfold canvas in E. destruct (_canvas k); inversion E; reflexivity.
  - destruct (rootTexture k d) as [[x k1] d1] eqn:E.
    specialize (IH k1 d1). destruct (reads rest k1 d1) as [[gs k2] d2]. simpl in *.
    rewrite IH. unfold rootTexture, canvas in E.
    destruct (_rootTexture k); [inversion E; reflexivity|].
    destruct (_canvas k); inversion E; reflexivity.
Qed.

(** Once the canvas is there every read gives it, and the texture that is
    there or the one built first; nothing more is created but that texture. *)
Lemma reads_with_canvas rs : forall size c ox d,
  (forall x, ox = Some x -> image x = c) ->
  let x0 := match ox with Some x => x | None => mkRootTexture (textures d) c end in
  let '(gs, k', d') := reads rs (mk size ox (Some c)) d in
  Forall (gave c x0) gs /\
  elements d' = elements d /\
  textures d' = (textures d +
                 match ox with
                 | Some _ => 0
                 | None => if existsb is_ReadRootTexture rs then 1 else 0
                 end)%nat.
Proof.
  induction rs as [|[|] rest IH]; intros size c ox d Hox; simpl.
  - split; [constructor|]. split; [reflexivity|]. destruct ox; lia.
  - specialize (IH size c ox d Hox). simpl in IH.
    destruct (reads rest (mk size ox (Some c)) d) as [[gs k2] d2].
    destruct IH as (Hg & He & Ht). split; [constructor; [reflexivity|exact Hg]|]. auto.
  - unfold rootTexture. simpl. destruct ox as [x|]; simpl.
    + specialize (IH size c (Some x) d Hox). simpl in IH.
      destruct (reads rest (mk size (Some x) (Some c)) d) as [[gs k2] d2].
      destruct IH as (Hg & He & Ht). split; [constructor; [reflexivity|exact Hg]|]. auto.
    + specialize (IH size c (Some (mkRootTexture (textures d) c))
                     (mkDocument (elements d) (S (textures d)))).
      simpl in IH.
      destruct (reads rest _ _) as [[gs k2] d2].
      destruct IH as (Hg & He & Ht); [intros x E; inversion E; reflexivity|].
      split; [constructor; [reflexivity|exact Hg]|]. split; [exact He|]. lia.
Qed.

(** X16: however often and in whatever order the canvas and the master
    texture of a knapsack are read, one canvas is created, on the first
    read, of the size of the knapsack each way, and every read of the canvas
    gives it; one texture is built, on the first read of the texture, over
    that canvas, and every read of the texture gives it. *)
Theorem canvas_and_texture_are_built_once (size : Z) (rs : list Read) (d : Document) :
  let c := mkCanvas (elements d) size size in
  let x := mkRootTexture (textures d) c in
  let '(gs, k', d') := reads rs (Lazy.new size) d in
  Forall (gave c x) gs /\
  elements d' = (elements d + match rs with [] => 0 | _ :: _ => 1 end)%nat /\
  textures d' = (textures d + if existsb is_ReadRootTexture rs then 1 else 0)%nat /\
  textureSize k' = size.
Proof.
  destruct rs as [|[|] rest]; simpl.
  - split; [constructor|]. repeat split; lia.
  - pose proof (reads_with_canvas rest size (mkCanvas (elements d) size size) None
                  (mkDocument (S (elements d)) (textures d))) as H.
    simpl in H. unfold Lazy.new, canvas. simpl.
    assert (Hk := fun k0 d0 => reads_size rest k0 d0).
    destruct (reads rest _ _) as [[gs k2] d2] eqn:E.
    destruct H as (Hg & He & Ht); [intros x E'; discriminate E'|].
    split; [constructor; [reflexivity|exact Hg]|].
    split; [lia|]. split; [exact Ht|].
    specialize (Hk (mk size None (Some (mkCanvas (elements d) size size)))
                   (mkDocument (S (elements d)) (textures d))).
    rewrite E in Hk. exact Hk.
  - pose proof (reads_with_canvas rest size (mkCanvas (elements d) size size)
                  (Some (mkRootTexture (textures d) (mkCanvas (elements d) size size)))
                  (mkDocument (S (elements d)) (S (textures d)))) as H.
    simpl in H. unfold Lazy.new, rootTexture, canvas. simpl.
    assert (Hk := fun k0 d0 => reads_size rest k0 d0).
    destruct (reads rest _ _) as [[gs k2] d2] eqn:E.
    destruct H as (Hg & He & Ht); [intros x E'; inversion E'; reflexivity|].
    split; [constructor; [reflexivity|exact Hg]|].
    split; [lia|]. split; [lia|].
    specialize (Hk (mk size (Some (mkRootTexture (textures d) (mkCanvas (elements d) size size)))
                       (Some (mkCanvas (elements d) size size)))
                   (mkDocument (S (elements d)) (S (textures d)))).
    rewrite E in Hk. exact Hk.
Qed.

End LazyFacts.

(** * Identifiers *)


Section IdsFacts.

Import KnapsackNode Tree Client Ids.

Lemma NoDup_insert {A : Type} (v : A) : forall a b,
  NoDup (a ++ b) -> ~ In v (a ++ b) -> NoDup (a ++ v :: b).
Proof.
  induction a as [|x a IH]; intros b Hn Hv; simpl in *.
  - constructor; assumption.
  - inversion Hn; subst. constructor.
    + rewrite in_app_iff in *. simpl. intuition congruence.
    + apply IH; [assumption|]. tauto.
Qed.

Lemma NoDup_drop {A : Type} : forall (a m b : list A),
  NoDup (a ++ m ++ b) -> NoDup (a ++ b).
Proof.
  induction a as [|x a IH]; intros m b Hn; simpl in *.
  - eapply NoDup_app_remove_l; eauto.
  - inversion Hn; subst. constructor; [|eauto].
    rewrite !in_app_iff in *. tauto.
Qed.

Lemma NoDup_apart {A : Type} (x : A) : forall l1 l2,
  NoDup (l1 ++ l2) -> In x l1 -> In x l2 -> False.
Proof.
  induction l1 as [|y l1 IH]; intros l2 Hn H1 H2; simpl in *; [contradiction|].
  inversion Hn; subst. destruct H1 as [->|H1]; [|eauto].
  rewrite in_app_iff in *. tauto.
Qed.

(** The identifiers of a tree around those of one of its nodes. *)
Lemma ids_replace_at p : forall t n,
  node_at p t = Some n ->
  exists l1 l2,
    ids t = l1 ++ ids n ++ l2 /\
    forall m, ids (replace_at p m t) = l1 ++ ids m ++ l2.
Proof.
  induction p as [|[|] q IH]; intros t n Hat; simpl in Hat.
  - inversion Hat; subst. exists [], []. simpl. split; [|intros m];
      rewrite app_nil_r; reflexivity.
  - destruct t as [|r i x a b]; [discriminate|].
    destruct (IH a n Hat) as (l1 & l2 & E & Hm).
    exists (id_of i ++ l1), (l2 ++ ids b). simpl. split; [rewrite E|intros m; rewrite Hm];
      rewrite <- !app_assoc; reflexivity.
  - destruct t as [|r i x a b]; [discriminate|].
    destruct (IH b n Hat) as (l1 & l2 & E & Hm).
    exists (id_of i ++ ids a ++ l1), l2. simpl. split; [rewrite E|intros m; rewrite Hm];
      rewrite <- !app_assoc; reflexivity.
Qed.

Lemma ids_in p : forall t n u,
  node_at p t = Some n -> imageID n = Some u -> In u (ids t).
Proof.
  intros t n u Hat Hu. destruct (ids_replace_at p t n Hat) as (l1 & l2 & E & _).
  rewrite E, !in_app_iff. right. left. destruct n; simpl in *; rewrite Hu; simpl; auto.
Qed.

(** In a tree without an identifier twice, an identifier tells the node. *)
Lemma ids_position : forall tree p q n1 n2 u,
  NoDup (ids tree) ->
  node_at p tree = Some n1 -> node_at q tree = Some n2 ->
  imageID n1 = Some u -> imageID n2 = Some u -> p = q.
Proof.
  induction tree as [r i x|r i x a IHa b IHb]; intros p q n1 n2 u Hn H1 H2 Hu1 Hu2.
  - destruct p as [|[|] p]; [|discriminate|discriminate].
    destruct q as [|[|] q]; [reflexivity|discriminate|discriminate].
  - simpl in Hn.
    assert (Hab : NoDup (ids a ++ ids b)) by (eapply NoDup_app_remove_l; eauto).
    assert (Hroot : forall d q' m, node_at (d :: q') (Branch r i x a b) = Some m ->
                                   imageID m = Some u -> i = Some u -> False).
    { intros d q' m Hm Hum Hi. subst i. simpl in Hn. inversion Hn as [|? ? Hnot _]; subst.
      apply Hnot. rewrite in_app_iff.
      destruct d; simpl in Hm; [left|right]; eapply ids_in; eauto. }
    destruct p as [|dp p], q as [|dq q].
    + reflexivity.
    + simpl in H1. inversion H1; subst. simpl in Hu1.
      exfalso. eapply Hroot; eauto.
    + simpl in H2. inversion H2; subst. simpl in Hu2.
      exfalso. eapply Hroot; eauto.
    + destruct dp, dq; simpl in H1, H2.
      * f_equal. eapply IHa; eauto. eapply NoDup_app_remove_r; eauto.
      * exfalso. eapply (NoDup_apart u); [exact Hab| |]; eapply ids_in; eauto.
      * exfalso. eapply (NoDup_apart u); [exact Hab| |]; eapply ids_in; eauto.
      * f_equal. eapply IHb; eauto. eapply NoDup_app_remove_l; eauto.
Qed.

(** An allocation that finds a node adds its identifier, the last one given;
    any other allocation leaves the identifiers as they are. *)
Lemma allocate_ids stack d sz width height : forall this w this' w' res,
  allocate stack d sz width height this w = (this', w', res) ->
  match res with
  | Found p =>
      exists n l1 l2,
        node_at p this' = Some n /\ hasChildren n = false /\
        imageID n = Some (pred (next_uuid w')) /\
        (forall m, ids (replace_at p m this') = l1 ++ ids m ++ l2) /\
        ids this' = l1 ++ pred (next_uuid w') :: l2 /\
        ids this = l1 ++ l2 /\
        (next_uuid w < next_uuid w')%nat
  | _ => ids this' = ids this /\ next_uuid w' = next_uuid w
  end.
Proof.
  induction stack as [|stack IH]; intros this w this' w' res H; simpl in H.
  - inversion H; subst. auto.
  - destruct this as [r i x|r i x a b].
    + destruct i as [u|]; simpl in H; [inversion H; subst; auto|].
      destruct (_ || _); [inversion H; subst; auto|].
      destruct (_ && _).
      * pose proof (claim_node d (Leaf r None x) w) as Hc.
        pose proof (claim_next_uuid d (Leaf r None x) w) as Hu.
        destruct (claim d (Leaf r None x) w) as [n1 w1]. simpl in *.
        inversion H; subst. rewrite Hu. simpl.
        exists (Leaf r (Some (next_uuid w)) x), [], []. simpl.
        repeat split; try reflexivity; try lia.
        intros m. rewrite app_nil_r. reflexivity.
      * destruct (split r width height) as [rl rr].
        match type of H with context [allocate stack d sz ?a ?b ?t ?w0] =>
          pose proof (IH t w0) as Hl;
          destruct (allocate stack d sz a b t w0) as [[a' w1] res1] end.
        specialize (Hl _ _ _ eq_refl). inversion H; subst. clear H.
        destruct res1 as [p| |]; simpl in *.
        -- destruct Hl as (n & l1 & l2 & Hat & Hleaf & Hid & Hm & E' & E & Hlt).
           exists n, l1, l2.
           split; [exact Hat|]. split; [exact Hleaf|]. split; [exact Hid|].
           split; [intros m; rewrite Hm, app_nil_r; reflexivity|].
           split; [rewrite E', app_nil_r; reflexivity|].
           split; [exact E|destruct d; exact Hlt].
        -- destruct Hl as [E Eu]. rewrite E, Eu. destruct d; auto.
        -- destruct Hl as [E Eu]. rewrite E, Eu. destruct d; auto.
    + destruct (allocate stack d sz width height a w) as [[a' w1] [p| |]] eqn:Ea.
      * apply IH in Ea as (n & l1 & l2 & Hat & Hleaf & Hid & Hm & E' & E & Hlt).
        rewrite (claim_at_replace _ _ _ _ _ Hat) in H.
        pose proof (claim_node d n w1) as Hc.
        pose proof (claim_next_uuid d n w1) as Hu.
        destruct (claim d n w1) as [n1 w2]. simpl in *. inversion H; subst. clear H.
        rewrite Hu. simpl.
        exists (set_imageID (Some (next_uuid w1)) n), (id_of i ++ l1), (l2 ++ ids b).
        assert (Ei : ids (set_imageID (Some (next_uuid w1)) n) = [next_uuid w1]).
        { destruct n; [reflexivity|discriminate]. }
        split; [eapply node_at_replace; eauto|].
        split; [destruct n; [reflexivity|discriminate]|].
        split; [destruct n; reflexivity|].
        split; [|split; [|split]].
        -- intros m.
           destruct (ids_replace_at p a' n Hat) as (k1 & k2 & Ek & Hk).
           rewrite replace_at_twice. rewrite Hm. rewrite <- !app_assoc. reflexivity.
        -- rewrite Hm, Ei. rewrite <- !app_assoc. reflexivity.
        -- rewrite E. rewrite <- !app_assoc. reflexivity.
        -- lia.
      * apply IH in Ea as [Ea Eu].
        destruct (allocate stack d sz width height b w1) as [[b' w2] res2] eqn:Eb.
        apply IH in Eb. inversion H; subst. clear H.
        destruct res2 as [p| |]; simpl in *.
        -- destruct Eb as (n & l1 & l2 & Hat & Hleaf & Hid & Hm & E' & E & Hlt).
           exists n, (id_of i ++ ids a ++ l1), l2.
           split; [exact Hat|]. split; [exact Hleaf|]. split; [exact Hid|].
           split; [intros m; rewrite Hm, Ea; rewrite <- !app_assoc; reflexivity|].
           split; [rewrite E', Ea; rewrite <- !app_assoc; reflexivity|].
           split; [rewrite E; rewrite <- !app_assoc; reflexivity|lia].
        -- destruct Eb as [Eb Eu']. rewrite Ea, Eb. split; [reflexivity|congruence].
        -- destruct Eb as [Eb Eu']. rewrite Ea, Eb. split; [reflexivity|congruence].
      * apply IH in Ea as [Ea Eu]. inversion H; subst. simpl. rewrite Ea. auto.
Qed.

(** A release takes identifiers away, and gives none. *)
Lemma release_at_ids p : forall n w n' w',
  release_at p n w = (Normal n', w') ->
  next_uuid w' = next_uuid w /\
  exists l1 l2 l3, ids n = l1 ++ l2 ++ l3 /\ ids n' = l1 ++ l3.
Proof.
  induction p as [|[|] q IH]; intros n w n' w' H; simpl in H.
  - unfold release in H. destruct n as [r i x|]; simpl in H; [|discriminate].
    inversion H; subst. split; [destruct x; reflexivity|].
    exists [], (id_of i), []. simpl. rewrite app_nil_r. auto.
  - destruct n as [r i x|r i x a b].
    + inversion H; subst. split; [reflexivity|]. exists (id_of i), [], []. simpl.
      rewrite app_nil_r. auto.
    + destruct (release_at q a w) as [[a'|e] w1] eqn:E; [|discriminate].
      inversion H; subst. apply IH in E as (Eu & l1 & l2 & l3 & E1 & E2).
      split; [exact Eu|]. exists (id_of i ++ l1), l2, (l3 ++ ids b). simpl.
      rewrite E1, E2, <- !app_assoc. auto.
  - destruct n as [r i x|r i x a b].
    + inversion H; subst. split; [reflexivity|]. exists (id_of i), [], []. simpl.
      rewrite app_nil_r. auto.
    + destruct (release_at q b w) as [[b'|e] w1] eqn:E; [|discriminate].
      inversion H; subst. apply IH in E as (Eu & l1 & l2 & l3 & E1 & E2).
      split; [exact Eu|]. exists (id_of i ++ ids a ++ l1), l2, l3. simpl.
      rewrite E1, E2, <- !app_assoc. auto.
Qed.

Lemma settle_next_uuid p s w : next_uuid (settle p s w) = next_uuid w.
Proof. unfold settle. destruct (settled p w); reflexivity. Qed.

(** What an allocation in one tree does to identifiers in use around it. *)
Lemma allocate_unique stack d sz width height this w this' w' res (A B : list UUID) u0 :
  allocate stack d sz width height this w = (this', w', res) ->
  next_uuid w = u0 ->
  NoDup (A ++ ids this ++ B) ->
  Forall (fun u => (u < u0)%nat) (A ++ ids this ++ B) ->
  NoDup (A ++ ids this' ++ B) /\
  Forall (fun u => (u < next_uuid w')%nat) (A ++ ids this' ++ B).
Proof.
  intros Ha Eu Hn Hf. subst u0. apply allocate_ids in Ha.
  assert (Hsame : ids this' = ids this /\ next_uuid w' = next_uuid w ->
                  NoDup (A ++ ids this' ++ B) /\
                  Forall (fun u => (u < next_uuid w')%nat) (A ++ ids this' ++ B)).
  { intros [-> ->]. auto. }
  destruct res as [p| |]; [|auto|auto].
  destruct Ha as (n & l1 & l2 & _ & _ & _ & _ & E' & E & Hlt).
  rewrite E', E in *. clear E E'.
  rewrite Forall_forall in Hf. split.
  - replace (A ++ (l1 ++ pred (next_uuid w') :: l2) ++ B)
      with ((A ++ l1) ++ pred (next_uuid w') :: (l2 ++ B))
      by (rewrite <- !app_assoc; reflexivity).
    apply NoDup_insert.
    + rewrite <- !app_assoc in *. exact Hn.
    + intros Hin. specialize (Hf (pred (next_uuid w'))).
      rewrite <- !app_assoc in *. specialize (Hf Hin). lia.
  - apply Forall_forall. intros u Hin.
    rewrite !in_app_iff in Hin. simpl in Hin.
    assert (Hu : u = pred (next_uuid w') \/ In u (A ++ (l1 ++ l2) ++ B)).
    { rewrite !in_app_iff. intuition auto. }
    destruct Hu as [->|Hu]; [lia|]. apply Hf in Hu. lia.
Qed.

Lemma _allocate_unique stack width height tm w :
  unique (tm, w) ->
  unique (snd (fst (TextureManager._allocate stack width height tm w)),
          snd (TextureManager._allocate stack width height tm w)).
Proof.
  unfold unique, all_ids. simpl. intros [Hn Hf].
  pose proof (_allocate_cases stack width height tm w) as Hc.
  destruct (TextureManager._allocate stack width height tm w) as [[c tm'] w'].
  simpl.
  destruct Hc as [(pre & k & post & k' & res & Eks & Eks' & _ & Ea & _)
                 |(k' & res & _ & Eks' & Ea & _)]; rewrite Eks'.
  - rewrite Eks in Hn, Hf. rewrite flat_map_app in *. simpl in *.
    apply allocateNode_found_root in Ea as [Ea _].
    eapply allocate_unique; eauto.
  - rewrite flat_map_app. simpl. rewrite app_nil_r.
    apply allocateNode_found_root in Ea as [Ea _]. simpl in Ea.
    rewrite <- (app_nil_r (ids (Knapsack.rootNode k'))).
    eapply (allocate_unique _ _ _ _ _ _ _ _ _ _ _ [] (next_uuid w)); [exact Ea| | |].
    + destruct (TextureManager.debug tm); reflexivity.
    + simpl. rewrite !app_nil_r. exact Hn.
    + simpl. rewrite !app_nil_r. exact Hf.
Qed.

Lemma drain_unique stack : forall queue promises tm w,
  unique (tm, w) ->
  unique (snd (fst (TextureManager.drain stack queue promises tm w)),
          snd (TextureManager.drain stack queue promises tm w)).
Proof.
  induction queue as [|entry rest IH]; intros promises tm w Hu; simpl; [exact Hu|].
  pose proof (_allocate_unique stack (TextureManager.width entry)
                (TextureManager.height entry) tm w Hu) as Ha.
  destruct (TextureManager._allocate _ _ _ _ _) as [[[node|e] tm1] w1]; simpl in *.
  - apply IH. unfold unique in *. simpl in *. rewrite settle_next_uuid. exact Ha.
  - exact Ha.
Qed.

Lemma release_at_next_uuid p : forall n w,
  next_uuid (snd (release_at p n w)) = next_uuid w.
Proof.
  induction p as [|[|] q IH]; intros n w; simpl.
  - unfold release. destruct (hasChildren n); [reflexivity|].
    simpl. destruct (_texture n); reflexivity.
  - destruct n as [r i x|r i x a b]; [reflexivity|]. specialize (IH a w).
    destruct (release_at q a w) as [[a'|e] w1]; exact IH.
  - destruct n as [r i x|r i x a b]; [reflexivity|]. specialize (IH b w).
    destruct (release_at q b w) as [[b'|e] w1]; exact IH.
Qed.

Lemma release_unique node tm w :
  unique (tm, w) ->
  unique (snd (fst (TextureManager.release node tm w)),
          snd (TextureManager.release node tm w)).
Proof.
  intros Hu. unfold TextureManager.release.
  destruct node as [ref|]; [|exact Hu].
  destruct (nth_error _ _) as [k|] eqn:Ek; [|exact Hu].
  destruct (release_at _ _ _) as [[root|e] w1] eqn:Er.
  - apply release_at_ids in Er as (Eu & l1 & l2 & l3 & E1 & E2).
    apply nth_error_split in Ek as (pre & post & Eks & El).
    unfold unique, all_ids in *. simpl in *. rewrite Eks in *. rewrite <- El.
    rewrite set_nth_middle. rewrite flat_map_app in *. simpl in *.
    rewrite E1 in Hu. rewrite E2, Eu. destruct Hu as [Hn Hf]. split.
    + rewrite <- !app_assoc in *. rewrite app_assoc. rewrite app_assoc in Hn.
      eapply NoDup_drop; eauto.
    + rewrite Forall_forall in *. intros u Hin. apply Hf.
      rewrite !in_app_iff in *. tauto.
  - pose proof (release_at_next_uuid (path ref) (Knapsack.rootNode k) w) as Eu.
    rewrite Er in Eu. unfold unique in *. simpl in *. rewrite Eu. exact Hu.
Qed.

(** What every call of a client keeps of the identifiers. *)
Lemma exec_unique stack op s : unique s -> unique (exec stack op s).
Proof.
  destruct s as [tm wd].
  destruct op as [a b|a b|a b| |node|flag]; simpl; intros Hu.
  - unfold TextureManager.allocate.
    destruct (TextureManager._validateSize a b tm); [|exact Hu].
    pose proof (_allocate_unique stack a b tm wd Hu) as H.
    destruct (TextureManager._allocate _ _ _ _ _) as [[c tm1] w1]. exact H.
  - unfold TextureManager.allocateNode. simpl.
    destruct (TextureManager._validateSize a b tm).
    + pose proof (_allocate_unique stack a b tm
                    (mkWorld (next_uuid wd) (calls wd) (S (next_promise wd)) (settlements wd))
                    Hu) as H.
      destruct (TextureManager._allocate _ _ _ _ _) as [[[?|?] tm1] w1];
        unfold unique in *; simpl in *; rewrite settle_next_uuid; exact H.
    + unfold unique in *. simpl in *. rewrite settle_next_uuid. exact Hu.
  - unfold TextureManager.allocateASync.
    destruct tm as [sz ks dbg [q|]]; simpl in *;
      destruct (TextureManager._validateSize _ _ _);
      unfold unique in *; simpl in *; rewrite ?settle_next_uuid; exact Hu.
  - unfold TextureManager.solveASync.
    destruct (TextureManager._queue tm) as [q|] eqn:Eq; [|exact Hu].
    pose proof (drain_unique stack q [] tm wd Hu) as H.
    destruct (TextureManager.drain _ _ _ _ _) as [[[l|e] tm1] w1]; exact H.
  - pose proof (release_unique node tm wd Hu) as H.
    destruct (TextureManager.release node tm wd) as [[c tm1] w1]. exact H.
  - exact Hu.
Qed.

Lemma run_unique stack : forall ops s, unique s -> unique (run stack ops s).
Proof.
  induction ops as [|op rest IH]; intros s Hu; [exact Hu|].
  unfold run in *. simpl. apply IH. apply exec_unique. exact Hu.
Qed.

Lemma flat_map_position {A B : Type} (f : A -> list B) (u : B) : forall ks i j k1 k2,
  NoDup (flat_map f ks) ->
  nth_error ks i = Some k1 -> nth_error ks j = Some k2 ->
  In u (f k1) -> In u (f k2) -> i = j.
Proof.
  induction ks as [|k ks IH]; intros i j k1 k2 Hn H1 H2 Hu1 Hu2.
  - destruct i; discriminate.
  - simpl in Hn.
    assert (Hin : forall n k', nth_error ks n = Some k' -> In u (f k') ->
                               In u (flat_map f ks)).
    { intros n k' Hk Hu. apply in_flat_map. exists k'. split; [|exact Hu].
      eapply nth_error_In; eauto. }
    destruct i as [|i], j as [|j]; simpl in H1, H2.
    + reflexivity.
    + inversion H1; subst. exfalso. eapply (NoDup_apart u); eauto.
    + inversion H2; subst. exfalso. eapply (NoDup_apart u); eauto.
    + f_equal. eapply IH; eauto. eapply NoDup_app_remove_l; eauto.
Qed.

(** X17: whatever is called on a manager, with whatever sizes, no two nodes
    carry the same identifier: an identifier in use tells the knapsack and
    the node, and it is one that [generateUUID] has given. *)
Theorem identifiers_in_use_are_unique stack size w ops ref1 ref2 n1 n2 u :
  TextureManager.node ref1 (fst (run stack ops (TextureManager.new size, w))) = Some n1 ->
  TextureManager.node ref2 (fst (run stack ops (TextureManager.new size, w))) = Some n2 ->
  imageID n1 = Some u -> imageID n2 = Some u ->
  ref1 = ref2 /\ (u < next_uuid (snd (run stack ops (TextureManager.new size, w))))%nat.
Proof.
  intros H1 H2 Hu1 Hu2.
  assert (Hun : unique (run stack ops (TextureManager.new size, w))).
  { apply run_unique. split; simpl; constructor. }
  revert H1 H2 Hun.
  generalize (run stack ops (TextureManager.new size, w)). intros [tm wd] H1 H2 [Hn Hf].
  simpl in *. unfold TextureManager.node, all_ids in *.
  destruct (nth_error (TextureManager.knapsacks tm) (knapsack_index ref1)) as [k1|] eqn:E1;
    [|discriminate].
  destruct (nth_error (TextureManager.knapsacks tm) (knapsack_index ref2)) as [k2|] eqn:E2;
    [|discriminate].
  pose proof (ids_in _ _ _ _ H1 Hu1) as Hin1.
  pose proof (ids_in _ _ _ _ H2 Hu2) as Hin2.
  assert (Ei : knapsack_index ref1 = knapsack_index ref2).
  { eapply (flat_map_position (fun k => ids (Knapsack.rootNode k)) u); eauto. }
  split.
  - rewrite <- Ei, E1 in E2. inversion E2; subst k2.
    assert (Ep : path ref1 = path ref2).
    { eapply (ids_position (Knapsack.rootNode k1)); eauto.
      apply nth_error_split in E1 as (pre & post & Eks & _).
      rewrite Eks, flat_map_app in Hn. simpl in Hn.
      apply NoDup_app_remove_l in Hn. apply NoDup_app_remove_r in Hn. exact Hn. }
    destruct ref1, ref2; simpl in *; congruence.
  - rewrite Forall_forall in Hf. apply Hf. apply in_flat_map.
    exists k1. split; [eapply nth_error_In; eauto|exact Hin1].
Qed.

Lemma identifiers_in_use_are_unique_witness :
  mkRef 0 [L; L] = mkRef 0 [L; L] /\
  (5 < next_uuid (snd (run 8 Programs.reuse (TextureManager.new (Some (Int 1024)), World0))))%nat.
Proof.
  apply (identifiers_in_use_are_unique 8 (Some (Int 1024)) World0 Programs.reuse
           (mkRef 0 [L; L]) (mkRef 0 [L; L])
           (Leaf (KnapsackRectangle.mk 0 0 100 50) (Some 5%nat) None)
           (Leaf (KnapsackRectangle.mk 0 0 100 50) (Some 5%nat) None) 5%nat).
  - vm_compute. reflexivity.
  - vm_compute. reflexivity.
  - reflexivity.
  - reflexivity.
Defined.

End IdsFacts.

(** * The promise of a node *)

Section PromiseOfANode.

Import Conditions Batch.

(** X18: [allocateNode] is [allocate] behind a promise.  It returns a new
    promise that is settled on return: resolved with what [allocate] returns
    for the same request, a node or [null], or rejected with what [allocate]
    throws; it leaves the manager [allocate] leaves, and makes the same
    calls. *)
Theorem allocateNode_settles_as_allocate_returns stack width height tm w :
  fresh_promises w ->
  match TextureManager.allocate stack width height tm w with
  | (c, tm', w') =>
      TextureManager.allocateNode stack width height tm w
      = (Normal (next_promise w), tm',
         with_promises (S (next_promise w))
           (settlements w ++
            [(next_promise w,
              match c with Normal node => Resolved node | Abrupt e => Rejected e end)])
           w')
  end.
Proof.
  intros Hf. pose proof (settled_fresh w Hf) as Hs.
  unfold TextureManager.allocate, TextureManager.allocateNode, new_promise.
  assert (Hsettle : forall s w',
            settle (next_promise w) s (with_promises (S (next_promise w)) (settlements w) w')
            = with_promises (S (next_promise w)) (settlements w ++ [(next_promise w, s)]) w').
  { intros s w'. unfold settle, settled in *. simpl.
    match type of Hs with context [find ?f ?l] =>
      destruct (find f l); [discriminate Hs|] end.
    reflexivity. }
  destruct (TextureManager._validateSize width height tm).
  - change (mkWorld (next_uuid w) (calls w) (S (next_promise w)) (settlements w))
      with (with_promises (S (next_promise w)) (settlements w) w).
    rewrite _allocate_promises_frame.
    destruct (TextureManager._allocate stack width height tm w) as [[c tm'] w'].
    destruct c; rewrite Hsettle; reflexivity.
  - change (mkWorld (next_uuid w) (calls w) (S (next_promise w)) (settlements w))
      with (with_promises (S (next_promise w)) (settlements w) w).
    rewrite Hsettle. reflexivity.
Qed.

Lemma allocateNode_settles_as_allocate_returns_witness :
  match TextureManager.allocate 8 (Int 100) (Int 50) (TextureManager.new None) World0 with
  | (c, tm', w') =>
      TextureManager.allocateNode 8 (Int 100) (Int 50) (TextureManager.new None) World0
      = (Normal (next_promise World0), tm',
         with_promises (S (next_promise World0))
           (settlements World0 ++
            [(next_promise World0,
              match c with Normal node => Resolved node | Abrupt e => Rejected e end)])
           w')
  end.
Proof.
  apply (allocateNode_settles_as_allocate_returns 8 (Int 100) (Int 50)
           (TextureManager.new None) World0).
  intros p s H. simpl in H. contradiction.
Defined.

End PromiseOfANode.

(** * Negative sizes *)

Section NegativeSizes.

Import KnapsackNode Tree Sizes.

(** X19: a negative width is served.  On a fresh manager a request of a
    negative width, smaller than the height, gets a node of exactly that
    width and height, which holds no pixel; and the knapsack is left with a
    free leaf that lies partly off the canvas. *)
Theorem negative_width_leaves_a_leaf_off_the_canvas stack size width height w :
  width < 0 -> width < height ->
  height <= TextureManager.textureSize (TextureManager.new size) ->
  (3 <= stack)%nat ->
  exists ref tm' w' n m,
    TextureManager.allocate stack (Int width) (Int height) (TextureManager.new size) w
      = (Normal (Some ref), tm', w') /\
    TextureManager.node ref tm' = Some n /\
    KnapsackNode.width n = width /\ KnapsackNode.height n = height /\
    (forall x y, ~ inside (rectangle n) x y) /\
    TextureManager.node (mkRef 0 [R]) tm' = Some m /\
    hasChildren m = false /\ isOccupied m = false /\
    inside (rectangle m) (-1) 0.
Proof.
  intros Hneg Hwh Hh Hstack.
  destruct (new_well_sized size) as [Hin _].
  apply sizes_positive in Hin.
  remember (TextureManager.new size) as tm eqn:Etm.
  assert (Eks : TextureManager.knapsacks tm = []) by (subst tm; reflexivity).
  unfold TextureManager.textureSize in Hh.
  unfold TextureManager.allocate, TextureManager._validateSize, TextureManager.textureSize.
  simpl gt.
  destruct (Z.ltb_spec (TextureManager.size tm) width); [lia|].
  destruct (Z.ltb_spec (TextureManager.size tm) height); [lia|].
  pose proof (_allocate_cases stack (Int width) (Int height) tm w) as Hc.
  destruct (TextureManager._allocate stack (Int width) (Int height) tm w) as [[c tm'] w'].
  destruct Hc as [(pre & k & post & k' & res & E & _)|(k' & res & _ & Eks' & Ea & Ec)].
  { rewrite Eks in E. destruct pre; discriminate E. }
  rewrite Eks in *. simpl in Eks', Ec.
  apply allocateNode_found_root in Ea as [Ea _]. simpl in Ea.
  unfold TextureManager.textureSize in Ea.
  destruct stack as [|stack]; [lia|]. simpl in Ea.
  unfold KnapsackNode.width, KnapsackNode.height, KnapsackRectangle.width,
    KnapsackRectangle.height, split in Ea. simpl in Ea.
  rewrite Z.sub_0_r in Ea.
  destruct (Z.ltb_spec (TextureManager.size tm) width); [lia|].
  destruct (Z.ltb_spec (TextureManager.size tm) height); [lia|]. simpl in Ea.
  destruct (Z.eqb_spec width (TextureManager.size tm)); [lia|]. simpl in Ea.
  unfold KnapsackRectangle.width, KnapsackRectangle.height, KnapsackRectangle.new in Ea.
  simpl in Ea. rewrite !Z.sub_0_r in Ea.
  destruct (Z.ltb_spec (TextureManager.size tm - height) (TextureManager.size tm - width));
    [|lia].
  match type of Ea with context [allocate stack ?d ?sz ?a ?b (Leaf ?rl None None) ?w0] =>
    destruct (free_leaf_found stack d sz width height rl None w0) as (a' & w1 & p & El)
  end.
  { simpl. unfold KnapsackRectangle.width. simpl. lia. }
  { simpl. unfold KnapsackRectangle.height. simpl. lia. }
  { unfold mismatches, KnapsackRectangle.width. simpl.
    rewrite Z.sub_0_r, Z.eqb_refl. destruct (_ =? _); simpl; lia. }
  rewrite El in Ea. simpl in Ea. inversion Ea as [[Eroot Ew Eres]]. clear Ea.
  apply allocate_found in El as (nd & Hat & Hleaf & Hw & Hhh & _).
  apply strict_eq_Int in Hw, Hhh.
  subst res c.
  exists (mkRef 0 (L :: p)), tm', w', nd, (Leaf (KnapsackRectangle.mk width 0
            (TextureManager.size tm) (TextureManager.size tm)) None None).
  split; [reflexivity|].
  unfold TextureManager.node. rewrite Eks'. simpl. rewrite <- Eroot. simpl.
  split; [exact Hat|]. split; [symmetry; exact Hw|]. split; [symmetry; exact Hhh|].
  split.
  { intros x y [Hx _]. unfold KnapsackNode.width, KnapsackRectangle.width in Hw. lia. }
  split; [reflexivity|]. split; [reflexivity|]. split; [reflexivity|].
  unfold inside. simpl. lia.
Qed.

Lemma negative_width_leaves_a_leaf_off_the_canvas_witness :
  exists ref tm' w' n m,
    TextureManager.allocate 3 (Int (-5)) (Int 10) (TextureManager.new None) World0
      = (Normal (Some ref), tm', w') /\
    TextureManager.node ref tm' = Some n /\
    KnapsackNode.width n = -5 /\ KnapsackNode.height n = 10 /\
    (forall x y, ~ inside (rectangle n) x y) /\
    TextureManager.node (mkRef 0 [R]) tm' = Some m /\
    hasChildren m = false /\ isOccupied m = false /\
    inside (rectangle m) (-1) 0.
Proof.
  apply (negative_width_leaves_a_leaf_off_the_canvas 3 None (-5) 10 World0).
  - lia.
  - lia.
  - simpl. lia.
  - lia.
Defined.

End NegativeSizes.

(** * Calls made with and without the debug flag *)


Section PaintingFacts.

Import KnapsackNode Tree Client Debug Painting.
















End PaintingFacts.

(** * The centre of a rectangle *)


Section CentreFacts.

Import Tree Drawing Centre.

Lemma middle_before x : (inject_Z x - (1 # 2) == middle (x - 1))%Q.
Proof.
  unfold middle, Z.sub. rewrite inject_Z_plus, inject_Z_opp.
  change (inject_Z 1) with 1%Q. ring.
Qed.

(** X15: [Xcentre] and [Ycentre] give the middle of a pixel, the one before
    the pixel halfway, which is half a pixel to a whole pixel before the
    middle of the rectangle.  That pixel belongs to the rectangle exactly
    when the rectangle is two pixels wide and two pixels high at least; of a
    rectangle one pixel wide it is the pixel left of the rectangle, of one a
    pixel high the pixel above it. *)
Theorem centre_is_the_middle_of_the_pixel_before_halfway (r : KnapsackRectangle.t) :
  (Xcentre r == middle (Xpixel r))%Q /\
  (Ycentre r == middle (Ypixel r))%Q /\
  (inject_Z (KnapsackRectangle.left r + KnapsackRectangle.right r) / 2 - 1 <= Xcentre r
   <= inject_Z (KnapsackRectangle.left r + KnapsackRectangle.right r) / 2 - (1 # 2))%Q /\
  (inject_Z (KnapsackRectangle.top r + KnapsackRectangle.bottom r) / 2 - 1 <= Ycentre r
   <= inject_Z (KnapsackRectangle.top r + KnapsackRectangle.bottom r) / 2 - (1 # 2))%Q /\
  (inside r (Xpixel r) (Ypixel r) <->
   2 <= KnapsackRectangle.width r /\ 2 <= KnapsackRectangle.height r) /\
  (KnapsackRectangle.width r = 1 -> Xpixel r = KnapsackRectangle.left r - 1) /\
  (KnapsackRectangle.height r = 1 -> Ypixel r = KnapsackRectangle.top r - 1).
Proof.
  unfold Xcentre, Ycentre, Xpixel, Ypixel. rewrite !floor_of_the_middle.
  destruct r as [l t rg b].
  unfold KnapsackRectangle.width, KnapsackRectangle.height, inside. simpl.
  pose proof (Z.div_mod (l + rg) 2 ltac:(lia)) as Dx.
  pose proof (Z.mod_pos_bound (l + rg) 2 ltac:(lia)) as Bx.
  pose proof (Z.div_mod (t + b) 2 ltac:(lia)) as Dy.
  pose proof (Z.mod_pos_bound (t + b) 2 ltac:(lia)) as By.
  split; [apply middle_before|]. split; [apply middle_before|].
  assert (Hq : forall a, 2 * (a / 2) <= a <= 2 * (a / 2) + 1 ->
                         (inject_Z a / 2 - 1 <= inject_Z (a / 2) - (1 # 2)
                          <= inject_Z a / 2 - (1 # 2))%Q).
  { intros a [H1 H2].
    assert (E1 : (inject_Z (2 * (a / 2)) <= inject_Z a)%Q) by (rewrite <- Zle_Qle; exact H1).
    assert (E2 : (inject_Z a <= inject_Z (2 * (a / 2) + 1))%Q)
      by (rewrite <- Zle_Qle; exact H2).
    rewrite inject_Z_plus, inject_Z_mult in E2. rewrite inject_Z_mult in E1.
    change (inject_Z 2) with 2%Q in *. change (inject_Z 1) with 1%Q in *.
    unfold Qdiv. change (/ 2)%Q with (1 # 2)%Q.
    split; lra. }
  split; [apply Hq; lia|]. split; [apply Hq; lia|].
  split; [lia|]. split; lia.
Qed.

End CentreFacts.

(** * A batch that stops *)


Section StalledFacts.

Import KnapsackNode Tree Conditions Client Batch.




End StalledFacts.
